(** * Hydro: EigenDA blob ingestion, reconstruction and derivation source

    A shallow embedding of the EigenDA pieces of hydro:
    - [src/crates/oracle/src/hint.rs]            (HintWrapper parse / display)
    - [src/bin/host/src/eigenda/online_provider.rs] (proxy client)
    - [src/bin/host/src/eigenda/handler.rs]      (host hint handler)
    - [src/crates/oracle/src/provider.rs]        (oracle-backed blob_get)
    - [src/crates/eigenda/src/derive/eigenda.rs] (EigenDASource)

    Crates whose code is not part of these files (the certificate decoder,
    the EigenDA blob codec, keccak256, the KZG witness builder, the base
    kona hint parser, protobuf/RLP decoders, chain and blob providers) are
    Section variables: every theorem holds for every implementation of
    them, and the hypotheses that some theorems need on them are stated
    where they are used. *)

From Stdlib Require Import List ZArith NArith Lia Bool.
From Stdlib Require String Ascii.
From Stdlib Require Import Sorting.Sorted.
From Stdlib Require Import Strings.Byte.
Import ListNotations.

(* ------------------------------------------------------------------ *)
(** ** Bytes, slices and big-endian integers *)

Definition bytes := list byte.

Definition BYTES_PER_FIELD_ELEMENT : nat := 32.

Definition bytes_eqb (a b : bytes) : bool :=
  if list_eq_dec byte_eq_dec a b then true else false.

(** [Z -> u8] truncation of a value already in range. *)
Definition byte_of_Z (z : Z) : byte :=
  match Byte.of_N (Z.to_N z) with Some b => b | None => x00 end.

(** [u64::to_be_bytes], written for an arbitrary width [n]. *)
Fixpoint to_be_bytes (n : nat) (i : Z) : bytes :=
  match n with
  | O => []
  | S n' => to_be_bytes n' (i / 256) ++ [byte_of_Z (i mod 256)]
  end.

Definition u64_to_be_bytes (i : Z) : bytes := to_be_bytes 8 i.

Fixpoint from_be_bytes_acc (acc : Z) (l : bytes) : Z :=
  match l with
  | [] => acc
  | b :: l' => from_be_bytes_acc (acc * 256 + Z.of_N (Byte.to_N b)) l'
  end.

Definition from_be_bytes (l : bytes) : Z := from_be_bytes_acc 0 l.

(** Rust's [v[s..e]]: panics (here [None]) unless [s <= e <= v.len()]. *)
Definition slice (s e : nat) (v : bytes) : option bytes :=
  if (s <=? e)%nat && (e <=? length v)%nat then Some (firstn (e - s) (skipn s v))
  else None.

(** Rust's [dst[s..s+src.len()].copy_from_slice(src)] when in bounds. *)
Definition copy_into (dst : bytes) (s : nat) (src : bytes) : bytes :=
  firstn s dst ++ src ++ skipn (s + length src) dst.

(* ------------------------------------------------------------------ *)
(** ** A result type and a state/error monad *)

Inductive result (E A : Type) : Type :=
| Ok (a : A)
| Err (e : E).
Arguments Ok {E A} a.
Arguments Err {E A} e.

Definition M (S E A : Type) : Type := S -> result E A * S.

Definition ret {S E A} (a : A) : M S E A := fun s => (Ok a, s).

Definition bind {S E A B} (m : M S E A) (k : A -> M S E B) : M S E B :=
  fun s => match m s with
           | (Ok a, s') => k a s'
           | (Err e, s') => (Err e, s')
           end.

Definition fail {S E A} (e : E) : M S E A := fun s => (Err e, s).

Notation "x <- m ;; k" := (bind m (fun x => k))
  (at level 61, m at next level, right associativity).
Notation "m ;;; k" := (bind m (fun _ => k))
  (at level 61, right associativity).

Definition ensure {S E} (b : bool) (e : E) : M S E unit :=
  if b then ret tt else fail e.

Definition of_option {S E A} (o : option A) (e : E) : M S E A :=
  match o with Some a => ret a | None => fail e end.

Definition of_result {S E E' A} (r : result E' A) (f : E' -> E) : M S E A :=
  match r with Ok a => ret a | Err e => fail (f e) end.

(** [for x in xs { body(x)? }] *)
Fixpoint for_each {S E A} (xs : list A) (body : A -> M S E unit) : M S E unit :=
  match xs with
  | [] => ret tt
  | x :: xs' => body x ;;; for_each xs' body
  end.

(* ------------------------------------------------------------------ *)
(** ** Preimage keys and the shared key-value store *)

Inductive PreimageKeyType :=
| Local | Keccak256 | GlobalGeneric | Sha256 | Blob | Precompile.

Definition PreimageKeyType_eq_dec (a b : PreimageKeyType) : {a = b} + {a <> b}.
Proof. decide equality. Defined.

(** [PreimageKey::new(digest, type)] *)
Record PreimageKey := { pk_digest : bytes; pk_type : PreimageKeyType }.

Definition PreimageKey_eq_dec (a b : PreimageKey) : {a = b} + {a <> b}.
Proof.
  decide equality; [apply PreimageKeyType_eq_dec | apply (list_eq_dec byte_eq_dec)].
Defined.

(** The key-value store as the log of its [set] calls, newest first;
    [get] returns the value of the most recent [set] of the key. The
    store's [set] is treated as infallible (the in-memory backend). *)
Definition kv := list (PreimageKey * bytes).

Definition kv_set {E} (k : PreimageKey) (v : bytes) : M kv E unit :=
  fun s => (Ok tt, (k, v) :: s).

Fixpoint kv_get (k : PreimageKey) (s : kv) : option bytes :=
  match s with
  | [] => None
  | (k', v) :: s' => if PreimageKey_eq_dec k k' then Some v else kv_get k s'
  end.

(* ------------------------------------------------------------------ *)
(** ** Certificates and hints *)

(** The fields of [BlobInfo] the code reads:
    [blob_header.commitment.{x,y}] and [blob_header.data_length] (u32). *)
Record BlobInfo := {
  commitment_x : bytes;
  commitment_y : bytes;
  data_length : nat
}.

(** [HintWrapper] (hint.rs), over the base kona [HintType]. *)
Inductive HintWrapper (HintType : Type) : Type :=
| Standard (h : HintType)
| EigenDABlob.
Arguments Standard {HintType} h.
Arguments EigenDABlob {HintType}.

(** The crates the EigenDA code calls into and whose code is not in these
    files: [keccak256] (alloy), [BlobInfo::decode] (RLP certificate decoder),
    [EigenDABlobData::encode] / [EigenDABlobData::decode] (the blob codec)
    and [EigenDABlobWitness::push_witness] (KZG witness builder, giving
    the witness' [proofs] and [commitments] lists). *)
Record Ext := {
  keccak256 : bytes -> bytes;
  BlobInfo_decode : bytes -> option BlobInfo;
  EigenDABlobData_encode : bytes -> bytes;
  EigenDABlobData_decode : bytes -> option bytes;
  push_witness : bytes -> option (list bytes * list bytes)
}.

(* ------------------------------------------------------------------ *)
(** ** Proxy client (online_provider.rs) *)

Module Proxy.
Import String.

(** [EigenDAProxyError]; the message strings are dropped. *)
Inductive EigenDAProxyError :=
| RetrieveBlobWithCommitment
| NetworkError
| NotFound.

(** What one [timeout(d, client.get(url).send())] followed by
    [response.bytes()] can produce: the tokio timeout elapses, the reqwest
    request fails (connection error, or reqwest's own client timeout), or
    a response arrives with a status code and a body read that succeeds
    ([Some]) or fails ([None]). *)
Inductive http_outcome :=
| Elapsed
| SendError
| Response (status : Z) (body : option bytes).

Definition hex_digit (n : N) : Ascii.ascii :=
  Ascii.ascii_of_N (if (n <? 10)%N then 48 + n else 87 + n)%N.

(** [hex::encode]: two lowercase digits per byte. *)
Fixpoint hex_encode (l : bytes) : String.string :=
  match l with
  | [] => String.EmptyString
  | b :: l' =>
      String.String (hex_digit (N.div (Byte.to_N b) 16))
        (String.String (hex_digit (N.modulo (Byte.to_N b) 16)) (hex_encode l'))
  end.

Definition request_url (proxy_url : String.string) (commitment : bytes) : String.string :=
  String.append proxy_url (String.append "/get/0x"%string (hex_encode commitment)).

Section Retrieve.
(** The HTTP transport: the outcome of the single GET of a URL. *)
Variable http_get : String.string -> http_outcome.

(** [EigenDAProxy::retrieve_blob_with_commitment]; the state is the log of
    the GET requests issued. *)
Definition retrieve_blob_with_commitment (proxy_url : String.string) (commitment : bytes)
  : M (list String.string) EigenDAProxyError bytes :=
  fun log =>
    let url := request_url proxy_url commitment in
    let log' := log ++ [url] in
    match http_get url with
    | Elapsed => (Err NetworkError, log')
    | SendError => (Err RetrieveBlobWithCommitment, log')
    | Response status body =>
        if (status =? 200)%Z then
          match body with
          | Some b => (Ok b, log')
          | None => (Err RetrieveBlobWithCommitment, log')
          end
        else if (status =? 404)%Z then (Err NotFound, log')
        else (Err NetworkError, log')
    end.
End Retrieve.

End Proxy.

(* ------------------------------------------------------------------ *)
(** ** Keys shared by the host ingestor and the client reconstructor *)

(** [dst[s..e].copy_from_slice(src)]: panics unless [src.len() = e - s]
    and [s <= e <= dst.len()]. *)
Definition copy_from_slice (dst : bytes) (s e : nat) (src : bytes) : option bytes :=
  if (s <=? e)%nat && (e <=? length dst)%nat && (e - s =? length src)%nat
  then Some (copy_into dst s src) else None.

(** [let mut blob_key = [0u8; 96]; blob_key[..32] <- x; blob_key[32..64] <- y] *)
Definition blob_key_base (info : BlobInfo) : option bytes :=
  match copy_from_slice (repeat x00 96) 0 32 (commitment_x info) with
  | Some k => copy_from_slice k 32 64 (commitment_y info)
  | None => None
  end.

(** [blob_key[88..].copy_from_slice(i.to_be_bytes())]: every iteration
    overwrites the same 8 bytes, so iteration [i] sees the base key with
    [i] in its last 8 bytes. *)
Definition blob_key_at (key0 : bytes) (i : nat) : bytes :=
  copy_into key0 88 (u64_to_be_bytes (Z.of_nat i)).

(* ------------------------------------------------------------------ *)
(** ** Host hint handler (handler.rs) *)

Module Host.

Inductive host_error :=
| StandardHintFailed
| InvalidHintData
| FetchFailed (e : Proxy.EigenDAProxyError)
| CertDecodeFailed
| Panic
| PushWitnessFailed
| CommitmentMismatch.

Section Handler.
Variable X : Ext.
Variable HintType : Type.
(** [SingleChainHintHandler::fetch_hint] for the base hints. *)
Variable single_chain_fetch_hint : HintType -> bytes -> M kv unit unit.
(** [providers.eigen_da.get_blob]. *)
Variable get_blob : bytes -> result Proxy.EigenDAProxyError bytes.

(** The 32-byte payload of field element [i] (lines 96-106). *)
Definition field_element_slice (eigenda_blob : bytes) (i : nat) : bytes :=
  let start := i * 32 in
  let end_ := start + 32 in
  let actual_end := Nat.min (length eigenda_blob) end_ in
  if (length eigenda_blob <=? start)%nat then repeat x00 32
  else copy_into (repeat x00 32) 0 (firstn (actual_end - start) (skipn start eigenda_blob)).

(** One iteration of the field-element loop (lines 87-111). *)
Definition write_field_element (key0 eigenda_blob : bytes) (i : nat) : M kv host_error unit :=
  let blob_key := blob_key_at key0 i in
  let blob_key_hash := keccak256 X blob_key in
  kv_set {| pk_digest := blob_key_hash; pk_type := Keccak256 |} blob_key ;;;
  kv_set {| pk_digest := blob_key_hash; pk_type := GlobalGeneric |}
         (field_element_slice eigenda_blob i).

(** [last_commitment[..32] != x || last_commitment[32..64] != y], with
    Rust's short-circuit and panicking slices. *)
Definition check_commitment (last_commitment : bytes) (info : BlobInfo) : M kv host_error unit :=
  match slice 0 32 last_commitment with
  | None => fail Panic
  | Some s1 =>
      if negb (bytes_eqb s1 (commitment_x info)) then fail CommitmentMismatch
      else match slice 32 64 last_commitment with
           | None => fail Panic
           | Some s2 => if negb (bytes_eqb s2 (commitment_y info))
                        then fail CommitmentMismatch else ret tt
           end
  end.

Definition kzg_proof_key (key0 : bytes) : bytes := firstn 64 key0.
Definition kzg_commitment_key (key0 : bytes) : bytes := firstn 64 key0 ++ [x00].

(** [EigenDAChainHintHandler::fetch_hint]. *)
Definition fetch_hint (hint : HintWrapper HintType) (data : bytes) : M kv host_error unit :=
  match hint with
  | Standard standard_hint =>
      fun s => match single_chain_fetch_hint standard_hint data s with
               | (Ok _, s') => (Ok tt, s')
               | (Err _, s') => (Err StandardHintFailed, s')
               end
  | EigenDABlob =>
      ensure (32 <? length data)%nat InvalidHintData ;;;
      blob <- of_result (get_blob data) FetchFailed ;;
      cert_blob_info <- of_option (BlobInfo_decode X (skipn 3 data)) CertDecodeFailed ;;
      let blob_length := data_length cert_blob_info in
      let eigenda_blob := EigenDABlobData_encode X blob in
      ensure (length eigenda_blob <=? blob_length * BYTES_PER_FIELD_ELEMENT)%nat Panic ;;;
      key0 <- of_option (blob_key_base cert_blob_info) Panic ;;
      for_each (seq 0 blob_length) (write_field_element key0 eigenda_blob) ;;;
      let pkey := kzg_proof_key key0 in
      let ckey := kzg_commitment_key key0 in
      witness <- of_option (push_witness X blob) PushWitnessFailed ;;
      let last_commitment := EigenDABlobData_encode X blob in
      check_commitment last_commitment cert_blob_info ;;;
      let proof := concat (fst witness) in
      kv_set {| pk_digest := keccak256 X pkey; pk_type := Keccak256 |} pkey ;;;
      kv_set {| pk_digest := keccak256 X pkey; pk_type := GlobalGeneric |} proof ;;;
      let commitment := concat (snd witness) in
      kv_set {| pk_digest := keccak256 X ckey; pk_type := Keccak256 |} ckey ;;;
      kv_set {| pk_digest := keccak256 X ckey; pk_type := GlobalGeneric |} commitment
  end.
End Handler.

End Host.

(* ------------------------------------------------------------------ *)
(** ** Hint tags (hint.rs) *)

Module Hint.
Import String.

Inductive HintParsingError := UnknownHint.

Section Tags.
Variable HintType : Type.
(** kona's [HintType::from_str] ([Ok] as [Some]) and [Display]. *)
Variable HintType_from_str : string -> option HintType.
Variable HintType_fmt : HintType -> string.

(** [<HintWrapper as FromStr>::from_str] *)
Definition from_str (s : string) : result HintParsingError (HintWrapper HintType) :=
  match HintType_from_str s with
  | Some standard => Ok (Standard standard)
  | None =>
      if String.eqb s "eigen-da-blob" then Ok EigenDABlob
      else Err UnknownHint
  end.

(** [<HintWrapper as Display>::fmt] *)
Definition fmt (h : HintWrapper HintType) : string :=
  match h with
  | Standard hint => HintType_fmt hint
  | EigenDABlob => "eigen-da-blob"
  end.
End Tags.

End Hint.

(* ------------------------------------------------------------------ *)
(** ** Oracle-backed blob reconstruction (provider.rs) *)

Module Client.

Inductive client_error :=
| InsufficientData          (** "does not contain header" *)
| UnwrapPanic               (** [BlobInfo::decode(..).unwrap()] *)
| SlicePanic                (** a [copy_from_slice] length mismatch *)
| PreimageFailed            (** [get_exact]: missing key or wrong length *)
| EmptyFieldElement
| DecodeError.

(** What the client can observe through its [CommsClient]: the oracle's
    key-value store and the hints it has sent (in order). *)
Record ClientState (HintType : Type) := {
  cs_kv : kv;
  cs_hints : list (HintWrapper HintType * bytes)
}.
Arguments cs_kv {HintType} c.
Arguments cs_hints {HintType} c.

Section BlobGet.
Variable X : Ext.
Variable HintType : Type.
(** The host's handler run on a hint, on the shared store ([Ok] when
    the handler succeeds). *)
Variable respond : HintWrapper HintType -> bytes -> M kv Host.host_error unit.

Definition St := ClientState HintType.

(** [hint.send(oracle).await?]: the hint is written to the hint channel
    and the client waits for the host's acknowledgement. The host's
    [HintReader] routes the hint to its handler and acknowledges it
    whether or not the handler succeeds, so the send succeeds either way
    and only the handler's store changes remain. The channel itself is
    taken as reliable (its I/O errors are not modelled). *)
Definition send_hint (h : HintWrapper HintType) (data : bytes) : M St client_error unit :=
  fun st =>
    let '(_, kv') := respond h data (cs_kv st) in
    (Ok tt, {| cs_kv := kv'; cs_hints := cs_hints st ++ [(h, data)] |}).

(** [oracle.get_exact(key, &mut [0u8; n])]: the preimage must exist and
    have exactly [n] bytes. *)
Definition get_exact (k : PreimageKey) (n : nat) : M St client_error bytes :=
  fun st =>
    match kv_get k (cs_kv st) with
    | Some v => if (length v =? n)%nat then (Ok v, st) else (Err PreimageFailed, st)
    | None => (Err PreimageFailed, st)
    end.

(** The field-element loop (lines 264-285), threading the buffer [blob]. *)
Fixpoint read_field_elements (key0 : bytes) (is : list nat) (blob : bytes)
  : M St client_error bytes :=
  match is with
  | [] => ret blob
  | i :: is' =>
      let blob_key := blob_key_at key0 i in
      field_element <- get_exact {| pk_digest := keccak256 X blob_key;
                                     pk_type := GlobalGeneric |} 32 ;;
      ensure (negb (length field_element =? 0)%nat) EmptyFieldElement ;;;
      read_field_elements key0 is' (copy_into blob (i * 32) field_element)
  end.

(** [OracleEigenDaProvider::blob_get] *)
Definition blob_get (commitment : bytes) : M St client_error bytes :=
  send_hint EigenDABlob commitment ;;;
  ensure (negb (length commitment <=? 32 + 3)%nat) InsufficientData ;;;
  cert_blob_info <- of_option (BlobInfo_decode X (skipn 3 commitment)) UnwrapPanic ;;
  let blob := repeat x00 (data_length cert_blob_info * BYTES_PER_FIELD_ELEMENT) in
  key0 <- of_option (blob_key_base cert_blob_info) SlicePanic ;;
  blob' <- read_field_elements key0 (seq 0 (data_length cert_blob_info)) blob ;;
  of_option (EigenDABlobData_decode X blob') DecodeError.
End BlobGet.

End Client.

(* ------------------------------------------------------------------ *)
(** ** The EigenDA derivation source (derive/eigenda.rs) *)

Module Derive.

(** A 20-byte address as its integer value; [Address::default()] is 0. *)
Definition Address := Z.

Definition DERIVATION_VERSION_EIGEN_DA : byte := xed.

(** The fields of a transaction the scan reads: its calldata and the
    signer [recover_signer] yields ([None] when recovery fails). *)
Record TxCommon := {
  tx_input : bytes;
  tx_signer : option Address
}.

(** [TxEnvelope]; [to()] of the first three is a [TxKind] ([None] for a
    contract creation), an EIP-4844 transaction always has a destination.
    The two [TxEip4844Variant]s carry the same fields and share one
    constructor. *)
Inductive TxEnvelope :=
| Legacy (to : option Address) (c : TxCommon)
| Eip2930 (to : option Address) (c : TxCommon)
| Eip1559 (to : option Address) (c : TxCommon)
| Eip4844 (to : Address) (blob_versioned_hashes : list bytes) (c : TxCommon)
| Eip7702 (to : Address) (c : TxCommon).

Definition tx_common (tx : TxEnvelope) : TxCommon :=
  match tx with
  | Legacy _ c | Eip2930 _ c | Eip1559 _ c | Eip4844 _ _ c | Eip7702 _ c => c
  end.

Definition is_eip4844 (tx : TxEnvelope) : bool :=
  match tx with Eip4844 _ _ _ => true | _ => false end.

(** [(tx_kind, calldata, blob_hashes)] of the match at lines 90-110;
    [None] for the [_ => continue] arm. *)
Definition tx_parts (tx : TxEnvelope)
  : option (option Address * bytes * option (list bytes)) :=
  match tx with
  | Legacy to c | Eip2930 to c | Eip1559 to c => Some (to, tx_input c, None)
  | Eip4844 to h c => Some (Some to, tx_input c, Some h)
  | Eip7702 _ _ => None
  end.

(** [tx.recover_signer().unwrap_or_default()] *)
Definition recover_signer_or_default (tx : TxEnvelope) : Address :=
  match tx_signer (tx_common tx) with Some a => a | None => 0%Z end.

Record IndexedBlobHash := { ibh_hash : bytes; ibh_index : N }.

(** The decoded [FrameRef] fields that are read. *)
Record FrameRef := {
  fr_commitment : bytes;
  fr_blob_length : nat;   (** u32 *)
  fr_quorum_ids : list N
}.

(** [calldata_frame::Value] *)
Inductive CalldataValue :=
| Frame (f : bytes)
| FrameRefV (r : FrameRef).

Inductive EigenDAProviderError :=
| ProtoDecodeError
| Status
| RLPDecodeError
| Backend
| SlicePanic.   (** the panic of an out-of-bounds slice *)

(** The running state of the scan loop in [data_from_eigen_da]. *)
Record ScanState := {
  sc_data : list bytes;
  sc_hashes : list IndexedBlobHash;
  sc_index : N
}.

Definition push_data (f : bytes) : M ScanState EigenDAProviderError unit :=
  fun s => (Ok tt, {| sc_data := sc_data s ++ [f]; sc_hashes := sc_hashes s;
                      sc_index := sc_index s |}).

Definition push_hash (h : bytes) : M ScanState EigenDAProviderError unit :=
  fun s => (Ok tt, {| sc_data := sc_data s;
                      sc_hashes := sc_hashes s ++ [{| ibh_hash := h; ibh_index := sc_index s |}];
                      sc_index := N.succ (sc_index s) |}).

(** [index += n] (u64; a block never carries 2^64 blob hashes). *)
Definition advance_index (n : N) : M ScanState EigenDAProviderError unit :=
  fun s => (Ok tt, {| sc_data := sc_data s; sc_hashes := sc_hashes s;
                      sc_index := (sc_index s + n)%N |}).

Definition hashes_len (blob_hashes : option (list bytes)) : N :=
  match blob_hashes with Some h => N.of_nat (length h) | None => 0%N end.

(** The source's state: the configured batcher address, the queue, the flag. *)
Record EigenDASource := {
  src_batcher_address : Address;
  src_data : list bytes;
  src_open : bool
}.

Inductive PipelineError :=
| Eof
| Provider.

Section Source.
Variable BlockInfo : Type.
Variable Blob : Type.
Variable BlobData : Type.
(** [CalldataFrame::decode] (prost): [None] on a decode error, else the
    optional [value]. *)
Variable CalldataFrame_decode : bytes -> option (option CalldataValue).
(** [rlp::decode::<VecOfBytes>] *)
Variable rlp_decode_list : bytes -> option (list bytes).
(** [eigen_da_provider.blob_get] *)
Variable eigen_da_blob_get : bytes -> result unit bytes.
(** [chain_provider.block_info_and_transactions_by_hash(..).1] *)
Variable block_transactions : BlockInfo -> result unit (list TxEnvelope).
(** [blob_fetcher.get_blobs] *)
Variable get_blobs : BlockInfo -> list IndexedBlobHash -> result unit (list Blob).
(** [BlobData::default().fill(&blobs, blob_index)]: the filled blob and
    [should_increment]; and [BlobData::decode]. *)
Variable BlobData_fill : list Blob -> nat -> result unit (BlobData * bool).
Variable BlobData_decode : BlobData -> option bytes.

(** One iteration of the scan loop (lines 90-165). *)
Definition scan_tx (self_batcher batcher_address : Address) (tx : TxEnvelope)
  : M ScanState EigenDAProviderError unit :=
  match tx_parts tx with
  | None => ret tt
  | Some (tx_kind, calldata, blob_hashes) =>
    match tx_kind with
    | None => ret tt
    | Some to =>
      if negb (to =? self_batcher)%Z then advance_index (hashes_len blob_hashes)
      else if negb (recover_signer_or_default tx =? batcher_address)%Z
      then advance_index (hashes_len blob_hashes)
      else match calldata with
      | [] =>
          if is_eip4844 tx then
            match blob_hashes with
            | Some bs => for_each bs push_hash
            | None => ret tt
            end
          else ret tt
      | c0 :: blob_data =>
          if Byte.eqb c0 DERIVATION_VERSION_EIGEN_DA then
            calldata_frame <- of_option (CalldataFrame_decode blob_data) ProtoDecodeError ;;
            match calldata_frame with
            | None => ret tt
            | Some (Frame frame) => push_data frame
            | Some (FrameRefV frame_ref) =>
                match fr_quorum_ids frame_ref with
                | [] => ret tt
                | _ :: _ =>
                    blob_data <- of_result (eigen_da_blob_get (fr_commitment frame_ref))
                                           (fun _ => Status) ;;
                    blobs <- of_option (slice 0 (fr_blob_length frame_ref) blob_data) SlicePanic ;;
                    decoded <- of_option (rlp_decode_list blobs) RLPDecodeError ;;
                    for_each decoded push_data
                end
            end
          else ret tt
      end
    end
  end.

Definition scan_txs (self_batcher batcher_address : Address) (txs : list TxEnvelope)
  : M ScanState EigenDAProviderError unit :=
  for_each txs (scan_tx self_batcher batcher_address).

Definition empty_scan : ScanState := {| sc_data := []; sc_hashes := []; sc_index := 0%N |}.

(** [EigenDASource::data_from_eigen_da] *)
Definition data_from_eigen_da (self_batcher batcher_address : Address) (txs : list TxEnvelope)
  : result EigenDAProviderError (list bytes * list IndexedBlobHash) :=
  match scan_txs self_batcher batcher_address txs empty_scan with
  | (Ok _, s) => Ok (sc_data s, sc_hashes s)
  | (Err e, _) => Err e
  end.

(** The loop over [blob_hashes] in [load_blobs] (lines 200-220). *)
Fixpoint whole_blob_data (blobs : list Blob) (hs : list IndexedBlobHash) (blob_index : nat)
  (acc : bytes) : result EigenDAProviderError bytes :=
  match hs with
  | [] => Ok acc
  | _ :: hs' =>
      match BlobData_fill blobs blob_index with
      | Err _ => Err Backend
      | Ok (blob, should_increment) =>
          let blob_index' := if should_increment then S blob_index else blob_index in
          let acc' := match BlobData_decode blob with
                      | Some d => acc ++ d
                      | None => acc
                      end in
          whole_blob_data blobs hs' blob_index' acc'
      end
  end.

(** The [if !blob_hashes.is_empty()] block of [load_blobs]: the frames
    decoded from plain blobs. *)
Definition plain_blob_frames (block_ref : BlockInfo) (blob_hashes : list IndexedBlobHash)
  : result EigenDAProviderError (list bytes) :=
  match blob_hashes with
  | [] => Ok []
  | _ :: _ =>
      match get_blobs block_ref blob_hashes with
      | Err _ => Err Backend
      | Ok blobs =>
          match whole_blob_data blobs blob_hashes 0 [] with
          | Err e => Err e
          | Ok whole =>
              match rlp_decode_list whole with
              | None => Err RLPDecodeError
              | Some rlp_blob => Ok rlp_blob
              end
          end
      end
  end.

(** [EigenDASource::load_blobs] *)
Definition load_blobs (block_ref : BlockInfo) (batcher_address : Address)
  : M EigenDASource EigenDAProviderError unit :=
  fun self =>
    if src_open self then (Ok tt, self)
    else match block_transactions block_ref with
    | Err _ => (Err Backend, self)
    | Ok txs =>
      match data_from_eigen_da (src_batcher_address self) batcher_address txs with
      | Err e => (Err e, self)
      | Ok (blob_data, blob_hashes) =>
        match plain_blob_frames block_ref blob_hashes with
        | Err e => (Err e, self)
        | Ok extra =>
            (Ok tt, {| src_batcher_address := src_batcher_address self;
                       src_data := blob_data ++ extra; src_open := true |})
        end
      end
    end.

(** [EigenDASource::next_data] *)
Definition next_data : M EigenDASource PipelineError bytes :=
  fun self =>
    match src_data self with
    | [] => (Err Eof, self)
    | d :: rest => (Ok d, {| src_batcher_address := src_batcher_address self;
                            src_data := rest; src_open := src_open self |})
    end.

(** [<EigenDASource as DataAvailabilityProvider>::next] *)
Definition next (block_ref : BlockInfo) (batcher_address : Address)
  : M EigenDASource PipelineError bytes :=
  fun self =>
    match load_blobs block_ref batcher_address self with
    | (Err _, self') => (Err Provider, self')
    | (Ok _, self') => next_data self'
    end.

(** [<EigenDASource as DataAvailabilityProvider>::clear] *)
Definition clear (self : EigenDASource) : EigenDASource :=
  {| src_batcher_address := src_batcher_address self; src_data := []; src_open := false |}.

(** [n] successive calls of [next], collecting their results. *)
Fixpoint next_n (n : nat) (block_ref : BlockInfo) (batcher_address : Address)
  (self : EigenDASource) : list (result PipelineError bytes) * EigenDASource :=
  match n with
  | O => ([], self)
  | S n' =>
      let '(r, self') := next block_ref batcher_address self in
      let '(rs, self'') := next_n n' block_ref batcher_address self' in
      (r :: rs, self'')
  end.
End Source.

End Derive.

(* ------------------------------------------------------------------ *)
(** ** Derived notions used in the statements *)

Module Views.
Import Host Client.

(** The oracle keys of field element [i]: payload and self-describing. *)
Definition fe_payload_key (X : Ext) (key0 : bytes) (i : nat) : PreimageKey :=
  {| pk_digest := keccak256 X (blob_key_at key0 i); pk_type := GlobalGeneric |}.
Definition fe_self_key (X : Ext) (key0 : bytes) (i : nat) : PreimageKey :=
  {| pk_digest := keccak256 X (blob_key_at key0 i); pk_type := Keccak256 |}.

(** The conditions under which the host accepts the [EigenDABlob] hint
    for commitment [c] (proxy answer [blob], certificate [info], witness
    [w]) and the client gets past its header check. *)
Record valid_commitment (X : Ext) (get_blob : bytes -> result Proxy.EigenDAProxyError bytes)
    (c blob : bytes) (info : BlobInfo) (w : list bytes * list bytes) : Prop := {
  vc_min_len : (35 < length c)%nat;
  vc_fetch : get_blob c = Ok blob;
  vc_cert : BlobInfo_decode X (skipn 3 c) = Some info;
  vc_x : length (commitment_x info) = 32%nat;
  vc_y : length (commitment_y info) = 32%nat;
  vc_u32 : (Z.of_nat (data_length info) < 2 ^ 32)%Z;
  vc_size : (length (EigenDABlobData_encode X blob) <= data_length info * 32)%nat;
  vc_commitment : firstn 64 (EigenDABlobData_encode X blob) =
                  commitment_x info ++ commitment_y info;
  vc_witness : push_witness X blob = Some w
}.

(** What the client returns after the host ingested [blob]: the decode of
    the encoded blob zero-padded to [data_length * 32] bytes. *)
Definition reconstructed (X : Ext) (blob : bytes) (info : BlobInfo) : result client_error bytes :=
  let eb := EigenDABlobData_encode X blob in
  match EigenDABlobData_decode X (eb ++ repeat x00 (data_length info * 32 - length eb)) with
  | Some r => Ok r
  | None => Err DecodeError
  end.

(** The frames one transaction contributes to the queue: what [scan_tx]
    pushes when it is scanned alone. *)
Definition tx_frames (CalldataFrame_decode : bytes -> option (option Derive.CalldataValue))
    (rlp_decode_list : bytes -> option (list bytes))
    (eigen_da_blob_get : bytes -> result unit bytes)
    (self_batcher batcher_address : Derive.Address) (tx : Derive.TxEnvelope) : list bytes :=
  Derive.sc_data (snd (Derive.scan_tx CalldataFrame_decode rlp_decode_list eigen_da_blob_get
                         self_batcher batcher_address tx Derive.empty_scan)).

(** A scan step whose outcome [r] does not depend on the scan state and
    that appends exactly [d] to the queued frames. *)
Definition appends {E} (m : M Derive.ScanState E unit) (r : result E unit) (d : list bytes)
  : Prop :=
  forall s, fst (m s) = r /\ Derive.sc_data (snd (m s)) = Derive.sc_data s ++ d.

(** Blob hashes [hs] recorded with consecutive indices from [i] on. *)
Fixpoint indexed_from (hs : list bytes) (i : N) : list Derive.IndexedBlobHash :=
  match hs with
  | [] => []
  | h :: hs' => {| Derive.ibh_hash := h; Derive.ibh_index := i |} :: indexed_from hs' (N.succ i)
  end.

(** The recorded blob hashes carry strictly increasing indices, all
    below the running index. *)
Definition indices_ok (s : Derive.ScanState) : Prop :=
  StronglySorted N.lt (map Derive.ibh_index (Derive.sc_hashes s)) /\
  Forall (fun h => (Derive.ibh_index h < Derive.sc_index s)%N) (Derive.sc_hashes s).

(** A step that keeps the state predicate [P], whatever its outcome. *)
Definition preserves {S E A} (P : S -> Prop) (m : M S E A) : Prop :=
  forall s, P s -> P (snd (m s)).

(** Store entries as the preimage oracle expects them: a [Keccak256]
    entry holds a preimage of its digest, and every [GlobalGeneric] entry
    has a [Keccak256] entry of the same digest in [log]. *)
Definition preimage_entry (X : Ext) (log : kv) (e : PreimageKey * bytes) : Prop :=
  (pk_type (fst e) = Keccak256 /\ pk_digest (fst e) = keccak256 X (snd e)) \/
  (pk_type (fst e) = GlobalGeneric /\
   exists v, In ({| pk_digest := pk_digest (fst e); pk_type := Keccak256 |}, v) log).

Definition preimage_log (X : Ext) (log : kv) : Prop := Forall (preimage_entry X log) log.

(** The entries the field-element loop writes for the indices [is],
    newest first. *)
Definition loop_entries (X : Ext) (key0 eb : bytes) (is : list nat) : kv :=
  concat (map (fun i => [(fe_payload_key X key0 i, field_element_slice eb i);
                         (fe_self_key X key0 i, blob_key_at key0 i)]) (rev is)).

(** The four proof and commitment entries written after the commitment
    check, newest first. *)
Definition kzg_entries (X : Ext) (key0 : bytes) (w : list bytes * list bytes) : kv :=
  [({| pk_digest := keccak256 X (kzg_commitment_key key0); pk_type := GlobalGeneric |},
      concat (snd w));
   ({| pk_digest := keccak256 X (kzg_commitment_key key0); pk_type := Keccak256 |},
      kzg_commitment_key key0);
   ({| pk_digest := keccak256 X (kzg_proof_key key0); pk_type := GlobalGeneric |},
      concat (fst w));
   ({| pk_digest := keccak256 X (kzg_proof_key key0); pk_type := Keccak256 |},
      kzg_proof_key key0)].

(** The versioned hashes a transaction carries (only EIP-4844 ones carry
    any), and those of a block's transactions in order. *)
Definition tx_blob_hashes (tx : Derive.TxEnvelope) : list bytes :=
  match tx with Derive.Eip4844 _ h _ => h | _ => [] end.

Definition block_blob_hashes (txs : list Derive.TxEnvelope) : list bytes :=
  concat (map tx_blob_hashes txs).

(** An EIP-4844 transaction from [batcher_address] to [self_batcher]
    either has empty calldata or carries no versioned hash. *)
Definition counts_blob_hashes (self_batcher batcher_address : Derive.Address)
    (tx : Derive.TxEnvelope) : Prop :=
  match tx with
  | Derive.Eip4844 to h c =>
      to = self_batcher -> Derive.recover_signer_or_default tx = batcher_address ->
      Derive.tx_input c = [] \/ h = []
  | _ => True
  end.

(** The running index and the recorded hashes positioned in the blob
    hashes of the transactions [pre] scanned so far. *)
Definition positioned (pre : list Derive.TxEnvelope) (s : Derive.ScanState) : Prop :=
  Derive.sc_index s = N.of_nat (length (block_blob_hashes pre)) /\
  Forall (fun h => nth_error (block_blob_hashes pre) (N.to_nat (Derive.ibh_index h)) =
                   Some (Derive.ibh_hash h))
         (Derive.sc_hashes s).

(** The bytes a filled blob contributes to the plain-blob data: its
    decode, or nothing when it does not decode. *)
Definition decoded_or_empty {BlobData} (BlobData_decode : BlobData -> option bytes)
    (b : BlobData) : bytes :=
  match BlobData_decode b with Some d => d | None => [] end.

(** A lowercase hexadecimal digit: [0-9] or [a-f]. *)
Definition is_lower_hex_digit (a : Ascii.ascii) : bool :=
  ((48 <=? Ascii.N_of_ascii a) && (Ascii.N_of_ascii a <=? 57))%N ||
  ((97 <=? Ascii.N_of_ascii a) && (Ascii.N_of_ascii a <=? 102))%N.

End Views.

(* ------------------------------------------------------------------ *)
(** ** Host configuration (cfg.rs) *)

Module Cfg.
Import String Ascii.
Local Open Scope string_scope.

(** [core::time::Duration] *)
Record Duration := { dur_secs : Z; dur_nanos : Z }.

(** [Duration::from_secs] *)
Definition Duration_from_secs (secs : Z) : Duration := {| dur_secs := secs; dur_nanos := 0 |}.

(** [core::num::IntErrorKind]: the kinds [u64::from_str] reports. *)
Inductive IntErrorKind := Empty | InvalidDigit | PosOverflow.

(** [<ParseIntError as Display>::fmt] *)
Definition ParseIntError_msg (k : IntErrorKind) : string :=
  match k with
  | Empty => "cannot parse integer from empty string"
  | InvalidDigit => "invalid digit found in string"
  | PosOverflow => "number too large to fit in target type"
  end.

(** [(c as char).to_digit(10)] *)
Definition to_digit (c : ascii) : option Z :=
  let n := N_of_ascii c in
  if (48 <=? n)%N && (n <=? 57)%N then Some (Z.of_N (n - 48)) else None.

(** The digit loop of [u64::from_str_radix(src, 10)]: per byte, the digit
    is read, then [result.checked_mul(10)] and [checked_add(x)] fail with
    [PosOverflow] past [u64::MAX]. *)
Fixpoint from_str_digits (acc : Z) (digits : list ascii) : result IntErrorKind Z :=
  match digits with
  | [] => Ok acc
  | c :: digits' =>
      let mul := (acc * 10)%Z in
      match to_digit c with
      | None => Err InvalidDigit
      | Some x =>
          if (mul <? 2 ^ 64)%Z then
            if (mul + x <? 2 ^ 64)%Z then from_str_digits (mul + x) digits'
            else Err PosOverflow
          else Err PosOverflow
      end
  end.

(** [<u64 as FromStr>::from_str]: empty input is [Empty]; a lone sign is
    [InvalidDigit]; a leading [+] is skipped; an unsigned type takes no
    [-], which is then read as a digit (and rejected). *)
Definition u64_from_str (src : string) : result IntErrorKind Z :=
  match list_ascii_of_string src with
  | [] => Err Empty
  | c :: rest =>
      if (Ascii.eqb c "+"%char || Ascii.eqb c "-"%char) && (match rest with [] => true | _ => false end)
      then Err InvalidDigit
      else if Ascii.eqb c "+"%char then from_str_digits 0 rest
      else from_str_digits 0 (c :: rest)
  end.

(** [parse_duration] *)
Definition parse_duration (input : string) : result string Duration :=
  match u64_from_str input with
  | Ok n => Ok (Duration_from_secs n)
  | Err e => Err ("Failed to parse duration: " ++ ParseIntError_msg e)
  end.

(** The decimal number a string of digits denotes (no bound). *)
Definition decimal_value (s : string) : Z :=
  fold_left (fun acc c => (acc * 10 + Z.of_N (N_of_ascii c - 48))%Z) (list_ascii_of_string s) 0%Z.

Definition is_decimal_digit (c : ascii) : bool :=
  (48 <=? N_of_ascii c)%N && (N_of_ascii c <=? 57)%N.

(** The [SingleChainHost] fields read here. *)
Record SingleChainHost := {
  l1_node_address : option string;
  l2_node_address : option string;
  l1_beacon_address : option string;
  data_dir : option string
}.

(** [EigenDACfg] *)
Record EigenDACfg := { proxy_url : option string; retrieve_timeout : Duration }.

(** [EigenDAChainHost] *)
Record EigenDAChainHost := { single_host : SingleChainHost; eigen_da_args : EigenDACfg }.

Definition is_none {A} (o : option A) : bool := match o with None => true | Some _ => false end.
Definition is_some {A} (o : option A) : bool := match o with None => false | Some _ => true end.

(** [EigenDAChainHost::is_offline] *)
Definition is_offline (self : EigenDAChainHost) : bool :=
  is_none (l1_node_address (single_host self)) &&
  is_none (l2_node_address (single_host self)) &&
  is_none (l1_beacon_address (single_host self)) &&
  is_some (data_dir (single_host self)).

Inductive SingleChainHostError := Other (msg : string).

(** The backing part of the split store [create_key_value_store] builds. *)
Inductive KeyValueStore :=
| DiskKeyValueStore (data_dir : string)
| MemoryKeyValueStore.

(** [EigenDAChainHost::create_key_value_store] *)
Definition create_key_value_store (self : EigenDAChainHost)
  : result SingleChainHostError KeyValueStore :=
  match data_dir (single_host self) with
  | Some d => Ok (DiskKeyValueStore d)
  | None => Ok MemoryKeyValueStore
  end.

(** [EigenDAProxy]: its URL and its timeout (the reqwest client is built
    with the same timeout). *)
Record EigenDAProxy := { proxy_url_of : string; retrieve_blob_timeout : Duration }.

(** [EigenDAChainProviders] with [OnlineEigenDAProvider::new(proxy)]. *)
Record EigenDAChainProviders (L1 Blobs L2 : Type) := {
  prov_l1 : L1; prov_blobs : Blobs; prov_l2 : L2; prov_eigen_da : EigenDAProxy
}.
Arguments prov_l1 {L1 Blobs L2}.
Arguments prov_blobs {L1 Blobs L2}.
Arguments prov_l2 {L1 Blobs L2}.
Arguments prov_eigen_da {L1 Blobs L2}.

(** The backend [start_server] hands to the preimage server. *)
Inductive HostBackend (L1 Blobs L2 : Type) :=
| OfflineHostBackend (kv_store : KeyValueStore)
| OnlineHostBackend (cfg : EigenDAChainHost) (kv_store : KeyValueStore)
    (providers : EigenDAChainProviders L1 Blobs L2).
Arguments OfflineHostBackend {L1 Blobs L2} kv_store.
Arguments OnlineHostBackend {L1 Blobs L2} cfg kv_store providers.

Section Start.
Variable L1 Blobs L2 : Type.
(** The constructors [create_providers] calls, [None] where they panic:
    [http_provider] (L1 and L2) unwraps the parse of its URL,
    [OnlineBlobProvider::init(OnlineBeaconClient::new_http(_))] is a
    round trip to the beacon node with no error result, and
    [Client::builder().timeout(_).build().expect(..)] builds the proxy's
    HTTP client. *)
Variable http_provider : string -> option L1.
Variable OnlineBlobProvider_init : string -> option Blobs.
Variable http_provider_l2 : string -> option L2.
Variable retrieve_client_build : Duration -> bool.

(** [EigenDAProxy::new] *)
Definition EigenDAProxy_new (proxy_url : string) (retrieve_blob_timeout : Duration)
  : option EigenDAProxy :=
  if retrieve_client_build retrieve_blob_timeout
  then Some {| proxy_url_of := proxy_url; retrieve_blob_timeout := retrieve_blob_timeout |}
  else None.

(** [EigenDAChainHost::create_providers]; [None] when the host panics. *)
Definition create_providers (self : EigenDAChainHost)
  : option (result SingleChainHostError (EigenDAChainProviders L1 Blobs L2)) :=
  match l1_node_address (single_host self) with
  | None => Some (Err (Other "Provider must be set"))
  | Some l1 =>
    match http_provider l1 with
    | None => None
    | Some l1_provider =>
    match l1_beacon_address (single_host self) with
    | None => Some (Err (Other "Beacon API URL must be set"))
    | Some beacon =>
      match OnlineBlobProvider_init beacon with
      | None => None
      | Some blob_provider =>
      match l2_node_address (single_host self) with
      | None => Some (Err (Other "L2 node address must be set"))
      | Some l2 =>
        match http_provider_l2 l2 with
        | None => None
        | Some l2_provider =>
        match proxy_url (eigen_da_args self) with
        | None => Some (Err (Other "EigenDA Proxy URL must be set"))
        | Some url =>
          match EigenDAProxy_new url (retrieve_timeout (eigen_da_args self)) with
          | None => None
          | Some proxy =>
            Some (Ok {| prov_l1 := l1_provider; prov_blobs := blob_provider;
                        prov_l2 := l2_provider; prov_eigen_da := proxy |})
          end
        end
        end
      end
      end
    end
    end
  end.

(** [EigenDAChainHost::start_server], up to the spawned server task;
    [None] when the host panics. *)
Definition start_server (self : EigenDAChainHost)
  : option (result SingleChainHostError (HostBackend L1 Blobs L2)) :=
  match create_key_value_store self with
  | Err e => Some (Err e)
  | Ok kv_store =>
      if is_offline self then Some (Ok (OfflineHostBackend kv_store))
      else match create_providers self with
           | None => None
           | Some (Err e) => Some (Err e)
           | Some (Ok providers) => Some (Ok (OnlineHostBackend self kv_store providers))
           end
  end.
End Start.

End Cfg.

(* ------------------------------------------------------------------ *)
(** ** Concrete implementations of the external crates

    Small executable stand-ins for the external crates, used to evaluate
    the code on concrete inputs. *)

Module Toy.
Import Host Client Derive.

(** An injective "hash" (the identity). *)
Definition id_hash (b : bytes) : bytes := b.

(** A certificate layout: one byte [data_length], then [x], then [y]. *)
Definition cert_decode (bs : bytes) : option BlobInfo :=
  match bs with
  | n :: rest => Some {| commitment_x := firstn 32 rest;
                         commitment_y := firstn 32 (skipn 32 rest);
                         data_length := Byte.to_nat n |}
  | [] => None
  end.

(** A length-self-delimiting codec: every payload byte is tagged with
    [0x01]; trailing zero padding decodes to nothing. *)
Definition tag_encode (b : bytes) : bytes := concat (map (fun x => [x01; x]) b).

Fixpoint tag_decode (l : bytes) : option bytes :=
  match l with
  | x01 :: x :: r => option_map (cons x) (tag_decode r)
  | _ => if forallb (Byte.eqb x00) l then Some [] else None
  end.

Definition no_witness (b : bytes) : option (list bytes * list bytes) := Some ([], []).

Definition tag_ext : Ext := {|
  keccak256 := id_hash;
  BlobInfo_decode := cert_decode;
  EigenDABlobData_encode := tag_encode;
  EigenDABlobData_decode := tag_decode;
  push_witness := no_witness
|}.

(** A 32-byte blob whose tagged encoding is 64 bytes. *)
Definition blob32 : bytes := concat (repeat [x01; x07] 16).

(** Header, [data_length = 2], then [x ++ y] equal to the encoded blob. *)
Definition commitment32 : bytes := [x01; x00; x00; x02] ++ tag_encode blob32.

(** The same blob under a certificate whose [x] disagrees. *)
Definition commitment32_bad : bytes := [x01; x00; x00; x02] ++ repeat x03 64.

(** The certificate carried by [commitment32], and by [commitment32_bad]. *)
Definition info32 : BlobInfo :=
  {| commitment_x := firstn 32 (tag_encode blob32);
     commitment_y := firstn 32 (skipn 32 (tag_encode blob32)); data_length := 2 |}.
Definition info32_bad : BlobInfo :=
  {| commitment_x := repeat x03 32; commitment_y := repeat x03 32; data_length := 2 |}.

(** A certificate with [data_length = 3] for the same 64-byte encoding:
    the third field element lies past its end. *)
Definition commitment_padded : bytes := [x01; x00; x00; x03] ++ repeat x03 64.
Definition info_padded : BlobInfo :=
  {| commitment_x := repeat x03 32; commitment_y := repeat x03 32; data_length := 3 |}.

Definition fetch_blob32 (c : bytes) : result Proxy.EigenDAProxyError bytes := Ok blob32.

(** The certificate layout of [cert_decode], accepting exactly 65 bytes. *)
Definition strict_cert_decode (bs : bytes) : option BlobInfo :=
  if (length bs =? 65)%nat then cert_decode bs else None.

Definition strict_ext : Ext := {|
  keccak256 := id_hash;
  BlobInfo_decode := strict_cert_decode;
  EigenDABlobData_encode := tag_encode;
  EigenDABlobData_decode := tag_decode;
  push_witness := no_witness
|}.

(** [tag_ext] with a KZG witness that can never be built. *)
Definition nowit_ext : Ext := {|
  keccak256 := id_hash;
  BlobInfo_decode := cert_decode;
  EigenDABlobData_encode := tag_encode;
  EigenDABlobData_decode := tag_decode;
  push_witness := fun _ => None
|}.

(** A 40-byte commitment: its 37-byte certificate is not 65 bytes long. *)
Definition commitment_undecodable : bytes := [x01; x00; x00] ++ repeat x03 37.

(** A 44-byte commitment whose certificate has a 32-byte [x] and an
    8-byte [y]. *)
Definition commitment_short_y : bytes := [x01; x00; x00; x01] ++ repeat x03 40.
Definition info_short_y : BlobInfo :=
  {| commitment_x := repeat x03 32; commitment_y := repeat x03 8; data_length := 1 |}.

(** A 2-byte blob (4 bytes once encoded) under a one-element certificate. *)
Definition short_blob : bytes := [x07; x07].
Definition fetch_short (c : bytes) : result Proxy.EigenDAProxyError bytes := Ok short_blob.
Definition commitment_one : bytes := [x01; x00; x00; x01] ++ repeat x03 64.
Definition info_one : BlobInfo :=
  {| commitment_x := repeat x03 32; commitment_y := repeat x03 32; data_length := 1 |}.

Definition no_standard (h : unit) (d : bytes) : M kv unit unit := ret tt.

(** The blob of the spec's example: 32 zero bytes then 32 [0xFF] bytes. *)
Definition example_blob : bytes := repeat x00 32 ++ repeat xff 32.

(** The example commitment: 3-byte header, then a certificate with
    [data_length = 2], [x = 0x01..01], [y = 0x02..02]. *)
Definition example_commitment : bytes :=
  [x01; x00; x00] ++ [x02] ++ repeat x01 32 ++ repeat x02 32.

Definition example_info : BlobInfo :=
  {| commitment_x := repeat x01 32; commitment_y := repeat x02 32; data_length := 2 |}.

Definition byte_xor (a b : byte) : byte :=
  byte_of_Z (Z.of_N (N.lxor (Byte.to_N a) (Byte.to_N b))).

(** A keystream codec (an involution) under which the example blob
    encodes to [x ++ y] of the example certificate. *)
Definition xor_stream (j : nat) : byte := if (Nat.modulo j 64 <? 32)%nat then x01 else xfd.

Definition xor_codec (b : bytes) : bytes :=
  map (fun p => byte_xor (fst p) (xor_stream (snd p))) (combine b (seq 0 (length b))).

Definition xor_ext : Ext := {|
  keccak256 := id_hash;
  BlobInfo_decode := cert_decode;
  EigenDABlobData_encode := xor_codec;
  EigenDABlobData_decode := fun b => Some (xor_codec b);
  push_witness := fun b => Some ([repeat x0a 48], [repeat x0b 64])
|}.

Definition fetch_example (c : bytes) : result Proxy.EigenDAProxyError bytes := Ok example_blob.

(** A hint handler that succeeds on every hint without touching the store. *)
Definition ack_all (h : HintWrapper unit) (d : bytes) : M kv host_error unit := ret tt.

(** A hint handler that writes one entry and then fails. *)
Definition write_then_fail (h : HintWrapper unit) (d : bytes) : M kv host_error unit :=
  fun s => (Err Panic, ({| pk_digest := d; pk_type := Keccak256 |}, d) :: s).

Definition empty_client : St unit := {| cs_kv := []; cs_hints := [] |}.

Module Tags.
Import String.
(** The base hint set reduced to one tag. *)
Definition base_from_str (s : string) : option unit :=
  if String.eqb s "l1-block-header" then Some tt else None.
Definition base_fmt (h : unit) : string := "l1-block-header".
End Tags.

(** Derivation-source stand-ins: calldata [0x00 ++ f] is an inline frame,
    [0x01 ++ [n] ++ c] a frame reference of length [n] to commitment [c]
    (quorum 0), [0x02 ++ [n] ++ c] the same without quorums; RLP lists
    are modelled as one frame per byte; the DA provider echoes the
    commitment; plain blobs are their versioned hashes. *)
Definition calldata_decode (l : bytes) : option (option CalldataValue) :=
  match l with
  | x00 :: f => Some (Some (Frame f))
  | x01 :: n :: c =>
      Some (Some (FrameRefV {| fr_commitment := c; fr_blob_length := Byte.to_nat n;
                               fr_quorum_ids := [0%N] |}))
  | x02 :: n :: c =>
      Some (Some (FrameRefV {| fr_commitment := c; fr_blob_length := Byte.to_nat n;
                               fr_quorum_ids := [] |}))
  | _ => None
  end.

Definition rlp_bytes (l : bytes) : option (list bytes) := Some (map (fun b => [b]) l).

Definition echo_da (c : bytes) : result unit bytes := Ok c.

Definition batcher : Address := 7%Z.
Definition inbox : Address := 9%Z.

Definition example_txs : list TxEnvelope :=
  [ Eip1559 (Some inbox) {| tx_input := [xed; x00; x41; x42]; tx_signer := Some batcher |};
    Eip4844 inbox [[x51; x52]] {| tx_input := []; tx_signer := Some batcher |};
    Eip1559 (Some inbox) {| tx_input := [xed; x01; x02; x61; x62; x63];
                            tx_signer := Some batcher |};
    Eip4844 inbox [[x99]] {| tx_input := []; tx_signer := Some 8%Z |};
    Eip4844 inbox [[x71]] {| tx_input := []; tx_signer := Some batcher |} ].

Definition block_txs (b : unit) : result unit (list TxEnvelope) := Ok example_txs.

Definition blobs_of (b : unit) (hs : list IndexedBlobHash) : result unit (list bytes) :=
  Ok (map ibh_hash hs).

Definition fill (blobs : list bytes) (i : nat) : result unit (bytes * bool) :=
  match nth_error blobs i with Some b => Ok (b, true) | None => Err tt end.

Definition blob_payload (b : bytes) : option bytes := Some b.

Definition closed_source : EigenDASource :=
  {| src_batcher_address := inbox; src_data := []; src_open := false |}.

(** A chain provider that cannot serve the block. *)
Definition no_block (b : unit) : result unit (list TxEnvelope) := Err tt.

End Toy.

(* ================================================================== *)
(** * Properties *)

(** ** Bytes, keys and byte layouts *)

Module KeyFacts.

Lemma byte_of_Z_to_N (z : Z) :
  (0 <= z < 256)%Z -> Z.of_N (Byte.to_N (byte_of_Z z)) = z.
Proof.
  intros Hz. unfold byte_of_Z.
  pose proof (Byte.to_of_N_option_map (Z.to_N z)) as H.
  destruct (Byte.of_N (Z.to_N z)) as [b|] eqn:E;
    replace (N.leb (Z.to_N z) 255) with true in H
      by (symmetry; apply N.leb_le; lia); simpl in H.
  - injection H as H. rewrite H. lia.
  - discriminate.
Qed.

Lemma from_be_bytes_acc_app (l1 l2 : bytes) (acc : Z) :
  from_be_bytes_acc acc (l1 ++ l2) = from_be_bytes_acc (from_be_bytes_acc acc l1) l2.
Proof.
  revert acc; induction l1 as [|b l1 IH]; intros acc; simpl; auto.
Qed.

Lemma to_be_bytes_length (n : nat) (i : Z) : length (to_be_bytes n i) = n.
Proof.
  revert i; induction n as [|n IH]; intros i; simpl; auto.
  rewrite length_app, IH; simpl; lia.
Qed.

Lemma from_be_to_be_bytes (n : nat) (i : Z) :
  (0 <= i)%Z -> from_be_bytes (to_be_bytes n i) = (i mod 256 ^ Z.of_nat n)%Z.
Proof.
  revert i; induction n as [|n IH]; intros i Hi.
  - simpl. now rewrite Z.mod_1_r.
  - cbn [to_be_bytes]. unfold from_be_bytes.
    rewrite from_be_bytes_acc_app. fold (from_be_bytes (to_be_bytes n (i / 256))).
    rewrite IH by (apply Z.div_pos; lia). cbn [from_be_bytes_acc].
    rewrite byte_of_Z_to_N by (apply Z.mod_pos_bound; lia).
    rewrite Nat2Z.inj_succ, Z.pow_succ_r by lia.
    rewrite Z.rem_mul_r by (try apply Z.pow_pos_nonneg; lia). lia.
Qed.

Lemma to_be_bytes_inj (n : nat) (i j : Z) :
  (0 <= i < 256 ^ Z.of_nat n)%Z -> (0 <= j < 256 ^ Z.of_nat n)%Z ->
  to_be_bytes n i = to_be_bytes n j -> i = j.
Proof.
  intros Hi Hj E.
  assert (from_be_bytes (to_be_bytes n i) = from_be_bytes (to_be_bytes n j)) as F
    by now rewrite E.
  rewrite !from_be_to_be_bytes in F by lia.
  rewrite !Z.mod_small in F by lia. exact F.
Qed.

Lemma copy_into_length (dst src : bytes) (s : nat) :
  (s + length src <= length dst)%nat -> length (copy_into dst s src) = length dst.
Proof.
  intros H. unfold copy_into. rewrite !length_app, length_firstn, length_skipn. lia.
Qed.

Lemma copy_from_slice_length (dst src r : bytes) (s e : nat) :
  copy_from_slice dst s e src = Some r -> length r = length dst.
Proof.
  unfold copy_from_slice. intros H.
  destruct ((s <=? e)%nat && (e <=? length dst)%nat && (e - s =? length src)%nat) eqn:C;
    [|discriminate].
  injection H as <-. apply andb_prop in C as [C C3]. apply andb_prop in C as [C1 C2].
  apply Nat.leb_le in C1, C2. apply Nat.eqb_eq in C3.
  apply copy_into_length. lia.
Qed.

Lemma blob_key_base_length (info : BlobInfo) (key0 : bytes) :
  blob_key_base info = Some key0 -> length key0 = 96%nat.
Proof.
  unfold blob_key_base. destruct (copy_from_slice _ 0 32 _) as [k|] eqn:E; [|discriminate].
  intros H. apply copy_from_slice_length in E, H. rewrite H, E. apply repeat_length.
Qed.

Lemma blob_key_at_length (key0 : bytes) (i : nat) :
  length key0 = 96%nat -> length (blob_key_at key0 i) = 96%nat.
Proof.
  intros H. unfold blob_key_at, u64_to_be_bytes. rewrite copy_into_length; auto.
  rewrite to_be_bytes_length. lia.
Qed.

Lemma blob_key_at_inj (key0 : bytes) (i j : nat) :
  length key0 = 96%nat -> (Z.of_nat i < 2 ^ 64)%Z -> (Z.of_nat j < 2 ^ 64)%Z ->
  blob_key_at key0 i = blob_key_at key0 j -> i = j.
Proof.
  intros Hk Hi Hj E.
  assert (forall k, firstn 8 (skipn 88 (blob_key_at key0 k)) = u64_to_be_bytes (Z.of_nat k))
    as P.
  { intros k. unfold blob_key_at, copy_into.
    rewrite skipn_app, length_firstn, Nat.min_l by lia.
    rewrite skipn_all2 by (rewrite length_firstn; lia). rewrite Nat.sub_diag, skipn_0, app_nil_l.
    unfold u64_to_be_bytes. rewrite firstn_app, firstn_all2 by (now rewrite to_be_bytes_length).
    rewrite to_be_bytes_length, Nat.sub_diag, firstn_0, app_nil_r.
    reflexivity. }
  pose proof (P i) as Pi. rewrite E, P in Pi.
  apply to_be_bytes_inj in Pi; [lia| |]; change (256 ^ Z.of_nat 8)%Z with (2 ^ 64)%Z; lia.
Qed.

End KeyFacts.

(** ** The host's field-element layout and write loop *)

Module HostFacts.
Import KeyFacts Host.

(** Case on the first key comparison of a [kv_get]. *)
Ltac kv_case :=
  cbn [kv_get];
  match goal with |- context [PreimageKey_eq_dec ?a ?b] =>
    destruct (PreimageKey_eq_dec a b) end.

Lemma field_element_slice_spec (eb : bytes) (i : nat) :
  length (field_element_slice eb i) = 32%nat /\
  forall j, (j < 32)%nat -> nth j (field_element_slice eb i) x00 = nth (i * 32 + j) eb x00.
Proof.
  unfold field_element_slice.
  destruct (length eb <=? i * 32)%nat eqn:C.
  - apply Nat.leb_le in C. split; [apply repeat_length|].
    intros j Hj. rewrite nth_repeat, nth_overflow; auto. lia.
  - apply Nat.leb_gt in C.
    set (n := (Nat.min (length eb) (i * 32 + 32) - i * 32)%nat).
    assert (Hn : length (firstn n (skipn (i * 32) eb)) = n)
      by (rewrite length_firstn, length_skipn; unfold n; lia).
    unfold copy_into. rewrite firstn_0, app_nil_l, Nat.add_0_l, Hn.
    split.
    + rewrite length_app, Hn, length_skipn, repeat_length. unfold n; lia.
    + intros j Hj. destruct (Nat.lt_ge_cases j n) as [Hjn|Hjn].
      * rewrite app_nth1 by (rewrite Hn; lia).
        rewrite nth_firstn, nth_skipn. replace (j <? n)%nat with true
          by (symmetry; apply Nat.ltb_lt; lia). reflexivity.
      * rewrite app_nth2 by (rewrite Hn; lia). rewrite Hn, nth_skipn, nth_repeat.
        rewrite nth_overflow; auto. unfold n in *; lia.
Qed.

Lemma concat_field_elements_nth (eb : bytes) (L k : nat) :
  length (concat (map (field_element_slice eb) (seq 0 L))) = (L * 32)%nat /\
  ((k < L * 32)%nat ->
   nth k (concat (map (field_element_slice eb) (seq 0 L))) x00 = nth k eb x00).
Proof.
  revert k; induction L as [|L IH]; intros k.
  - simpl. split; [reflexivity|lia].
  - rewrite seq_S, map_app, concat_app. simpl (map _ [_]). rewrite concat_cons, concat_nil, app_nil_r.
    destruct (field_element_slice_spec eb L) as [Hl Hn].
    destruct (IH 0%nat) as [Hlen _].
    split.
    + rewrite length_app, Hlen, Hl. lia.
    + intros Hk. destruct (Nat.lt_ge_cases k (L * 32)) as [Hk'|Hk'].
      * rewrite app_nth1 by lia. now apply (IH k).
      * rewrite app_nth2 by lia. rewrite Hlen, Hn by lia. f_equal. lia.
Qed.

(** Reassembling the [data_length] field elements yields the encoded blob
    zero-padded to [data_length * 32] bytes. *)
Lemma concat_field_elements (eb : bytes) (L : nat) :
  (length eb <= L * 32)%nat ->
  concat (map (field_element_slice eb) (seq 0 L)) = eb ++ repeat x00 (L * 32 - length eb).
Proof.
  intros H. apply nth_ext with (d := x00) (d' := x00).
  - rewrite (proj1 (concat_field_elements_nth eb L 0)), length_app, repeat_length. lia.
  - intros k Hk. rewrite (proj1 (concat_field_elements_nth eb L 0)) in Hk.
    rewrite (proj2 (concat_field_elements_nth eb L k) Hk).
    destruct (Nat.lt_ge_cases k (length eb)).
    + now rewrite app_nth1.
    + rewrite app_nth2, nth_repeat by lia. apply nth_overflow; lia.
Qed.

Section Loop.
Variable X : Ext.
Variable key0 eb : bytes.

Local Abbreviation fe_payload_key := (Views.fe_payload_key X key0).
Local Abbreviation fe_self_key := (Views.fe_self_key X key0).

Lemma write_field_element_run (i : nat) (s : kv) :
  write_field_element X key0 eb i s =
  (Ok tt, (fe_payload_key i, field_element_slice eb i) ::
          (fe_self_key i, blob_key_at key0 i) :: s).
Proof. reflexivity. Qed.

Lemma for_each_cons {S E A} (x : A) (xs : list A) (body : A -> M S E unit) (s : S) :
  for_each (x :: xs) body s =
  match body x s with
  | (Ok _, s') => for_each xs body s'
  | (Err e, s') => (Err e, s')
  end.
Proof. reflexivity. Qed.

Lemma write_loop_run (is : list nat) (s0 : kv) :
  for_each is (write_field_element X key0 eb) s0 =
  (Ok tt, snd (for_each is (write_field_element X key0 eb) s0)) /\
  length (snd (for_each is (write_field_element X key0 eb) s0)) =
  (2 * length is + length s0)%nat.
Proof.
  revert s0; induction is as [|i is IH]; intros s0; [simpl; auto|].
  rewrite for_each_cons, write_field_element_run.
  destruct (IH ((fe_payload_key i, field_element_slice eb i) ::
                (fe_self_key i, blob_key_at key0 i) :: s0)) as [H1 H2].
  rewrite H1. split; [reflexivity|]. simpl in H2 |- *. lia.
Qed.

Lemma write_loop_untouched (is : list nat) (s0 : kv) (k : PreimageKey) :
  (forall i, In i is -> k <> fe_payload_key i /\ k <> fe_self_key i) ->
  kv_get k (snd (for_each is (write_field_element X key0 eb) s0)) = kv_get k s0.
Proof.
  revert s0; induction is as [|i is IH]; intros s0 Hk; [reflexivity|].
  rewrite for_each_cons, write_field_element_run.
  rewrite IH by (intros j Hj; apply Hk; right; exact Hj).
  destruct (Hk i (or_introl eq_refl)) as [A B].
  kv_case; [contradiction|]. kv_case; [contradiction|]. reflexivity.
Qed.

Hypothesis keccak256_inj : forall a b, keccak256 X a = keccak256 X b -> a = b.
Hypothesis key0_length : length key0 = 96%nat.

Lemma fe_payload_key_inj (i j : nat) :
  (Z.of_nat i < 2 ^ 64)%Z -> (Z.of_nat j < 2 ^ 64)%Z ->
  fe_payload_key i = fe_payload_key j -> i = j.
Proof.
  intros Hi Hj E. injection E as E. apply keccak256_inj in E.
  now apply blob_key_at_inj in E.
Qed.

Lemma write_loop_payload (is : list nat) (s0 : kv) (i : nat) :
  (forall j, In j is -> Z.of_nat j < 2 ^ 64)%Z -> In i is ->
  kv_get (fe_payload_key i) (snd (for_each is (write_field_element X key0 eb) s0)) =
  Some (field_element_slice eb i).
Proof.
  revert s0; induction is as [|j is IH]; intros s0 Hb Hi; [destruct Hi|].
  destruct (in_dec Nat.eq_dec i is) as [Hin|Hnin].
  - rewrite for_each_cons, write_field_element_run.
    apply IH; auto. intros m Hm; apply Hb; right; exact Hm.
  - destruct Hi as [<-|Hi]; [|contradiction].
    rewrite for_each_cons, write_field_element_run.
    rewrite (write_loop_untouched is _ (fe_payload_key j)).
    + kv_case; [reflexivity|contradiction].
    + intros m Hm. split.
      * intros E. apply fe_payload_key_inj in E; [subst; contradiction| |];
          apply Hb; [left; reflexivity|right; exact Hm].
      * intros E. injection E as _ E. discriminate E.
Qed.
End Loop.

Lemma check_commitment_state (last : bytes) (info : BlobInfo) (s : kv) :
  snd (check_commitment last info s) = s.
Proof.
  unfold check_commitment.
  destruct (slice 0 32 last); [|reflexivity].
  destruct (negb _); [reflexivity|].
  destruct (slice 32 64 last); [|reflexivity].
  destruct (negb _); reflexivity.
Qed.

Lemma bytes_eqb_refl (a : bytes) : bytes_eqb a a = true.
Proof. unfold bytes_eqb. destruct (list_eq_dec byte_eq_dec a a); congruence. Qed.

Lemma bytes_eqb_eq (a b : bytes) : bytes_eqb a b = true <-> a = b.
Proof.
  unfold bytes_eqb. destruct (list_eq_dec byte_eq_dec a b); split; congruence.
Qed.

(** The recomputed commitment agrees with the certificate when the first
    64 bytes of the encoded blob are [x ++ y]. *)
Lemma check_commitment_ok (last : bytes) (info : BlobInfo) (s : kv) :
  length (commitment_x info) = 32%nat -> length (commitment_y info) = 32%nat ->
  firstn 64 last = commitment_x info ++ commitment_y info ->
  check_commitment last info s = (Ok tt, s).
Proof.
  intros Hx Hy H.
  assert (Hl : (64 <= length last)%nat).
  { assert (length (firstn 64 last) = 64%nat) as E
      by (rewrite H, length_app, Hx, Hy; reflexivity).
    rewrite length_firstn in E. lia. }
  unfold check_commitment, slice.
  replace ((0 <=? 32)%nat && (32 <=? length last)%nat) with true
    by (symmetry; apply andb_true_intro; split; apply Nat.leb_le; lia).
  replace (firstn (32 - 0) (skipn 0 last)) with (commitment_x info).
  2:{ rewrite skipn_0. replace (32 - 0)%nat with 32%nat by reflexivity.
      replace (firstn 32 last) with (firstn 32 (firstn 64 last))
        by (rewrite firstn_firstn; reflexivity).
      rewrite H, firstn_app, Hx, Nat.sub_diag,
        firstn_0, app_nil_r, <- Hx. symmetry. apply firstn_all. }
  rewrite bytes_eqb_refl. cbn [negb].
  replace ((32 <=? 64)%nat && (64 <=? length last)%nat) with true
    by (symmetry; apply andb_true_intro; split; apply Nat.leb_le; lia).
  replace (firstn (64 - 32) (skipn 32 last)) with (commitment_y info).
  2:{ rewrite <- skipn_firstn_comm, H, skipn_app, Hx, Nat.sub_diag, skipn_0.
      rewrite skipn_all2 by lia. reflexivity. }
  rewrite bytes_eqb_refl. reflexivity.
Qed.

(** The recomputed commitment disagrees with the certificate when the
    first 64 bytes of the encoded blob are not [x ++ y]. *)
Lemma check_commitment_mismatch (last : bytes) (info : BlobInfo) (s : kv) :
  (64 <= length last)%nat ->
  firstn 64 last <> commitment_x info ++ commitment_y info ->
  check_commitment last info s = (Err CommitmentMismatch, s).
Proof.
  intros Hl Hne. unfold check_commitment, slice.
  replace ((0 <=? 32)%nat && (32 <=? length last)%nat) with true
    by (symmetry; apply andb_true_intro; split; apply Nat.leb_le; lia).
  destruct (bytes_eqb (firstn (32 - 0) (skipn 0 last)) (commitment_x info)) eqn:E1;
    [|reflexivity].
  replace ((32 <=? 64)%nat && (64 <=? length last)%nat) with true
    by (symmetry; apply andb_true_intro; split; apply Nat.leb_le; lia).
  destruct (bytes_eqb (firstn (64 - 32) (skipn 32 last)) (commitment_y info)) eqn:E2;
    [|reflexivity].
  apply bytes_eqb_eq in E1, E2. exfalso. apply Hne. rewrite <- E1, <- E2, skipn_0.
  rewrite <- (firstn_skipn 32 (firstn 64 last)), firstn_firstn, skipn_firstn_comm.
  reflexivity.
Qed.

(** A field-element payload key is none of the four proof/commitment keys
    written after the loop. *)
Lemma kv_get_skip_kzg (X : Ext) (key0 : bytes) (i : nat) (p c : bytes) (s : kv) :
  (forall a b, keccak256 X a = keccak256 X b -> a = b) ->
  length key0 = 96%nat ->
  kv_get (Views.fe_payload_key X key0 i)
    (({| pk_digest := keccak256 X (kzg_commitment_key key0); pk_type := GlobalGeneric |}, c) ::
     ({| pk_digest := keccak256 X (kzg_commitment_key key0); pk_type := Keccak256 |},
        kzg_commitment_key key0) ::
     ({| pk_digest := keccak256 X (kzg_proof_key key0); pk_type := GlobalGeneric |}, p) ::
     ({| pk_digest := keccak256 X (kzg_proof_key key0); pk_type := Keccak256 |},
        kzg_proof_key key0) :: s) =
  kv_get (Views.fe_payload_key X key0 i) s.
Proof.
  intros Hk Hk96.
  assert (Hlen : length (blob_key_at key0 i) = 96%nat) by (apply blob_key_at_length; auto).
  kv_case; [injection e as e; apply Hk in e;
            rewrite e in Hlen; unfold kzg_commitment_key in Hlen;
            rewrite length_app, length_firstn, Hk96 in Hlen; simpl in Hlen; lia|].
  kv_case; [injection e as _ e; discriminate e|].
  kv_case; [injection e as e; apply Hk in e;
            rewrite e in Hlen; unfold kzg_proof_key in Hlen;
            rewrite length_firstn, Hk96 in Hlen; simpl in Hlen; lia|].
  kv_case; [injection e as _ e; discriminate e|].
  reflexivity.
Qed.

Section Run.
Variable X : Ext.
Variable HintType : Type.
Variable single_chain_fetch_hint : HintType -> bytes -> M kv unit unit.
Variable get_blob : bytes -> result Proxy.EigenDAProxyError bytes.

(** The run of the [EigenDABlob] arm once the witness has been built:
    the field-element writes are done, then the commitment check decides
    whether the four proof/commitment writes follow. *)
Lemma fetch_hint_eigenda_run (data blob : bytes) (info : BlobInfo) (key0 : bytes)
    (w : list bytes * list bytes) (s0 : kv) :
  (32 < length data)%nat ->
  get_blob data = Ok blob ->
  BlobInfo_decode X (skipn 3 data) = Some info ->
  (length (EigenDABlobData_encode X blob) <= data_length info * 32)%nat ->
  blob_key_base info = Some key0 ->
  push_witness X blob = Some w ->
  let s1 := snd (for_each (seq 0 (data_length info))
                   (write_field_element X key0 (EigenDABlobData_encode X blob)) s0) in
  fetch_hint X HintType single_chain_fetch_hint get_blob EigenDABlob data s0 =
  match check_commitment (EigenDABlobData_encode X blob) info s1 with
  | (Ok _, s2) =>
      (Ok tt,
       ({| pk_digest := keccak256 X (kzg_commitment_key key0); pk_type := GlobalGeneric |},
          concat (snd w)) ::
       ({| pk_digest := keccak256 X (kzg_commitment_key key0); pk_type := Keccak256 |},
          kzg_commitment_key key0) ::
       ({| pk_digest := keccak256 X (kzg_proof_key key0); pk_type := GlobalGeneric |},
          concat (fst w)) ::
       ({| pk_digest := keccak256 X (kzg_proof_key key0); pk_type := Keccak256 |},
          kzg_proof_key key0) :: s2)
  | (Err e, s2) => (Err e, s2)
  end.
Proof.
  intros Hlen Hget Hdec Hsize Hkey Hwit s1.
  unfold fetch_hint, ensure, of_result, of_option.
  apply Nat.ltb_lt in Hlen. apply Nat.leb_le in Hsize.
  unfold BYTES_PER_FIELD_ELEMENT.
  rewrite Hlen, Hget. cbn [bind ret]. rewrite Hdec. cbn [bind ret].
  rewrite Hsize. cbn [bind ret]. rewrite Hkey. cbn [bind ret].
  unfold bind at 1. rewrite (proj1 (write_loop_run X key0 _ _ s0)). fold s1.
  rewrite Hwit. cbn [bind ret]. unfold bind at 1.
  destruct (check_commitment _ _ _) as [[u|e] s2]; reflexivity.
Qed.
End Run.

End HostFacts.

(** ** The client's reconstruction loop *)

Module ClientFacts.
Import KeyFacts Host HostFacts Client Views.

Lemma skipn_repeat_add (a : byte) (n r : nat) : skipn n (repeat a (n + r)) = repeat a r.
Proof. induction n as [|n IH]; simpl; auto. Qed.

Lemma copy_into_padded (P v : bytes) (r : nat) :
  length v = 32%nat ->
  copy_into (P ++ repeat x00 (32 + r)) (length P) v = P ++ v ++ repeat x00 r.
Proof.
  intros Hv. unfold copy_into.
  rewrite firstn_app, firstn_all, Nat.sub_diag, firstn_0, app_nil_r. f_equal. f_equal.
  rewrite skipn_app, skipn_all2 by lia. rewrite Hv.
  replace (length P + 32 - length P)%nat with 32%nat by lia.
  apply skipn_repeat_add.
Qed.

Lemma blob_key_base_some (info : BlobInfo) :
  length (commitment_x info) = 32%nat -> length (commitment_y info) = 32%nat ->
  exists key0, blob_key_base info = Some key0.
Proof.
  intros Hx Hy. unfold blob_key_base, copy_from_slice.
  rewrite repeat_length, Hx. cbn -[copy_into].
  rewrite copy_into_length by (rewrite ?repeat_length, ?Hx; simpl; lia).
  rewrite ?repeat_length, Hy. cbn -[copy_into]. eauto.
Qed.

Section Read.
Variable X : Ext.
Variable HintType : Type.
Variable key0 : bytes.
Variable vals : nat -> bytes.

Lemma read_field_elements_run (respond : HintWrapper HintType -> bytes -> M kv host_error unit)
    (st : St HintType) (m k : nat) (P : bytes) :
  (forall i, (k <= i < k + m)%nat ->
     kv_get (fe_payload_key X key0 i) (cs_kv st) = Some (vals i) /\ length (vals i) = 32%nat) ->
  length P = (k * 32)%nat ->
  read_field_elements X HintType key0 (seq k m) (P ++ repeat x00 (m * 32)) st =
  (Ok (P ++ concat (map vals (seq k m))), st).
Proof.
  revert k P; induction m as [|m IH]; intros k P Hv HP.
  - simpl. now rewrite app_nil_r.
  - cbn [seq read_field_elements]. unfold bind at 1, get_exact.
    destruct (Hv k ltac:(lia)) as [Hg Hl]. unfold fe_payload_key in Hg.
    rewrite Hg, Hl. cbn [Nat.eqb]. unfold bind, ensure, ret.
    replace (length (vals k) =? 0)%nat with false by (rewrite Hl; reflexivity).
    cbn [negb].
    replace (S m * 32)%nat with (32 + m * 32)%nat by lia.
    replace (k * 32)%nat with (length P) by lia. rewrite copy_into_padded by exact Hl.
    rewrite app_assoc, IH.
    + now rewrite <- app_assoc.
    + intros i Hi; apply Hv; lia.
    + rewrite length_app, Hl; lia.
Qed.
End Read.

End ClientFacts.

(** ** Host ingestion followed by client reconstruction *)

Module Pipeline.
Import KeyFacts Host HostFacts Client ClientFacts Views.

Section Ingest.
Variable X : Ext.
Variable HintType : Type.
Variable single_chain_fetch_hint : HintType -> bytes -> M kv unit unit.
Variable get_blob : bytes -> result Proxy.EigenDAProxyError bytes.

Local Abbreviation host := (fetch_hint X HintType single_chain_fetch_hint get_blob).
Local Abbreviation valid_commitment := (Views.valid_commitment X get_blob).
Local Abbreviation reconstructed := (Views.reconstructed X).

Hypothesis keccak256_inj : forall a b, keccak256 X a = keccak256 X b -> a = b.

Lemma host_accepts (c blob : bytes) (info : BlobInfo) (w : list bytes * list bytes) (s0 : kv) :
  valid_commitment c blob info w ->
  exists key0, blob_key_base info = Some key0 /\
  host EigenDABlob c s0 =
   (Ok tt,
    ({| pk_digest := keccak256 X (kzg_commitment_key key0); pk_type := GlobalGeneric |},
       concat (snd w)) ::
    ({| pk_digest := keccak256 X (kzg_commitment_key key0); pk_type := Keccak256 |},
       kzg_commitment_key key0) ::
    ({| pk_digest := keccak256 X (kzg_proof_key key0); pk_type := GlobalGeneric |},
       concat (fst w)) ::
    ({| pk_digest := keccak256 X (kzg_proof_key key0); pk_type := Keccak256 |},
       kzg_proof_key key0) ::
    snd (for_each (seq 0 (data_length info))
           (write_field_element X key0 (EigenDABlobData_encode X blob)) s0)).
Proof.
  intros V. destruct (blob_key_base_some info (vc_x _ _ _ _ _ _ V) (vc_y _ _ _ _ _ _ V)) as [key0 Hkey].
  exists key0. split; [exact Hkey|].
  rewrite (fetch_hint_eigenda_run X HintType single_chain_fetch_hint get_blob
                          c blob info key0 w s0); try (destruct V; auto; lia).
  rewrite check_commitment_ok by (destruct V; auto). reflexivity.
Qed.

Lemma blob_get_after_host (c blob : bytes) (info : BlobInfo) (w : list bytes * list bytes)
    (st : St HintType) :
  valid_commitment c blob info w ->
  fst (blob_get X HintType host c st) = reconstructed blob info.
Proof.
  intros V. destruct (host_accepts c blob info w (cs_kv st) V) as [key0 [Hkey Hrun]].
  pose proof (blob_key_base_length _ _ Hkey) as Hk96.
  set (eb := EigenDABlobData_encode X blob) in *.
  unfold blob_get, bind at 1, send_hint. rewrite Hrun.
  set (st1 := {| cs_kv := _; cs_hints := _ |}).
  unfold ensure. replace (negb (length c <=? 32 + 3)%nat) with true
    by (symmetry; apply negb_true_iff, Nat.leb_gt; destruct V; lia).
  cbn [bind ret]. unfold of_option. rewrite (vc_cert _ _ _ _ _ _ V). cbn [bind ret].
  rewrite Hkey. cbn [bind ret]. unfold bind at 1.
  change (repeat x00 (data_length info * BYTES_PER_FIELD_ELEMENT))
    with ([] ++ repeat x00 (data_length info * 32)).
  rewrite (read_field_elements_run X HintType key0 (field_element_slice eb) host st1
             (data_length info) 0 []); [| |reflexivity].
  - rewrite app_nil_l, concat_field_elements by (destruct V; auto).
    unfold reconstructed. fold eb.
    destruct (EigenDABlobData_decode X _); reflexivity.
  - intros i Hi. split; [|apply field_element_slice_spec].
    assert (Hlen : length (blob_key_at key0 i) = 96%nat) by (apply blob_key_at_length; auto).
    cbn [cs_kv st1].
    kv_case; [injection e as e; apply keccak256_inj in e;
              rewrite e in Hlen; unfold kzg_commitment_key in Hlen;
              rewrite length_app, length_firstn, Hk96 in Hlen; simpl in Hlen; lia|].
    kv_case; [injection e as _ e; discriminate e|].
    kv_case; [injection e as e; apply keccak256_inj in e;
              rewrite e in Hlen; unfold kzg_proof_key in Hlen;
              rewrite length_firstn, Hk96 in Hlen; simpl in Hlen; lia|].
    kv_case; [injection e as _ e; discriminate e|].
    apply write_loop_payload; auto.
    + intros j Hj. apply in_seq in Hj. pose proof (vc_u32 _ _ _ _ _ _ V). lia.
    + apply in_seq. lia.
Qed.
End Ingest.

End Pipeline.

(** ** The derivation source's scan and frame queue *)

Module DeriveFacts.
Import HostFacts Derive Views.

Lemma appends_ret {E} : @appends E (ret tt) (Ok tt) [].
Proof. intros s. split; [reflexivity|]. symmetry. apply app_nil_r. Qed.

Lemma appends_fail {E} (e : E) : appends (fail e) (Err e) [].
Proof. intros s. split; [reflexivity|]. symmetry. apply app_nil_r. Qed.

Lemma appends_advance (n : N) : appends (advance_index n) (Ok tt) [].
Proof. intros s. split; [reflexivity|]. symmetry. apply app_nil_r. Qed.

Lemma appends_push_data (f : bytes) : appends (push_data f) (Ok tt) [f].
Proof. intros s. split; reflexivity. Qed.

Lemma appends_push_hashes (bs : list bytes) : appends (for_each bs push_hash) (Ok tt) [].
Proof.
  induction bs as [|b bs IH]; [apply appends_ret|]. intros s.
  rewrite for_each_cons. destruct (push_hash b s) as [r s1] eqn:E.
  unfold push_hash in E. injection E as <- <-.
  destruct (IH {| sc_data := sc_data s;
                  sc_hashes := sc_hashes s ++ [{| ibh_hash := b; ibh_index := sc_index s |}];
                  sc_index := N.succ (sc_index s) |}) as [H1 H2].
  split; [exact H1|]. rewrite H2. reflexivity.
Qed.

Lemma appends_push_datas (ds : list bytes) : appends (for_each ds push_data) (Ok tt) ds.
Proof.
  induction ds as [|d ds IH]; [apply appends_ret|]. intros s.
  rewrite for_each_cons. destruct (push_data d s) as [r s1] eqn:E.
  unfold push_data in E. injection E as <- <-.
  destruct (IH {| sc_data := sc_data s ++ [d]; sc_hashes := sc_hashes s;
                  sc_index := sc_index s |}) as [H1 H2].
  split; [exact H1|]. rewrite H2. cbn [sc_data]. rewrite <- app_assoc. reflexivity.
Qed.

Lemma appends_bind_option {E A} (o : option A) (e : E) (k : A -> M ScanState E unit) :
  (forall a, exists r d, appends (k a) r d) ->
  exists r d, appends (bind (of_option o e) k) r d.
Proof.
  intros Hk. destruct o as [a|].
  - destruct (Hk a) as (r & d & H). exists r, d. exact H.
  - exists (Err e), []. apply appends_fail.
Qed.

Lemma appends_bind_result {E E' A} (x : result E' A) (f : E' -> E)
    (k : A -> M ScanState E unit) :
  (forall a, exists r d, appends (k a) r d) ->
  exists r d, appends (bind (of_result x f) k) r d.
Proof.
  intros Hk. destruct x as [a|e].
  - destruct (Hk a) as (r & d & H). exists r, d. exact H.
  - exists (Err (f e)), []. apply appends_fail.
Qed.

Section Scan.
Variable CalldataFrame_decode : bytes -> option (option CalldataValue).
Variable rlp_decode_list : bytes -> option (list bytes).
Variable eigen_da_blob_get : bytes -> result unit bytes.
Variable self_batcher batcher_address : Address.

Local Abbreviation scan_tx :=
  (Derive.scan_tx CalldataFrame_decode rlp_decode_list eigen_da_blob_get
                  self_batcher batcher_address).
Local Abbreviation scan_txs :=
  (Derive.scan_txs CalldataFrame_decode rlp_decode_list eigen_da_blob_get
                   self_batcher batcher_address).
Local Abbreviation data_from_eigen_da :=
  (Derive.data_from_eigen_da CalldataFrame_decode rlp_decode_list eigen_da_blob_get
                             self_batcher batcher_address).
Local Abbreviation tx_frames :=
  (Views.tx_frames CalldataFrame_decode rlp_decode_list eigen_da_blob_get
                   self_batcher batcher_address).

Lemma scan_tx_appends_ex (tx : TxEnvelope) : exists r d, appends (scan_tx tx) r d.
Proof.
  unfold Derive.scan_tx.
  destruct (tx_parts tx) as [[[kind calldata] blob_hashes]|]; [|eauto using appends_ret].
  destruct kind as [to|]; [|eauto using appends_ret].
  destruct (negb _); [eauto using appends_advance|].
  destruct (negb _); [eauto using appends_advance|].
  destruct calldata as [|c0 blob_data].
  - destruct (is_eip4844 tx); [destruct blob_hashes|];
      eauto using appends_ret, appends_push_hashes.
  - destruct (Byte.eqb c0 _); [|eauto using appends_ret].
    apply appends_bind_option. intros [[frame|frame_ref]|];
      [eauto using appends_push_data| |eauto using appends_ret].
    destruct (fr_quorum_ids frame_ref); [eauto using appends_ret|].
    apply appends_bind_result; intros bd. apply appends_bind_option; intros bs.
    apply appends_bind_option; intros ds. eauto using appends_push_datas.
Qed.

(** A transaction's outcome and frames do not depend on the scan state. *)
Lemma scan_tx_appends (tx : TxEnvelope) :
  appends (scan_tx tx) (fst (scan_tx tx empty_scan)) (tx_frames tx).
Proof.
  destruct (scan_tx_appends_ex tx) as (r & d & H).
  destruct (H empty_scan) as [H1 H2]. unfold Views.tx_frames. rewrite H1, H2. exact H.
Qed.

Lemma scan_txs_data (txs : list TxEnvelope) (s s' : ScanState) (u : unit) :
  scan_txs txs s = (Ok u, s') -> sc_data s' = sc_data s ++ concat (map tx_frames txs).
Proof.
  unfold Derive.scan_txs. revert s; induction txs as [|tx txs IH]; intros s H.
  - injection H as _ <-. symmetry. apply app_nil_r.
  - rewrite for_each_cons in H.
    destruct (scan_tx_appends tx s) as [H1 H2].
    destruct (scan_tx tx s) as [[v|e] s1]; cbn [fst snd] in H1, H2; [|discriminate].
    apply IH in H. rewrite H, H2. cbn [map]. rewrite concat_cons, app_assoc. reflexivity.
Qed.

(** The queued frames are the transactions' frames in scan order. *)
Lemma data_from_eigen_da_frames (txs : list TxEnvelope) (q : list bytes)
    (hs : list IndexedBlobHash) :
  data_from_eigen_da txs = Ok (q, hs) -> q = concat (map tx_frames txs).
Proof.
  unfold Derive.data_from_eigen_da.
  destruct (Derive.scan_txs _ _ _ _ _ txs empty_scan) as [[u|e] s] eqn:E; [|discriminate].
  intros H. injection H as <- _. apply scan_txs_data in E. exact E.
Qed.
End Scan.

Section Source.
Variable BlockInfo Blob BlobData : Type.
Variable CalldataFrame_decode : bytes -> option (option CalldataValue).
Variable rlp_decode_list : bytes -> option (list bytes).
Variable eigen_da_blob_get : bytes -> result unit bytes.
Variable block_transactions : BlockInfo -> result unit (list TxEnvelope).
Variable get_blobs : BlockInfo -> list IndexedBlobHash -> result unit (list Blob).
Variable BlobData_fill : list Blob -> nat -> result unit (BlobData * bool).
Variable BlobData_decode : BlobData -> option bytes.

Local Abbreviation load_blobs :=
  (Derive.load_blobs BlockInfo Blob BlobData CalldataFrame_decode rlp_decode_list
     eigen_da_blob_get block_transactions get_blobs BlobData_fill BlobData_decode).
Local Abbreviation next :=
  (Derive.next BlockInfo Blob BlobData CalldataFrame_decode rlp_decode_list
     eigen_da_blob_get block_transactions get_blobs BlobData_fill BlobData_decode).
Local Abbreviation next_n :=
  (Derive.next_n BlockInfo Blob BlobData CalldataFrame_decode rlp_decode_list
     eigen_da_blob_get block_transactions get_blobs BlobData_fill BlobData_decode).
Local Abbreviation data_from_eigen_da :=
  (Derive.data_from_eigen_da CalldataFrame_decode rlp_decode_list eigen_da_blob_get).
Local Abbreviation plain_blob_frames :=
  (Derive.plain_blob_frames BlockInfo Blob BlobData rlp_decode_list get_blobs
     BlobData_fill BlobData_decode).

Lemma load_blobs_open (br : BlockInfo) (b : Address) (self : EigenDASource) :
  src_open self = true -> load_blobs br b self = (Ok tt, self).
Proof. intros H. unfold Derive.load_blobs. rewrite H. reflexivity. Qed.

Lemma load_blobs_closed (br : BlockInfo) (b : Address) (self : EigenDASource)
    (txs : list TxEnvelope) (q : list bytes) (hs : list IndexedBlobHash) (extra : list bytes) :
  src_open self = false ->
  block_transactions br = Ok txs ->
  data_from_eigen_da (src_batcher_address self) b txs = Ok (q, hs) ->
  plain_blob_frames br hs = Ok extra ->
  load_blobs br b self =
    (Ok tt, {| src_batcher_address := src_batcher_address self; src_data := q ++ extra;
               src_open := true |}).
Proof. intros H1 H2 H3 H4. unfold Derive.load_blobs. rewrite H1, H2, H3, H4. reflexivity. Qed.

Lemma next_n_S (n : nat) (br : BlockInfo) (b : Address) (self : EigenDASource) :
  next_n (S n) br b self =
  let '(r, self') := next br b self in
  let '(rs, self'') := next_n n br b self' in
  (r :: rs, self'').
Proof. reflexivity. Qed.

Lemma next_n_open (br : BlockInfo) (b a : Address) (q : list bytes) :
  next_n (S (length q)) br b {| src_batcher_address := a; src_data := q; src_open := true |} =
  (map Ok q ++ [Err Eof], {| src_batcher_address := a; src_data := []; src_open := true |}).
Proof.
  induction q as [|d q IH]; [reflexivity|].
  cbn [length]. rewrite next_n_S.
  change (next br b {| src_batcher_address := a; src_data := d :: q; src_open := true |})
    with (Ok (E:=PipelineError) d,
          {| src_batcher_address := a; src_data := q; src_open := true |}).
  cbv beta iota. rewrite IH. reflexivity.
Qed.

Lemma next_n_load (n : nat) (br : BlockInfo) (b : Address) (self self' : EigenDASource) :
  load_blobs br b self = (Ok tt, self') -> src_open self' = true ->
  next_n (S n) br b self = next_n (S n) br b self'.
Proof.
  intros H1 H2. rewrite !next_n_S.
  assert (E : next br b self = next br b self').
  { unfold Derive.next. rewrite H1, (load_blobs_open br b self' H2). reflexivity. }
  rewrite E. reflexivity.
Qed.
End Source.

End DeriveFacts.

(* ================================================================== *)
(** * The specification's claims *)

(** ** Host ingestion and client reconstruction *)

Module ClaimsIngest.
Import KeyFacts Host HostFacts Client ClientFacts Views Pipeline.

(** C1 (as corrected). For a commitment whose certificate the host accepts
    ([valid_commitment]: blob fetched, certificate decoded, sizes in range,
    recomputed commitment equal to [(x, y)], witness built), [blob_get]
    with the host's [EigenDABlob] handler answering its hint returns
    [decode(encode(fetch) ++ zero padding to data_length * 32)], which is
    the fetched blob exactly when the codec round-trips it; a second
    [blob_get] on the resulting store returns the same result. *)
Theorem C1_ingest_then_reconstruct (X : Ext) (HintType : Type)
    (single_chain_fetch_hint : HintType -> bytes -> M kv unit unit)
    (get_blob : bytes -> result Proxy.EigenDAProxyError bytes)
    (c blob : bytes) (info : BlobInfo) (w : list bytes * list bytes) (st : St HintType) :
  (forall a b, keccak256 X a = keccak256 X b -> a = b) ->
  valid_commitment X get_blob c blob info w ->
  let host := fetch_hint X HintType single_chain_fetch_hint get_blob in
  fst (blob_get X HintType host c st) = reconstructed X blob info /\
  fst (blob_get X HintType host c (snd (blob_get X HintType host c st))) =
    reconstructed X blob info /\
  (EigenDABlobData_decode X
     (EigenDABlobData_encode X blob ++
      repeat x00 (data_length info * 32 - length (EigenDABlobData_encode X blob))) = Some blob ->
   fst (blob_get X HintType host c st) = Ok blob).
Proof.
  intros Hk V host.
  assert (R : forall st', fst (blob_get X HintType host c st') = reconstructed X blob info)
    by (intros st'; exact (blob_get_after_host X HintType single_chain_fetch_hint get_blob
                             Hk c blob info w st' V)).
  split; [apply R|]. split; [apply R|].
  intros Hd. rewrite R. unfold reconstructed. rewrite Hd. reflexivity.
Qed.

Lemma C1_witness :
  let host := fetch_hint Toy.tag_ext unit Toy.no_standard Toy.fetch_blob32 in
  fst (blob_get Toy.tag_ext unit host Toy.commitment32 Toy.empty_client) =
    reconstructed Toy.tag_ext Toy.blob32 Toy.info32 /\
  fst (blob_get Toy.tag_ext unit host Toy.commitment32
         (snd (blob_get Toy.tag_ext unit host Toy.commitment32 Toy.empty_client))) =
    reconstructed Toy.tag_ext Toy.blob32 Toy.info32 /\
  (EigenDABlobData_decode Toy.tag_ext
     (EigenDABlobData_encode Toy.tag_ext Toy.blob32 ++
      repeat x00 (data_length Toy.info32 * 32 -
                  length (EigenDABlobData_encode Toy.tag_ext Toy.blob32))) = Some Toy.blob32 ->
   fst (blob_get Toy.tag_ext unit host Toy.commitment32 Toy.empty_client) = Ok Toy.blob32).
Proof.
  apply (C1_ingest_then_reconstruct Toy.tag_ext unit Toy.no_standard Toy.fetch_blob32
           Toy.commitment32 Toy.blob32 Toy.info32 ([], []) Toy.empty_client).
  - intros a b H. exact H.
  - constructor.
    + apply Nat.ltb_lt. vm_compute. reflexivity.
    + reflexivity.
    + vm_compute. reflexivity.
    + vm_compute. reflexivity.
    + vm_compute. reflexivity.
    + vm_compute. reflexivity.
    + apply Nat.leb_le. vm_compute. reflexivity.
    + vm_compute. reflexivity.
    + reflexivity.
Defined.

(** C1 as stated fails: with a codec that does not decode its input back
    to itself, the reconstruction returns the fetched blob while the
    decode of the fetched bytes is something else. *)
Lemma C1_counterexample :
  let host := fetch_hint Toy.tag_ext unit Toy.no_standard Toy.fetch_blob32 in
  Toy.fetch_blob32 Toy.commitment32 = Ok Toy.blob32 /\
  fst (blob_get Toy.tag_ext unit host Toy.commitment32 Toy.empty_client) = Ok Toy.blob32 /\
  EigenDABlobData_decode Toy.tag_ext Toy.blob32 = Some (repeat x07 16) /\
  Toy.blob32 <> repeat x07 16.
Proof.
  split; [reflexivity|]. split; [vm_compute; reflexivity|].
  split; [vm_compute; reflexivity|]. vm_compute. intros H. discriminate H.
Qed.

(** C2 (as corrected). When the first 64 bytes of the encoded blob differ
    from the certificate's [x ++ y], the [EigenDABlob] handler fails with
    [CommitmentMismatch], and the store it leaves is the one after the
    field-element loop: every field element's payload entry of that
    commitment was written and survives (no proof or commitment entry is
    written). *)
Theorem C2_mismatch_keeps_field_elements (X : Ext) (HintType : Type)
    (single_chain_fetch_hint : HintType -> bytes -> M kv unit unit)
    (get_blob : bytes -> result Proxy.EigenDAProxyError bytes)
    (c blob : bytes) (info : BlobInfo) (key0 : bytes) (w : list bytes * list bytes) (s0 : kv) :
  (forall a b, keccak256 X a = keccak256 X b -> a = b) ->
  (32 < length c)%nat ->
  get_blob c = Ok blob ->
  BlobInfo_decode X (skipn 3 c) = Some info ->
  (Z.of_nat (data_length info) < 2 ^ 32)%Z ->
  (length (EigenDABlobData_encode X blob) <= data_length info * 32)%nat ->
  (64 <= length (EigenDABlobData_encode X blob))%nat ->
  blob_key_base info = Some key0 ->
  push_witness X blob = Some w ->
  firstn 64 (EigenDABlobData_encode X blob) <> commitment_x info ++ commitment_y info ->
  let s1 := snd (for_each (seq 0 (data_length info))
                   (write_field_element X key0 (EigenDABlobData_encode X blob)) s0) in
  fetch_hint X HintType single_chain_fetch_hint get_blob EigenDABlob c s0 =
    (Err CommitmentMismatch, s1) /\
  forall i, (i < data_length info)%nat ->
    kv_get (fe_payload_key X key0 i) s1 =
    Some (field_element_slice (EigenDABlobData_encode X blob) i).
Proof.
  intros Hk Hlen Hget Hdec Hu32 Hsize H64 Hkey Hwit Hne s1.
  pose proof (blob_key_base_length _ _ Hkey) as Hk96.
  split.
  - rewrite (fetch_hint_eigenda_run X HintType single_chain_fetch_hint get_blob
               c blob info key0 w s0 Hlen Hget Hdec Hsize Hkey Hwit).
    rewrite check_commitment_mismatch by assumption. reflexivity.
  - intros i Hi. apply write_loop_payload; auto.
    + intros j Hj. apply in_seq in Hj. lia.
    + apply in_seq. lia.
Qed.

Lemma C2_witness :
  let s1 := snd (for_each (seq 0 (data_length Toy.info32_bad))
                   (write_field_element Toy.tag_ext (repeat x03 64 ++ repeat x00 32)
                      (EigenDABlobData_encode Toy.tag_ext Toy.blob32)) []) in
  fetch_hint Toy.tag_ext unit Toy.no_standard Toy.fetch_blob32 EigenDABlob
    Toy.commitment32_bad [] = (Err CommitmentMismatch, s1) /\
  forall i, (i < data_length Toy.info32_bad)%nat ->
    kv_get (fe_payload_key Toy.tag_ext (repeat x03 64 ++ repeat x00 32) i) s1 =
    Some (field_element_slice (EigenDABlobData_encode Toy.tag_ext Toy.blob32) i).
Proof.
  apply (C2_mismatch_keeps_field_elements Toy.tag_ext unit Toy.no_standard Toy.fetch_blob32
           Toy.commitment32_bad Toy.blob32 Toy.info32_bad (repeat x03 64 ++ repeat x00 32)
           ([], []) []).
  - intros a b H. exact H.
  - apply Nat.ltb_lt. vm_compute. reflexivity.
  - reflexivity.
  - vm_compute. reflexivity.
  - vm_compute. reflexivity.
  - apply Nat.leb_le. vm_compute. reflexivity.
  - apply Nat.leb_le. vm_compute. reflexivity.
  - vm_compute. reflexivity.
  - reflexivity.
  - vm_compute. intros H. discriminate H.
Defined.

(** C2 as stated fails: after a commitment mismatch the payload entry of
    field element 0 of that commitment is in the store. *)
Lemma C2_counterexample :
  let r := fetch_hint Toy.tag_ext unit Toy.no_standard Toy.fetch_blob32 EigenDABlob
             Toy.commitment32_bad [] in
  fst r = Err CommitmentMismatch /\
  kv_get (fe_payload_key Toy.tag_ext (repeat x03 64 ++ repeat x00 32) 0) (snd r) =
    Some (firstn 32 (Toy.tag_encode Toy.blob32)).
Proof. split; vm_compute; reflexivity. Qed.

(** C3 (as corrected). For the example commitment ([data_length = 2],
    [x = 0x01..01], [y = 0x02..02]) with the proxy returning the example
    blob, under any codec, hash and witness builder for which the host
    accepts it, the handler makes exactly 8 writes: for each of the 2 field
    elements a payload and a self-describing entry, and for the proof and
    for the commitment a self-describing and a payload entry. The client
    then returns [decode(encode blob)], the original 64 bytes when the
    codec round-trips them. *)
Theorem C3_example_eight_writes (X : Ext) (HintType : Type)
    (single_chain_fetch_hint : HintType -> bytes -> M kv unit unit)
    (get_blob : bytes -> result Proxy.EigenDAProxyError bytes)
    (w : list bytes * list bytes) (s0 : kv) (st : St HintType) :
  (forall a b, keccak256 X a = keccak256 X b -> a = b) ->
  valid_commitment X get_blob Toy.example_commitment Toy.example_blob Toy.example_info w ->
  let key0 := repeat x01 32 ++ repeat x02 32 ++ repeat x00 32 in
  let host := fetch_hint X HintType single_chain_fetch_hint get_blob in
  blob_key_base Toy.example_info = Some key0 /\
  host EigenDABlob Toy.example_commitment s0 =
    (Ok tt,
     [({| pk_digest := keccak256 X (kzg_commitment_key key0); pk_type := GlobalGeneric |},
         concat (snd w));
      ({| pk_digest := keccak256 X (kzg_commitment_key key0); pk_type := Keccak256 |},
         kzg_commitment_key key0);
      ({| pk_digest := keccak256 X (kzg_proof_key key0); pk_type := GlobalGeneric |},
         concat (fst w));
      ({| pk_digest := keccak256 X (kzg_proof_key key0); pk_type := Keccak256 |},
         kzg_proof_key key0);
      (fe_payload_key X key0 1,
         field_element_slice (EigenDABlobData_encode X Toy.example_blob) 1);
      (fe_self_key X key0 1, blob_key_at key0 1);
      (fe_payload_key X key0 0,
         field_element_slice (EigenDABlobData_encode X Toy.example_blob) 0);
      (fe_self_key X key0 0, blob_key_at key0 0)] ++ s0) /\
  fst (blob_get X HintType host Toy.example_commitment st) =
    reconstructed X Toy.example_blob Toy.example_info /\
  (EigenDABlobData_decode X (EigenDABlobData_encode X Toy.example_blob) = Some Toy.example_blob ->
   fst (blob_get X HintType host Toy.example_commitment st) = Ok Toy.example_blob).
Proof.
  intros Hk V key0 host.
  assert (Hkey : blob_key_base Toy.example_info = Some key0) by (vm_compute; reflexivity).
  assert (Hlen : length (EigenDABlobData_encode X Toy.example_blob) = 64%nat).
  { pose proof (vc_size _ _ _ _ _ _ V) as Hs.
    assert (E : length (firstn 64 (EigenDABlobData_encode X Toy.example_blob)) = 64%nat)
      by (rewrite (vc_commitment _ _ _ _ _ _ V); reflexivity).
    rewrite length_firstn in E. cbn [data_length Toy.example_info] in Hs. lia. }
  assert (R : fst (blob_get X HintType host Toy.example_commitment st) =
              reconstructed X Toy.example_blob Toy.example_info)
    by exact (blob_get_after_host X HintType single_chain_fetch_hint get_blob
                Hk _ _ _ w st V).
  split; [exact Hkey|]. split; [|split; [exact R|]].
  - destruct (host_accepts X HintType single_chain_fetch_hint get_blob _ _ _ w s0 V)
      as [k [Hk' Hrun]].
    rewrite Hkey in Hk'. injection Hk' as Hk'. subst k.
    unfold host. rewrite Hrun. reflexivity.
  - intros Hd. rewrite R. unfold reconstructed. rewrite Hlen.
    cbn [data_length Toy.example_info]. rewrite Nat.sub_diag. cbn [repeat].
    rewrite app_nil_r, Hd. reflexivity.
Qed.

Lemma C3_witness :
  let key0 := repeat x01 32 ++ repeat x02 32 ++ repeat x00 32 in
  let w := ([repeat x0a 48], [repeat x0b 64]) in
  let host := fetch_hint Toy.xor_ext unit Toy.no_standard Toy.fetch_example in
  blob_key_base Toy.example_info = Some key0 /\
  host EigenDABlob Toy.example_commitment [] =
    (Ok tt,
     [({| pk_digest := keccak256 Toy.xor_ext (kzg_commitment_key key0);
          pk_type := GlobalGeneric |}, concat (snd w));
      ({| pk_digest := keccak256 Toy.xor_ext (kzg_commitment_key key0); pk_type := Keccak256 |},
         kzg_commitment_key key0);
      ({| pk_digest := keccak256 Toy.xor_ext (kzg_proof_key key0); pk_type := GlobalGeneric |},
         concat (fst w));
      ({| pk_digest := keccak256 Toy.xor_ext (kzg_proof_key key0); pk_type := Keccak256 |},
         kzg_proof_key key0);
      (fe_payload_key Toy.xor_ext key0 1,
         field_element_slice (EigenDABlobData_encode Toy.xor_ext Toy.example_blob) 1);
      (fe_self_key Toy.xor_ext key0 1, blob_key_at key0 1);
      (fe_payload_key Toy.xor_ext key0 0,
         field_element_slice (EigenDABlobData_encode Toy.xor_ext Toy.example_blob) 0);
      (fe_self_key Toy.xor_ext key0 0, blob_key_at key0 0)] ++ []) /\
  fst (blob_get Toy.xor_ext unit host Toy.example_commitment Toy.empty_client) =
    reconstructed Toy.xor_ext Toy.example_blob Toy.example_info /\
  (EigenDABlobData_decode Toy.xor_ext (EigenDABlobData_encode Toy.xor_ext Toy.example_blob) =
     Some Toy.example_blob ->
   fst (blob_get Toy.xor_ext unit host Toy.example_commitment Toy.empty_client) =
     Ok Toy.example_blob).
Proof.
  apply (C3_example_eight_writes Toy.xor_ext unit Toy.no_standard Toy.fetch_example
           ([repeat x0a 48], [repeat x0b 64]) [] Toy.empty_client).
  - intros a b H. exact H.
  - constructor.
    + apply Nat.ltb_lt. vm_compute. reflexivity.
    + reflexivity.
    + vm_compute. reflexivity.
    + vm_compute. reflexivity.
    + vm_compute. reflexivity.
    + vm_compute. reflexivity.
    + apply Nat.leb_le. vm_compute. reflexivity.
    + vm_compute. reflexivity.
    + reflexivity.
Defined.

(** C3 as stated fails: on the example the handler writes 8 entries, not 6. *)
Lemma C3_counterexample :
  let r := fetch_hint Toy.xor_ext unit Toy.no_standard Toy.fetch_example EigenDABlob
             Toy.example_commitment [] in
  fst r = Ok tt /\ length (snd r) = 8%nat.
Proof. split; vm_compute; reflexivity. Qed.

(** C4 (as corrected). [blob_get] emits the [EigenDABlob] hint before it
    checks the commitment's length: for a commitment of at most 35 bytes
    the hint is sent and handled by the host (its store changes are kept,
    whether the host's handler succeeds or fails), then [blob_get] fails
    with [InsufficientData]. *)
Theorem C4_hint_sent_before_length_check (X : Ext) (HintType : Type)
    (respond : HintWrapper HintType -> bytes -> M kv host_error unit)
    (c : bytes) (st : St HintType) :
  (length c <= 35)%nat ->
  blob_get X HintType respond c st =
    (Err InsufficientData,
     {| cs_kv := snd (respond EigenDABlob c (cs_kv st));
        cs_hints := cs_hints st ++ [(EigenDABlob, c)] |}).
Proof.
  intros Hc.
  assert (E : (length c <=? 32 + 3)%nat = true) by (apply Nat.leb_le; lia).
  unfold blob_get, ensure. rewrite E.
  unfold bind at 1, send_hint.
  destruct (respond EigenDABlob c (cs_kv st)) as [r kv']; reflexivity.
Qed.

(** At the empty commitment, with a host whose handler fails on every
    hint after writing one entry: the entry is kept and [blob_get] fails
    with [InsufficientData]. *)
Lemma C4_witness :
  blob_get Toy.tag_ext unit Toy.write_then_fail [] Toy.empty_client =
    (Err InsufficientData,
     {| cs_kv := snd (Toy.write_then_fail EigenDABlob [] (cs_kv Toy.empty_client));
        cs_hints := cs_hints Toy.empty_client ++ [(EigenDABlob, [])] |}).
Proof.
  apply (C4_hint_sent_before_length_check Toy.tag_ext unit Toy.write_then_fail [] Toy.empty_client).
  apply Nat.leb_le. reflexivity.
Defined.

(** C4 as stated fails: for the empty commitment an [EigenDABlob] hint is
    sent before [blob_get] fails with [InsufficientData]. *)
Lemma C4_counterexample :
  let r := blob_get Toy.tag_ext unit Toy.ack_all [] Toy.empty_client in
  fst r = Err InsufficientData /\ cs_hints (snd r) = [(EigenDABlob, [])].
Proof. split; reflexivity. Qed.

(** C8. Whenever the [EigenDABlob] handler reaches its field-element loop
    (whatever happens afterwards), the payload entry of every field
    element [i < data_length] is in the store, has exactly 32 bytes, holds
    the bytes [32 i .. 32 i + 31] of the encoded blob with every byte past
    the blob's end zero, and is all zeros when the slot starts at or past
    the end. *)
Theorem C8_field_elements_zero_padded (X : Ext) (HintType : Type)
    (single_chain_fetch_hint : HintType -> bytes -> M kv unit unit)
    (get_blob : bytes -> result Proxy.EigenDAProxyError bytes)
    (c blob : bytes) (info : BlobInfo) (key0 : bytes) (w : list bytes * list bytes) (s0 : kv)
    (i : nat) :
  (forall a b, keccak256 X a = keccak256 X b -> a = b) ->
  (32 < length c)%nat ->
  get_blob c = Ok blob ->
  BlobInfo_decode X (skipn 3 c) = Some info ->
  (Z.of_nat (data_length info) < 2 ^ 32)%Z ->
  (length (EigenDABlobData_encode X blob) <= data_length info * 32)%nat ->
  blob_key_base info = Some key0 ->
  push_witness X blob = Some w ->
  (i < data_length info)%nat ->
  exists v,
    kv_get (fe_payload_key X key0 i)
      (snd (fetch_hint X HintType single_chain_fetch_hint get_blob EigenDABlob c s0)) = Some v /\
    length v = 32%nat /\
    (forall j, (j < 32)%nat -> nth j v x00 = nth (i * 32 + j) (EigenDABlobData_encode X blob) x00) /\
    ((length (EigenDABlobData_encode X blob) <= i * 32)%nat -> v = repeat x00 32).
Proof.
  intros Hk Hlen Hget Hdec Hu32 Hsize Hkey Hwit Hi.
  pose proof (blob_key_base_length _ _ Hkey) as Hk96.
  assert (Hs1 : kv_get (fe_payload_key X key0 i)
                  (snd (for_each (seq 0 (data_length info))
                          (write_field_element X key0 (EigenDABlobData_encode X blob)) s0)) =
                Some (field_element_slice (EigenDABlobData_encode X blob) i)).
  { apply write_loop_payload; auto.
    - intros j Hj. apply in_seq in Hj. lia.
    - apply in_seq. lia. }
  exists (field_element_slice (EigenDABlobData_encode X blob) i).
  destruct (field_element_slice_spec (EigenDABlobData_encode X blob) i) as [A B].
  split; [|split; [exact A|split; [exact B|]]].
  - rewrite (fetch_hint_eigenda_run X HintType single_chain_fetch_hint get_blob
               c blob info key0 w s0 Hlen Hget Hdec Hsize Hkey Hwit).
    pose proof (check_commitment_state (EigenDABlobData_encode X blob) info
                  (snd (for_each (seq 0 (data_length info))
                          (write_field_element X key0 (EigenDABlobData_encode X blob)) s0)))
      as Hst.
    destruct (check_commitment _ _ _) as [[u|e] s2]; cbn [snd] in Hst |- *; subst s2.
    + rewrite kv_get_skip_kzg by auto. exact Hs1.
    + exact Hs1.
  - intros Hle. unfold field_element_slice.
    replace (length (EigenDABlobData_encode X blob) <=? i * 32)%nat with true
      by (symmetry; apply Nat.leb_le; lia).
    reflexivity.
Qed.

Lemma C8_witness :
  exists v,
    kv_get (fe_payload_key Toy.tag_ext (repeat x03 64 ++ repeat x00 32) 2)
      (snd (fetch_hint Toy.tag_ext unit Toy.no_standard Toy.fetch_blob32 EigenDABlob
              Toy.commitment_padded [])) = Some v /\
    length v = 32%nat /\
    (forall j, (j < 32)%nat ->
       nth j v x00 = nth (2 * 32 + j) (EigenDABlobData_encode Toy.tag_ext Toy.blob32) x00) /\
    ((length (EigenDABlobData_encode Toy.tag_ext Toy.blob32) <= 2 * 32)%nat ->
     v = repeat x00 32).
Proof.
  apply (C8_field_elements_zero_padded Toy.tag_ext unit Toy.no_standard Toy.fetch_blob32
           Toy.commitment_padded Toy.blob32 Toy.info_padded (repeat x03 64 ++ repeat x00 32)
           ([], []) [] 2).
  - intros a b H. exact H.
  - apply Nat.ltb_lt. vm_compute. reflexivity.
  - reflexivity.
  - vm_compute. reflexivity.
  - vm_compute. reflexivity.
  - apply Nat.leb_le. vm_compute. reflexivity.
  - vm_compute. reflexivity.
  - reflexivity.
  - apply Nat.ltb_lt. reflexivity.
Defined.

End ClaimsIngest.

(** ** The proxy client *)

Module ClaimsProxy.
Import Proxy.

(** C5 (as corrected). [retrieve_blob_with_commitment] issues exactly one
    GET of [proxy_url/get/0x<hex commitment>] (no retry) and maps: a 200
    response with its body read to the body; a 200 response whose body
    read fails to [RetrieveBlobWithCommitment]; 404 to [NotFound]; any
    other status to [NetworkError]; the tokio timeout elapsing to
    [NetworkError]; a failed send (connection error or reqwest's own
    timeout) to [RetrieveBlobWithCommitment], not [NetworkError]. *)
Theorem C5_response_mapping (http_get : String.string -> http_outcome)
    (proxy_url : String.string) (commitment : bytes) (log : list String.string) :
  snd (retrieve_blob_with_commitment http_get proxy_url commitment log) =
    log ++ [request_url proxy_url commitment] /\
  (forall b, http_get (request_url proxy_url commitment) = Response 200 (Some b) ->
     fst (retrieve_blob_with_commitment http_get proxy_url commitment log) = Ok b) /\
  (http_get (request_url proxy_url commitment) = Response 200 None ->
     fst (retrieve_blob_with_commitment http_get proxy_url commitment log) =
     Err RetrieveBlobWithCommitment) /\
  (forall body, http_get (request_url proxy_url commitment) = Response 404 body ->
     fst (retrieve_blob_with_commitment http_get proxy_url commitment log) = Err NotFound) /\
  (forall status body, status <> 200%Z -> status <> 404%Z ->
     http_get (request_url proxy_url commitment) = Response status body ->
     fst (retrieve_blob_with_commitment http_get proxy_url commitment log) = Err NetworkError) /\
  (http_get (request_url proxy_url commitment) = Elapsed ->
     fst (retrieve_blob_with_commitment http_get proxy_url commitment log) = Err NetworkError) /\
  (http_get (request_url proxy_url commitment) = SendError ->
     fst (retrieve_blob_with_commitment http_get proxy_url commitment log) =
     Err RetrieveBlobWithCommitment).
Proof.
  unfold retrieve_blob_with_commitment. cbv zeta.
  split.
  { destruct (http_get _) as [| |st [b|]];
      try destruct (st =? 200)%Z; try destruct (st =? 404)%Z; reflexivity. }
  split; [intros b H; rewrite H; reflexivity|].
  split; [intros H; rewrite H; reflexivity|].
  split; [intros body H; rewrite H; reflexivity|].
  split; [intros st body H1 H2 H; rewrite H; apply Z.eqb_neq in H1, H2;
          rewrite H1, H2; reflexivity|].
  split; intros H; rewrite H; reflexivity.
Qed.

(** C5 as stated fails: a connection error yields
    [RetrieveBlobWithCommitment], not [NetworkError]. *)
Lemma C5_counterexample :
  fst (retrieve_blob_with_commitment (fun _ => SendError) String.EmptyString [x01] []) =
    Err RetrieveBlobWithCommitment /\
  fst (retrieve_blob_with_commitment (fun _ => SendError) String.EmptyString [x01] []) <>
    Err NetworkError.
Proof. split; [reflexivity|]. cbn. intros H. discriminate H. Qed.

End ClaimsProxy.

(** ** Hint tags *)

Module ClaimsHint.
Import Hint.
Import String.
Local Open Scope string_scope.

(** C6. [from_str] tries the base parser first; when it fails, exactly the
    literal ["eigen-da-blob"] parses as [EigenDABlob] and every other tag
    fails with [UnknownHint]. When the base hints print back the tag they
    were parsed from, [fmt (from_str tag) = tag] for every accepted tag
    (the normalisation is the identity: both functions match and print
    exact strings). *)
Theorem C6_parse_order_and_round_trip (HintType : Type)
    (base_from_str : string -> option HintType) (base_fmt : HintType -> string) :
  (forall s h, base_from_str s = Some h -> base_fmt h = s) ->
  (forall s h, base_from_str s = Some h -> from_str HintType base_from_str s = Ok (Standard h)) /\
  (forall s, base_from_str s = None ->
     (from_str HintType base_from_str s = Ok EigenDABlob <-> s = "eigen-da-blob")) /\
  (forall s, base_from_str s = None -> s <> "eigen-da-blob" ->
     from_str HintType base_from_str s = Err UnknownHint) /\
  (forall s h, from_str HintType base_from_str s = Ok h -> fmt HintType base_fmt h = s).
Proof.
  intros Hrt. unfold from_str.
  split; [intros s h H; rewrite H; reflexivity|].
  split.
  { intros s H. rewrite H. split.
    - destruct (String.eqb s "eigen-da-blob") eqn:E; [|discriminate].
      intros _. apply String.eqb_eq. exact E.
    - intros ->. reflexivity. }
  split.
  { intros s H Hne. rewrite H. destruct (String.eqb s "eigen-da-blob") eqn:E; [|reflexivity].
    apply String.eqb_eq in E. contradiction. }
  intros s h. destruct (base_from_str s) as [g|] eqn:E.
  - intros H. injection H as <-. apply Hrt. exact E.
  - destruct (String.eqb s "eigen-da-blob") eqn:E2; intros H; [|discriminate].
    injection H as <-. apply String.eqb_eq in E2. symmetry. exact E2.
Qed.

Lemma C6_witness :
  (forall s h, Toy.Tags.base_from_str s = Some h ->
     from_str unit Toy.Tags.base_from_str s = Ok (Standard h)) /\
  (forall s, Toy.Tags.base_from_str s = None ->
     (from_str unit Toy.Tags.base_from_str s = Ok EigenDABlob <-> s = "eigen-da-blob")) /\
  (forall s, Toy.Tags.base_from_str s = None -> s <> "eigen-da-blob" ->
     from_str unit Toy.Tags.base_from_str s = Err UnknownHint) /\
  (forall s h, from_str unit Toy.Tags.base_from_str s = Ok h ->
     fmt unit Toy.Tags.base_fmt h = s).
Proof.
  apply (C6_parse_order_and_round_trip unit Toy.Tags.base_from_str Toy.Tags.base_fmt).
  intros s h H. unfold Toy.Tags.base_from_str in H.
  destruct (String.eqb s "l1-block-header") eqn:E; [|discriminate].
  apply String.eqb_eq in E. subst s. reflexivity.
Defined.

End ClaimsHint.

(** ** The derivation source *)

Module ClaimsDerive.
Import HostFacts Derive Views DeriveFacts.

Section Source.
Variable BlockInfo Blob BlobData : Type.
Variable CalldataFrame_decode : bytes -> option (option CalldataValue).
Variable rlp_decode_list : bytes -> option (list bytes).
Variable eigen_da_blob_get : bytes -> result unit bytes.
Variable block_transactions : BlockInfo -> result unit (list TxEnvelope).
Variable get_blobs : BlockInfo -> list IndexedBlobHash -> result unit (list Blob).
Variable BlobData_fill : list Blob -> nat -> result unit (BlobData * bool).
Variable BlobData_decode : BlobData -> option bytes.

Local Abbreviation scan_tx :=
  (Derive.scan_tx CalldataFrame_decode rlp_decode_list eigen_da_blob_get).
Local Abbreviation scan_txs :=
  (Derive.scan_txs CalldataFrame_decode rlp_decode_list eigen_da_blob_get).
Local Abbreviation data_from_eigen_da :=
  (Derive.data_from_eigen_da CalldataFrame_decode rlp_decode_list eigen_da_blob_get).
Local Abbreviation tx_frames :=
  (Views.tx_frames CalldataFrame_decode rlp_decode_list eigen_da_blob_get).
Local Abbreviation plain_blob_frames :=
  (Derive.plain_blob_frames BlockInfo Blob BlobData rlp_decode_list get_blobs
     BlobData_fill BlobData_decode).
Local Abbreviation next_n :=
  (Derive.next_n BlockInfo Blob BlobData CalldataFrame_decode rlp_decode_list
     eigen_da_blob_get block_transactions get_blobs BlobData_fill BlobData_decode).

(** C7. Loading a block into a closed source whose transactions, scan and
    plain-blob decoding succeed queues the frames of the transactions in
    scan order (each transaction's inline or DA-referenced frames), then
    the frames decoded from the plain blobs; successive [next] calls
    return exactly these frames and then [Eof]; [clear] makes the source
    closed and empty, and the same calls on it return the same sequence. *)
Theorem C7_frame_order_eof_and_reload (self : EigenDASource) (block_ref : BlockInfo)
    (batcher_address : Address) (txs : list TxEnvelope) (q : list bytes)
    (hs : list IndexedBlobHash) (extra : list bytes) :
  src_open self = false ->
  block_transactions block_ref = Ok txs ->
  data_from_eigen_da (src_batcher_address self) batcher_address txs = Ok (q, hs) ->
  plain_blob_frames block_ref hs = Ok extra ->
  q = concat (map (tx_frames (src_batcher_address self) batcher_address) txs) /\
  next_n (S (length (q ++ extra))) block_ref batcher_address self =
    (map Ok (q ++ extra) ++ [Err Eof],
     {| src_batcher_address := src_batcher_address self; src_data := []; src_open := true |}) /\
  clear (snd (next_n (S (length (q ++ extra))) block_ref batcher_address self)) =
    {| src_batcher_address := src_batcher_address self; src_data := []; src_open := false |} /\
  fst (next_n (S (length (q ++ extra))) block_ref batcher_address
         (clear (snd (next_n (S (length (q ++ extra))) block_ref batcher_address self)))) =
    map Ok (q ++ extra) ++ [Err Eof].
Proof.
  intros Hopen Htx Hdata Hplain.
  assert (Hrun : forall s', src_open s' = false ->
            src_batcher_address s' = src_batcher_address self ->
            next_n (S (length (q ++ extra))) block_ref batcher_address s' =
            (map Ok (q ++ extra) ++ [Err Eof],
             {| src_batcher_address := src_batcher_address self; src_data := [];
                src_open := true |})).
  { intros s' H1 H2.
    transitivity (next_n (S (length (q ++ extra))) block_ref batcher_address
                    {| src_batcher_address := src_batcher_address self;
                       src_data := q ++ extra; src_open := true |}).
    - eapply next_n_load; [|reflexivity]. rewrite <- H2.
      eapply load_blobs_closed; eauto. rewrite H2. exact Hdata.
    - apply next_n_open. }
  split; [eapply data_from_eigen_da_frames; exact Hdata|].
  split; [apply Hrun; auto|].
  rewrite (Hrun self Hopen eq_refl). split; [reflexivity|].
  rewrite Hrun by reflexivity. reflexivity.
Qed.

(** C9. A blob-carrying transaction sent to another address than the
    configured batcher address, or signed by another signer than the
    expected one, leaves the queued frames and the recorded blob hashes
    unchanged and advances the running blob-hash index by its number of
    versioned hashes; the scan of the rest continues from that index. *)
Theorem C9_mismatched_blob_tx_advances_index (self_batcher batcher_address to : Address)
    (hashes : list bytes) (c : TxCommon) (rest : list TxEnvelope) (s : ScanState) :
  (to <> self_batcher \/ recover_signer_or_default (Eip4844 to hashes c) <> batcher_address)%Z ->
  scan_tx self_batcher batcher_address (Eip4844 to hashes c) s =
    (Ok tt, {| sc_data := sc_data s; sc_hashes := sc_hashes s;
               sc_index := (sc_index s + N.of_nat (length hashes))%N |}) /\
  scan_txs self_batcher batcher_address (Eip4844 to hashes c :: rest) s =
    scan_txs self_batcher batcher_address rest
      {| sc_data := sc_data s; sc_hashes := sc_hashes s;
         sc_index := (sc_index s + N.of_nat (length hashes))%N |}.
Proof.
  intros H.
  assert (E : scan_tx self_batcher batcher_address (Eip4844 to hashes c) s =
              (Ok tt, {| sc_data := sc_data s; sc_hashes := sc_hashes s;
                         sc_index := (sc_index s + N.of_nat (length hashes))%N |})).
  { unfold Derive.scan_tx. cbn [tx_parts].
    destruct (Z.eqb_spec to self_batcher) as [Heq|Hne]; [|reflexivity].
    destruct H as [H|H]; [contradiction|]. cbn [negb].
    destruct (Z.eqb_spec (recover_signer_or_default (Eip4844 to hashes c)) batcher_address)
      as [Hs|Hs]; [contradiction|]. reflexivity. }
  split; [exact E|]. unfold Derive.scan_txs. rewrite for_each_cons, E. reflexivity.
Qed.

(** C10. For a batcher transaction whose calldata is [0xed ++ p], [p]
    decoding to a [FrameRef] with quorums, and [blob_get] returning fewer
    than [blob_length] bytes, the unguarded slice [blob_data[..blob_length]]
    is out of bounds: the scan step fails with the slice panic, and so does
    [data_from_eigen_da] on any transaction list starting with it. *)
Theorem C10_frame_ref_short_blob_panics (self_batcher batcher_address : Address)
    (tx : TxEnvelope) (p : bytes) (bh : option (list bytes)) (fr : FrameRef) (blob : bytes)
    (txs : list TxEnvelope) (s : ScanState) :
  tx_parts tx = Some (Some self_batcher, DERIVATION_VERSION_EIGEN_DA :: p, bh) ->
  recover_signer_or_default tx = batcher_address ->
  CalldataFrame_decode p = Some (Some (FrameRefV fr)) ->
  fr_quorum_ids fr <> [] ->
  eigen_da_blob_get (fr_commitment fr) = Ok blob ->
  (length blob < fr_blob_length fr)%nat ->
  scan_tx self_batcher batcher_address tx s = (Err SlicePanic, s) /\
  data_from_eigen_da self_batcher batcher_address (tx :: txs) = Err SlicePanic.
Proof.
  intros Hp Hs Hd Hq Hg Hl.
  assert (E : forall s0, scan_tx self_batcher batcher_address tx s0 = (Err SlicePanic, s0)).
  { intros s0. unfold Derive.scan_tx. rewrite Hp, Z.eqb_refl, Hs, Z.eqb_refl.
    cbn [negb Byte.eqb DERIVATION_VERSION_EIGEN_DA].
    unfold bind at 1, of_option at 1. rewrite Hd. cbn [ret].
    destruct (fr_quorum_ids fr) as [|q qs]; [contradiction|].
    unfold bind at 1, of_result. rewrite Hg. cbn [ret].
    unfold bind at 1, of_option, slice.
    replace ((0 <=? fr_blob_length fr)%nat && (fr_blob_length fr <=? length blob)%nat)
      with false by (symmetry; apply andb_false_intro2, Nat.leb_gt; lia).
    reflexivity. }
  split; [apply E|].
  unfold Derive.data_from_eigen_da, Derive.scan_txs. rewrite for_each_cons, E. reflexivity.
Qed.
End Source.

Lemma C7_witness :
  let q := [[x41; x42]; [x61]; [x62]] in
  let extra := [[x51]; [x52]; [x71]] in
  let next_n := Derive.next_n unit bytes bytes Toy.calldata_decode Toy.rlp_bytes Toy.echo_da
                  Toy.block_txs Toy.blobs_of Toy.fill Toy.blob_payload in
  q = concat (map (Views.tx_frames Toy.calldata_decode Toy.rlp_bytes Toy.echo_da
                     (src_batcher_address Toy.closed_source) Toy.batcher) Toy.example_txs) /\
  next_n (S (length (q ++ extra))) tt Toy.batcher Toy.closed_source =
    (map Ok (q ++ extra) ++ [Err Eof],
     {| src_batcher_address := src_batcher_address Toy.closed_source; src_data := [];
        src_open := true |}) /\
  clear (snd (next_n (S (length (q ++ extra))) tt Toy.batcher Toy.closed_source)) =
    {| src_batcher_address := src_batcher_address Toy.closed_source; src_data := [];
       src_open := false |} /\
  fst (next_n (S (length (q ++ extra))) tt Toy.batcher
         (clear (snd (next_n (S (length (q ++ extra))) tt Toy.batcher Toy.closed_source)))) =
    map Ok (q ++ extra) ++ [Err Eof].
Proof.
  apply (C7_frame_order_eof_and_reload unit bytes bytes Toy.calldata_decode Toy.rlp_bytes
           Toy.echo_da Toy.block_txs Toy.blobs_of Toy.fill Toy.blob_payload
           Toy.closed_source tt Toy.batcher Toy.example_txs
           [[x41; x42]; [x61]; [x62]]
           [{| ibh_hash := [x51; x52]; ibh_index := 0 |}; {| ibh_hash := [x71]; ibh_index := 2 |}]
           [[x51]; [x52]; [x71]]).
  - reflexivity.
  - reflexivity.
  - vm_compute. reflexivity.
  - vm_compute. reflexivity.
Defined.

Lemma C9_witness :
  scan_tx Toy.calldata_decode Toy.rlp_bytes Toy.echo_da Toy.inbox Toy.batcher
      (Eip4844 Toy.inbox [[x99]] {| tx_input := []; tx_signer := Some 8%Z |}) empty_scan =
    (Ok tt, {| sc_data := sc_data empty_scan; sc_hashes := sc_hashes empty_scan;
               sc_index := (sc_index empty_scan + N.of_nat (length [[x99]]))%N |}) /\
  scan_txs Toy.calldata_decode Toy.rlp_bytes Toy.echo_da Toy.inbox Toy.batcher
      [Eip4844 Toy.inbox [[x99]] {| tx_input := []; tx_signer := Some 8%Z |}] empty_scan =
    scan_txs Toy.calldata_decode Toy.rlp_bytes Toy.echo_da Toy.inbox Toy.batcher []
      {| sc_data := sc_data empty_scan; sc_hashes := sc_hashes empty_scan;
         sc_index := (sc_index empty_scan + N.of_nat (length [[x99]]))%N |}.
Proof.
  apply (C9_mismatched_blob_tx_advances_index Toy.calldata_decode Toy.rlp_bytes Toy.echo_da
           Toy.inbox Toy.batcher Toy.inbox [[x99]] {| tx_input := []; tx_signer := Some 8%Z |}
           [] empty_scan).
  right. vm_compute. intros H. discriminate H.
Defined.

Lemma C10_witness :
  let tx := Eip1559 (Some Toy.inbox) {| tx_input := [xed; x01; x05; x61];
                                        tx_signer := Some Toy.batcher |} in
  scan_tx Toy.calldata_decode Toy.rlp_bytes Toy.echo_da Toy.inbox Toy.batcher tx empty_scan =
    (Err SlicePanic, empty_scan) /\
  data_from_eigen_da Toy.calldata_decode Toy.rlp_bytes Toy.echo_da Toy.inbox Toy.batcher [tx] =
    Err SlicePanic.
Proof.
  apply (C10_frame_ref_short_blob_panics Toy.calldata_decode Toy.rlp_bytes Toy.echo_da
           Toy.inbox Toy.batcher
           (Eip1559 (Some Toy.inbox) {| tx_input := [xed; x01; x05; x61];
                                        tx_signer := Some Toy.batcher |})
           [x01; x05; x61] None
           {| fr_commitment := [x61]; fr_blob_length := 5; fr_quorum_ids := [0%N] |}
           [x61] [] empty_scan).
  - reflexivity.
  - reflexivity.
  - reflexivity.
  - intros H. discriminate H.
  - reflexivity.
  - apply Nat.ltb_lt. reflexivity.
Defined.

End ClaimsDerive.

(* ================================================================== *)
(** * Further properties of the code *)

(** ** The host handler: early exits, late failures and written entries *)

Module ExtrasHost.
Import KeyFacts Host HostFacts Views.

Lemma write_loop_log (X : Ext) (key0 eb : bytes) (is : list nat) (s0 : kv) :
  snd (for_each is (write_field_element X key0 eb) s0) = loop_entries X key0 eb is ++ s0.
Proof.
  revert s0; induction is as [|i is IH]; intros s0; [reflexivity|].
  rewrite for_each_cons, write_field_element_run, IH. unfold loop_entries.
  cbn [rev]. rewrite map_app, concat_app. cbn [map concat]. rewrite app_nil_r, <- app_assoc.
  reflexivity.
Qed.

Lemma preimage_entry_mono (X : Ext) (l l' : kv) (e : PreimageKey * bytes) :
  incl l l' -> preimage_entry X l e -> preimage_entry X l' e.
Proof.
  intros Hi [H|[H1 [v Hv]]]; [left; exact H|right; split; [exact H1|exists v; apply Hi, Hv]].
Qed.

Lemma loop_entries_preimage_log (X : Ext) (key0 eb : bytes) (is : list nat) :
  preimage_log X (loop_entries X key0 eb is).
Proof.
  unfold preimage_log. apply Forall_forall. intros e He.
  pose proof He as He'. unfold loop_entries in He'.
  apply in_concat in He' as (l & Hl & Hel). apply in_map_iff in Hl as (i & <- & Hi).
  destruct Hel as [<-|[<-|[]]].
  - right. split; [reflexivity|]. exists (blob_key_at key0 i).
    unfold loop_entries. apply in_concat. eexists. split; [apply in_map_iff; eauto|].
    right. left. reflexivity.
  - left. split; reflexivity.
Qed.

Lemma kzg_loop_preimage_log (X : Ext) (key0 eb : bytes) (w : list bytes * list bytes)
    (is : list nat) :
  preimage_log X (kzg_entries X key0 w ++ loop_entries X key0 eb is).
Proof.
  unfold preimage_log. apply Forall_app. split.
  - apply Forall_forall. intros e He. unfold kzg_entries in He.
    destruct He as [<-|[<-|[<-|[<-|[]]]]];
      solve [ left; split; reflexivity
            | right; split; [reflexivity|]; eexists;
              apply in_or_app; left; unfold kzg_entries; cbn [In]; eauto ].
  - eapply Forall_impl; [|apply loop_entries_preimage_log].
    intros e. apply preimage_entry_mono. intros x Hx. apply in_or_app. right. exact Hx.
Qed.

Lemma blob_key_base_none (info : BlobInfo) :
  (length (commitment_x info) <> 32 \/ length (commitment_y info) <> 32)%nat ->
  blob_key_base info = None.
Proof.
  intros H. unfold blob_key_base, copy_from_slice.
  rewrite repeat_length. cbn [Nat.leb andb Nat.sub].
  destruct (Nat.eqb_spec 32 (length (commitment_x info))) as [Hx|Hx]; [|reflexivity].
  cbn [andb]. rewrite copy_into_length by (rewrite repeat_length; lia). rewrite repeat_length.
  cbn [Nat.leb andb Nat.sub].
  destruct (Nat.eqb_spec 32 (length (commitment_y info))) as [Hy|Hy]; [|reflexivity].
  lia.
Qed.

Section Handler.
Variable X : Ext.
Variable HintType : Type.
Variable single_chain_fetch_hint : HintType -> bytes -> M kv unit unit.
Variable get_blob : bytes -> result Proxy.EigenDAProxyError bytes.

Local Abbreviation host := (fetch_hint X HintType single_chain_fetch_hint get_blob).

(** An early exit of the handler: an error, the store unchanged. *)
Local Ltac early Hrun :=
  left; injection Hrun as <- <-; split; [intros H; discriminate H|reflexivity].

(** Every run of the [EigenDABlob] arm: it stops before the loop with the
    store unchanged, or it runs the loop and then fails without further
    writes, or it succeeds after the four proof/commitment writes. *)
Lemma fetch_hint_eigenda_outcome (data : bytes) (s0 : kv) :
  (fst (host EigenDABlob data s0) <> Ok tt /\ snd (host EigenDABlob data s0) = s0) \/
  exists blob info key0,
    get_blob data = Ok blob /\ BlobInfo_decode X (skipn 3 data) = Some info /\
    blob_key_base info = Some key0 /\
    ((fst (host EigenDABlob data s0) <> Ok tt /\
      snd (host EigenDABlob data s0) =
        loop_entries X key0 (EigenDABlobData_encode X blob) (seq 0 (data_length info)) ++ s0) \/
     exists w, push_witness X blob = Some w /\
       host EigenDABlob data s0 =
       (Ok tt, kzg_entries X key0 w ++
               loop_entries X key0 (EigenDABlobData_encode X blob) (seq 0 (data_length info))
               ++ s0)).
Proof.
  destruct (host EigenDABlob data s0) as [r s] eqn:Hrun. cbn [fst snd].
  unfold fetch_hint, ensure, of_result, of_option in Hrun.
  destruct (32 <? length data)%nat; cbn [bind ret fail] in Hrun; [|early Hrun].
  destruct (get_blob data) as [blob|e] eqn:Hget; cbn [bind ret fail] in Hrun; [|early Hrun].
  destruct (BlobInfo_decode X (skipn 3 data)) as [info|] eqn:Hdec;
    cbn [bind ret fail] in Hrun; [|early Hrun].
  destruct (_ <=? _)%nat; cbn [bind ret fail] in Hrun; [|early Hrun].
  destruct (blob_key_base info) as [key0|] eqn:Hkey; cbn [bind ret fail] in Hrun;
    [|early Hrun].
  right. exists blob, info, key0. split; [auto|]. split; [auto|]. split; [auto|].
  unfold bind at 1 in Hrun. rewrite (proj1 (write_loop_run X key0 _ _ s0)) in Hrun.
  rewrite write_loop_log in Hrun.
  set (s1 := loop_entries X key0 _ _ ++ s0) in Hrun |- *.
  destruct (push_witness X blob) as [w|] eqn:Hw; cbn [bind ret fail] in Hrun;
    [|left; injection Hrun as <- <-; split; [intros H; discriminate H|reflexivity]].
  pose proof (check_commitment_state (EigenDABlobData_encode X blob) info s1) as Hs.
  unfold bind at 1 in Hrun.
  destruct (check_commitment _ _ s1) as [[u|e] s2] eqn:Hc; cbn [snd] in Hs; subst s2.
  - right. exists w. split; [reflexivity|]. rewrite <- Hrun. reflexivity.
  - left. injection Hrun as <- <-. split; [intros H; discriminate H|reflexivity].
Qed.

(** Before the field-element loop, a hint of at most 32 bytes, a failed
    fetch, an undecodable certificate, an encoded blob larger than
    [data_length * 32] bytes and a commitment coordinate that is not 32
    bytes long each make the handler fail with the store unchanged. *)
Theorem X_early_failures_keep_store (data : bytes) (s0 : kv) :
  ((length data <= 32)%nat -> host EigenDABlob data s0 = (Err InvalidHintData, s0)) /\
  (forall e, (32 < length data)%nat -> get_blob data = Err e ->
     host EigenDABlob data s0 = (Err (FetchFailed e), s0)) /\
  (forall blob, (32 < length data)%nat -> get_blob data = Ok blob ->
     BlobInfo_decode X (skipn 3 data) = None ->
     host EigenDABlob data s0 = (Err CertDecodeFailed, s0)) /\
  (forall blob info, (32 < length data)%nat -> get_blob data = Ok blob ->
     BlobInfo_decode X (skipn 3 data) = Some info ->
     (data_length info * 32 < length (EigenDABlobData_encode X blob))%nat ->
     host EigenDABlob data s0 = (Err Panic, s0)) /\
  (forall blob info, (32 < length data)%nat -> get_blob data = Ok blob ->
     BlobInfo_decode X (skipn 3 data) = Some info ->
     (length (commitment_x info) <> 32 \/ length (commitment_y info) <> 32)%nat ->
     host EigenDABlob data s0 = (Err Panic, s0)).
Proof.
  unfold fetch_hint, ensure, of_result, of_option.
  split; [intros H; apply Nat.ltb_ge in H; rewrite H; reflexivity|].
  split; [intros e H1 H2; apply Nat.ltb_lt in H1; rewrite H1, H2; reflexivity|].
  split; [intros blob H1 H2 H3; apply Nat.ltb_lt in H1; rewrite H1, H2; cbn [bind ret];
          rewrite H3; reflexivity|].
  split.
  - intros blob info H1 H2 H3 H4. apply Nat.ltb_lt in H1. rewrite H1, H2. cbn [bind ret].
    rewrite H3. cbn [bind ret]. unfold BYTES_PER_FIELD_ELEMENT.
    apply Nat.leb_gt in H4. rewrite H4. reflexivity.
  - intros blob info H1 H2 H3 H4. apply Nat.ltb_lt in H1. rewrite H1, H2. cbn [bind ret].
    rewrite H3. cbn [bind ret].
    destruct (_ <=? _)%nat; [|reflexivity]. cbn [bind ret].
    rewrite (blob_key_base_none info H4). reflexivity.
Qed.

(** After the field-element loop, a failed witness build and an encoded
    blob too short for the commitment slice [[..32]] make the handler
    fail with exactly the loop's [2 * data_length] entries added. *)
Theorem X_late_failures_keep_field_elements (data blob : bytes) (info : BlobInfo)
    (key0 : bytes) (s0 : kv) :
  (32 < length data)%nat -> get_blob data = Ok blob ->
  BlobInfo_decode X (skipn 3 data) = Some info ->
  (length (EigenDABlobData_encode X blob) <= data_length info * 32)%nat ->
  blob_key_base info = Some key0 ->
  (push_witness X blob = None ->
   host EigenDABlob data s0 =
   (Err PushWitnessFailed,
    loop_entries X key0 (EigenDABlobData_encode X blob) (seq 0 (data_length info)) ++ s0)) /\
  (forall w, push_witness X blob = Some w -> (length (EigenDABlobData_encode X blob) < 32)%nat ->
   host EigenDABlob data s0 =
   (Err Panic,
    loop_entries X key0 (EigenDABlobData_encode X blob) (seq 0 (data_length info)) ++ s0)).
Proof.
  intros H1 H2 H3 H4 H5.
  assert (Pre : forall k, host EigenDABlob data s0 =
            bind (for_each (seq 0 (data_length info))
                    (write_field_element X key0 (EigenDABlobData_encode X blob)))
              (fun _ => k) s0 ->
            host EigenDABlob data s0 =
            k (loop_entries X key0 (EigenDABlobData_encode X blob) (seq 0 (data_length info))
               ++ s0)).
  { intros k E. rewrite E. unfold bind at 1. rewrite (proj1 (write_loop_run X key0 _ _ s0)).
    rewrite write_loop_log. reflexivity. }
  unfold fetch_hint, ensure, of_result, of_option in Pre |- *.
  apply Nat.ltb_lt in H1. apply Nat.leb_le in H4. unfold BYTES_PER_FIELD_ELEMENT in Pre |- *.
  rewrite H1, H2 in Pre |- *. cbn [bind ret] in Pre |- *. rewrite H3 in Pre |- *.
  cbn [bind ret] in Pre |- *. rewrite H4 in Pre |- *. cbn [bind ret] in Pre |- *.
  rewrite H5 in Pre |- *. cbn [bind ret] in Pre |- *.
  rewrite (Pre _ eq_refl). split.
  - intros Hw. rewrite Hw. reflexivity.
  - intros w Hw Hs. rewrite Hw. cbn [bind ret].
    unfold bind at 1, check_commitment, slice.
    replace ((0 <=? 32)%nat && (32 <=? length (EigenDABlobData_encode X blob))%nat)
      with false by (symmetry; apply andb_false_intro2, Nat.leb_gt; lia).
    reflexivity.
Qed.

(** Whatever its outcome, a run of the [EigenDABlob] arm only prepends
    entries to the store, and the prepended entries are well formed for
    the preimage oracle: each [Keccak256] entry's digest is the keccak256
    of its value, and each [GlobalGeneric] entry comes with the
    [Keccak256] entry of its digest. *)
Theorem X_written_entries_are_preimages (data : bytes) (s0 : kv) :
  exists new, snd (host EigenDABlob data s0) = new ++ s0 /\ preimage_log X new.
Proof.
  destruct (fetch_hint_eigenda_outcome data s0)
    as [E|(blob & info & key0 & _ & _ & _ & [[_ E]|(w & _ & E)])].
  - exists []. destruct E as [_ E]. rewrite E. split; [reflexivity|constructor].
  - eexists. split; [exact E|apply loop_entries_preimage_log].
  - eexists. rewrite E. split; [cbn [snd]; rewrite app_assoc; reflexivity|].
    apply kzg_loop_preimage_log.
Qed.

(** A successful [EigenDABlob] hint adds exactly [2 * data_length + 4]
    entries to the store: two per field element and the four
    proof/commitment entries. *)
Theorem X_success_write_count (data : bytes) (s0 : kv) :
  fst (host EigenDABlob data s0) = Ok tt ->
  exists info, BlobInfo_decode X (skipn 3 data) = Some info /\
  length (snd (host EigenDABlob data s0)) = (2 * data_length info + 4 + length s0)%nat.
Proof.
  intros Hok.
  destruct (fetch_hint_eigenda_outcome data s0)
    as [E|(blob & info & key0 & _ & Hdec & _ & [[Hne _]|(w & _ & E)])].
  - destruct E as [E _]. contradiction.
  - contradiction.
  - exists info. split; [exact Hdec|]. rewrite E. cbn [snd].
    rewrite !length_app. unfold loop_entries.
    assert (L : forall is, length (concat (map (fun i => [(fe_payload_key X key0 i,
               field_element_slice (EigenDABlobData_encode X blob) i);
               (fe_self_key X key0 i, blob_key_at key0 i)]) is)) = (2 * length is)%nat).
    { induction is as [|i is IH]; [reflexivity|]. cbn [map concat]. rewrite length_app, IH.
      cbn [length]. lia. }
    rewrite L, length_rev, length_seq. cbn [length kzg_entries]. lia.
Qed.
End Handler.

(** A witness that cannot be built (under [nowit_ext]), and a 4-byte
    encoded blob that is too short for the commitment slice. *)
Lemma X_late_failures_witness :
  fetch_hint Toy.nowit_ext unit Toy.no_standard Toy.fetch_blob32 EigenDABlob Toy.commitment32 [] =
    (Err PushWitnessFailed,
     loop_entries Toy.nowit_ext
       (match blob_key_base Toy.info32 with Some k => k | None => [] end)
       (EigenDABlobData_encode Toy.nowit_ext Toy.blob32) (seq 0 (data_length Toy.info32)) ++ []) /\
  fetch_hint Toy.tag_ext unit Toy.no_standard Toy.fetch_short EigenDABlob Toy.commitment_one [] =
    (Err Panic,
     loop_entries Toy.tag_ext
       (match blob_key_base Toy.info_one with Some k => k | None => [] end)
       (EigenDABlobData_encode Toy.tag_ext Toy.short_blob) (seq 0 (data_length Toy.info_one)) ++ []).
Proof.
  split.
  - apply (proj1 (X_late_failures_keep_field_elements Toy.nowit_ext unit Toy.no_standard
                    Toy.fetch_blob32 Toy.commitment32 Toy.blob32 Toy.info32
                    (match blob_key_base Toy.info32 with Some k => k | None => [] end) []
                    ltac:(apply Nat.ltb_lt; vm_compute; reflexivity) eq_refl
                    ltac:(vm_compute; reflexivity)
                    ltac:(apply Nat.leb_le; vm_compute; reflexivity)
                    ltac:(vm_compute; reflexivity))).
    reflexivity.
  - apply (proj2 (X_late_failures_keep_field_elements Toy.tag_ext unit Toy.no_standard
                    Toy.fetch_short Toy.commitment_one Toy.short_blob Toy.info_one
                    (match blob_key_base Toy.info_one with Some k => k | None => [] end) []
                    ltac:(apply Nat.ltb_lt; vm_compute; reflexivity) eq_refl
                    ltac:(vm_compute; reflexivity)
                    ltac:(apply Nat.leb_le; vm_compute; reflexivity)
                    ltac:(vm_compute; reflexivity)) ([], [])).
    + reflexivity.
    + apply Nat.ltb_lt. vm_compute. reflexivity.
Defined.

Lemma X_success_write_count_witness :
  exists info, BlobInfo_decode Toy.tag_ext (skipn 3 Toy.commitment32) = Some info /\
  length (snd (fetch_hint Toy.tag_ext unit Toy.no_standard Toy.fetch_blob32 EigenDABlob
                 Toy.commitment32 [])) = (2 * data_length info + 4 + length (@nil (PreimageKey * bytes)))%nat.
Proof.
  apply (X_success_write_count Toy.tag_ext unit Toy.no_standard Toy.fetch_blob32
           Toy.commitment32 []).
  vm_compute. reflexivity.
Defined.

End ExtrasHost.

(** ** The client's [blob_get]: effects, errors and what it reads *)

Module ExtrasClient.
Import KeyFacts Host HostFacts Client ClientFacts Views ExtrasHost.

Section Client.
Variable X : Ext.
Variable HintType : Type.

(** The read loop leaves the client state as it is. *)
Lemma read_field_elements_state (key0 : bytes) (is : list nat) (blob : bytes)
    (st : St HintType) :
  snd (read_field_elements X HintType key0 is blob st) = st.
Proof.
  revert blob; induction is as [|i is IH]; intros blob; [reflexivity|].
  cbn [read_field_elements]. unfold bind at 1, get_exact.
  destruct (kv_get _ (cs_kv st)) as [v|]; [|reflexivity].
  destruct (length v =? 32)%nat eqn:E; [|reflexivity].
  unfold bind, ensure. apply Nat.eqb_eq in E. rewrite E. cbn [Nat.eqb negb ret].
  apply IH.
Qed.

Lemma read_field_elements_error (key0 : bytes) (is : list nat) (blob : bytes)
    (st : St HintType) (e : client_error) :
  fst (read_field_elements X HintType key0 is blob st) = Err e -> e = PreimageFailed.
Proof.
  revert blob; induction is as [|i is IH]; intros blob; [intros H; cbn in H; discriminate H|].
  cbn [read_field_elements]. unfold bind at 1, get_exact.
  destruct (kv_get _ (cs_kv st)) as [v|]; [|intros H; injection H as <-; reflexivity].
  destruct (length v =? 32)%nat eqn:E; [|intros H; injection H as <-; reflexivity].
  unfold bind, ensure. apply Nat.eqb_eq in E. rewrite E. cbn [Nat.eqb negb ret].
  apply IH.
Qed.

Lemma read_field_elements_bad (key0 : bytes) (is : list nat) (blob : bytes)
    (st : St HintType) (i : nat) :
  In i is ->
  (forall v, kv_get (fe_payload_key X key0 i) (cs_kv st) = Some v -> length v <> 32%nat) ->
  fst (read_field_elements X HintType key0 is blob st) = Err PreimageFailed.
Proof.
  intros Hin Hbad.
  destruct (fst (read_field_elements X HintType key0 is blob st)) as [r|e] eqn:E.
  - exfalso. revert blob E. induction is as [|j is IH]; intros blob E; [destruct Hin|].
    cbn [read_field_elements] in E. unfold bind at 1, get_exact in E. revert E.
    destruct (kv_get {| pk_digest := keccak256 X (blob_key_at key0 j); pk_type := GlobalGeneric |}
                (cs_kv st)) as [v|] eqn:Hg; [|intros E; cbn in E; discriminate E].
    destruct (length v =? 32)%nat eqn:L; intros E; [|cbn in E; discriminate E].
    apply Nat.eqb_eq in L. unfold bind, ensure in E. rewrite L in E. cbn [Nat.eqb negb ret] in E.
    destruct Hin as [<-|Hin].
    + exact (Hbad v Hg L).
    + exact (IH Hin _ E).
  - apply read_field_elements_error in E. now subst.
Qed.

Section Responder.
Variable respond : HintWrapper HintType -> bytes -> M kv host_error unit.

Local Abbreviation blob_get := (Client.blob_get X HintType respond).
Local Abbreviation St := (St HintType).

(** The state after the hint: the host's store, the hint recorded. *)
Local Abbreviation after_hint c st :=
  ({| cs_kv := snd (respond EigenDABlob c (cs_kv st));
      cs_hints := cs_hints st ++ [(EigenDABlob, c)] |} : St).

Lemma blob_get_after_hint (c : bytes) (st : St) :
  blob_get c st =
  (ensure (negb (length c <=? 32 + 3)%nat) InsufficientData ;;;
   cert_blob_info <- of_option (BlobInfo_decode X (skipn 3 c)) UnwrapPanic ;;
   let blob := repeat x00 (data_length cert_blob_info * BYTES_PER_FIELD_ELEMENT) in
   key0 <- of_option (blob_key_base cert_blob_info) SlicePanic ;;
   blob' <- read_field_elements X HintType key0 (seq 0 (data_length cert_blob_info)) blob ;;
   of_option (EigenDABlobData_decode X blob') DecodeError) (after_hint c st).
Proof.
  unfold Client.blob_get, bind at 1, send_hint.
  destruct (respond EigenDABlob c (cs_kv st)) as [r kv']; reflexivity.
Qed.

(** [blob_get] never writes the store: its only effect is the one
    [EigenDABlob] hint it sends (and what the host does on it), whatever
    its result. *)
Theorem X_blob_get_only_effect_is_hint (c : bytes) (st : St) :
  snd (blob_get c st) = after_hint c st.
Proof.
  unfold Client.blob_get, bind at 1, send_hint.
  destruct (respond EigenDABlob c (cs_kv st)) as [r kv'].
  set (st1 := {| cs_kv := kv'; cs_hints := _ |}). cbn [fst snd].
  unfold ensure. destruct (negb _); [|reflexivity]. cbn [bind ret].
  unfold of_option at 1. destruct (BlobInfo_decode X _) as [info|]; [|reflexivity].
  cbn [bind ret].
  unfold of_option at 1. destruct (blob_key_base info) as [key0|]; [|reflexivity].
  cbn [bind ret]. unfold bind at 1.
  pose proof (read_field_elements_state key0 (seq 0 (data_length info))
                (repeat x00 (data_length info * BYTES_PER_FIELD_ELEMENT)) st1) as Hs.
  destruct (read_field_elements _ _ _ _ _ st1) as [[b|e] s] eqn:E; cbn [snd] in Hs; subst s;
    [|reflexivity].
  unfold of_option. destruct (EigenDABlobData_decode X b); reflexivity.
Qed.

(** The client's [field_element.is_empty()] check never fires: the
    buffer is a [[u8; 32]], so [blob_get] never fails with
    [EmptyFieldElement]. *)
Theorem X_empty_field_element_unreachable (c : bytes) (st : St) :
  fst (blob_get c st) <> Err EmptyFieldElement.
Proof.
  unfold Client.blob_get, bind at 1, send_hint.
  destruct (respond EigenDABlob c (cs_kv st)) as [r kv'].
  set (st1 := {| cs_kv := kv'; cs_hints := _ |}). cbn [fst snd].
  unfold ensure. destruct (negb _); [|intros H; discriminate H]. cbn [bind ret].
  unfold of_option at 1. destruct (BlobInfo_decode X _) as [info|]; [|intros H; discriminate H].
  cbn [bind ret].
  unfold of_option at 1. destruct (blob_key_base info) as [key0|]; [|intros H; discriminate H].
  cbn [bind ret]. unfold bind at 1.
  destruct (read_field_elements _ _ _ _ _ st1) as [[b|e] s] eqn:E.
  - unfold of_option. destruct (EigenDABlobData_decode X b); intros H; discriminate H.
  - intros H. injection H as ->.
    pose proof (read_field_elements_error key0 (seq 0 (data_length info))
                  (repeat x00 (data_length info * BYTES_PER_FIELD_ELEMENT)) st1 EmptyFieldElement) as R.
    rewrite E in R. specialize (R eq_refl). discriminate R.
Qed.

(** After the hint (whatever the host's handler did) and the header
    check, the certificate is decoded with [unwrap]: an undecodable
    certificate gives [UnwrapPanic], and a commitment coordinate that is
    not 32 bytes long the [copy_from_slice] panic [SlicePanic]. *)
Theorem X_client_certificate_panics (c : bytes) (st : St) :
  (35 < length c)%nat ->
  (BlobInfo_decode X (skipn 3 c) = None -> fst (blob_get c st) = Err UnwrapPanic) /\
  (forall info, BlobInfo_decode X (skipn 3 c) = Some info ->
     (length (commitment_x info) <> 32 \/ length (commitment_y info) <> 32)%nat ->
     fst (blob_get c st) = Err SlicePanic).
Proof.
  intros Hc. rewrite (blob_get_after_hint c st).
  unfold ensure. replace (negb (length c <=? 32 + 3)%nat) with true
    by (symmetry; apply negb_true_iff, Nat.leb_gt; lia).
  cbn [bind ret]. unfold of_option at 1.
  split; [intros H; rewrite H; reflexivity|].
  intros info H Hxy. rewrite H. unfold of_option at 1. cbn [bind ret].
  rewrite (blob_key_base_none info Hxy). reflexivity.
Qed.

(** Once past the certificate, [blob_get] fails with [PreimageFailed] as
    soon as one of the [data_length] field elements is missing from the
    store or is not 32 bytes long. *)
Theorem X_missing_field_element_fails (c : bytes) (st : St) (info : BlobInfo)
    (key0 : bytes) (i : nat) :
  (35 < length c)%nat ->
  BlobInfo_decode X (skipn 3 c) = Some info -> blob_key_base info = Some key0 ->
  (i < data_length info)%nat ->
  (forall v, kv_get (fe_payload_key X key0 i) (snd (respond EigenDABlob c (cs_kv st))) = Some v ->
     length v <> 32%nat) ->
  fst (blob_get c st) = Err PreimageFailed.
Proof.
  intros Hc Hd Hk Hi Hbad. rewrite (blob_get_after_hint c st).
  unfold ensure. replace (negb (length c <=? 32 + 3)%nat) with true
    by (symmetry; apply negb_true_iff, Nat.leb_gt; lia).
  cbn [bind ret]. unfold of_option at 1. rewrite Hd. cbn [bind ret].
  unfold of_option at 1. rewrite Hk. cbn [bind ret]. unfold bind at 1.
  pose proof (read_field_elements_bad key0 (seq 0 (data_length info))
                (repeat x00 (data_length info * BYTES_PER_FIELD_ELEMENT)) (after_hint c st) i
                ltac:(apply in_seq; lia) Hbad) as R.
  destruct (read_field_elements _ _ _ _ _ _) as [r s]. cbn [fst] in R. subst r. reflexivity.
Qed.

(** Once past the certificate, with every field element [i <
    data_length] stored as 32 bytes [vals i], [blob_get] returns the
    decode of their concatenation, whoever wrote them. *)
Theorem X_client_decodes_stored_elements (c : bytes) (st : St) (info : BlobInfo)
    (key0 : bytes) (vals : nat -> bytes) :
  (35 < length c)%nat ->
  BlobInfo_decode X (skipn 3 c) = Some info -> blob_key_base info = Some key0 ->
  (forall i, (i < data_length info)%nat ->
     kv_get (fe_payload_key X key0 i) (snd (respond EigenDABlob c (cs_kv st))) = Some (vals i) /\
     length (vals i) = 32%nat) ->
  fst (blob_get c st) =
  match EigenDABlobData_decode X (concat (map vals (seq 0 (data_length info)))) with
  | Some r => Ok r
  | None => Err DecodeError
  end.
Proof.
  intros Hc Hd Hk Hv. rewrite (blob_get_after_hint c st).
  unfold ensure. replace (negb (length c <=? 32 + 3)%nat) with true
    by (symmetry; apply negb_true_iff, Nat.leb_gt; lia).
  cbn [bind ret]. unfold of_option at 1. rewrite Hd. cbn [bind ret].
  unfold of_option at 1. rewrite Hk. cbn [bind ret]. unfold bind at 1.
  change (repeat x00 (data_length info * BYTES_PER_FIELD_ELEMENT))
    with ([] ++ repeat x00 (data_length info * 32)).
  rewrite (read_field_elements_run X HintType key0 vals respond (after_hint c st)
             (data_length info) 0 []); [| |reflexivity].
  - rewrite app_nil_l. unfold of_option.
    destruct (EigenDABlobData_decode X _); reflexivity.
  - intros i Hi. apply Hv. lia.
Qed.
End Responder.
End Client.

(** An undecodable certificate under the strict certificate layout, and a
    certificate whose [y] is 8 bytes long. *)
Lemma X_client_certificate_panics_witness :
  fst (blob_get Toy.strict_ext unit Toy.ack_all Toy.commitment_undecodable Toy.empty_client) =
    Err UnwrapPanic /\
  fst (blob_get Toy.tag_ext unit Toy.ack_all Toy.commitment_short_y Toy.empty_client) =
    Err SlicePanic.
Proof.
  split.
  - apply (proj1 (X_client_certificate_panics Toy.strict_ext unit Toy.ack_all
                    Toy.commitment_undecodable Toy.empty_client
                    ltac:(apply Nat.ltb_lt; vm_compute; reflexivity))).
    vm_compute. reflexivity.
  - apply (proj2 (X_client_certificate_panics Toy.tag_ext unit Toy.ack_all
                    Toy.commitment_short_y Toy.empty_client
                    ltac:(apply Nat.ltb_lt; vm_compute; reflexivity)) Toy.info_short_y).
    + vm_compute. reflexivity.
    + right. vm_compute. intros H; discriminate H.
Defined.

Lemma X_missing_field_element_witness :
  fst (blob_get Toy.tag_ext unit Toy.ack_all Toy.commitment32 Toy.empty_client) =
  Err PreimageFailed.
Proof.
  apply (X_missing_field_element_fails Toy.tag_ext unit Toy.ack_all Toy.commitment32
           Toy.empty_client Toy.info32
           (match blob_key_base Toy.info32 with Some k => k | None => [] end) 0).
  - apply Nat.ltb_lt. vm_compute. reflexivity.
  - vm_compute. reflexivity.
  - vm_compute. reflexivity.
  - apply Nat.ltb_lt. vm_compute. reflexivity.
  - intros v H. cbn in H. discriminate H.
Defined.

Lemma X_client_decodes_stored_elements_witness :
  fst (blob_get Toy.tag_ext unit
         (fetch_hint Toy.tag_ext unit Toy.no_standard Toy.fetch_blob32)
         Toy.commitment32 Toy.empty_client) =
  match EigenDABlobData_decode Toy.tag_ext
          (concat (map (field_element_slice (Toy.tag_encode Toy.blob32))
                     (seq 0 (data_length Toy.info32)))) with
  | Some r => Ok r
  | None => Err DecodeError
  end.
Proof.
  apply (X_client_decodes_stored_elements Toy.tag_ext unit
           (fetch_hint Toy.tag_ext unit Toy.no_standard Toy.fetch_blob32)
           Toy.commitment32 Toy.empty_client Toy.info32
           (match blob_key_base Toy.info32 with Some k => k | None => [] end)
           (field_element_slice (Toy.tag_encode Toy.blob32))).
  - apply Nat.ltb_lt. vm_compute. reflexivity.
  - vm_compute. reflexivity.
  - vm_compute. reflexivity.
  - intros i Hi. destruct i as [|[|i]].
    + split; vm_compute; reflexivity.
    + split; vm_compute; reflexivity.
    + cbn in Hi. lia.
Defined.

End ExtrasClient.

(** ** The derivation source: blob-hash indices, skipped transactions, loading *)

Module ExtrasDerive.
Import HostFacts Derive Views DeriveFacts.

Lemma preserves_bind {S E A B} (P : S -> Prop) (m : M S E A) (k : A -> M S E B) :
  preserves P m -> (forall a, preserves P (k a)) -> preserves P (bind m k).
Proof.
  intros Hm Hk s Hs. unfold bind. specialize (Hm s Hs).
  destruct (m s) as [[a|e] s']; cbn [snd] in *; [apply Hk|]; exact Hm.
Qed.

Lemma preserves_ret {S E A} (P : S -> Prop) (a : A) : preserves (E:=E) P (ret a).
Proof. intros s Hs. exact Hs. Qed.

Lemma preserves_fail {S E A} (P : S -> Prop) (e : E) : preserves (A:=A) P (fail e).
Proof. intros s Hs. exact Hs. Qed.

Lemma preserves_of_option {S E A} (P : S -> Prop) (o : option A) (e : E) :
  preserves P (of_option o e).
Proof. destruct o; [apply preserves_ret|apply preserves_fail]. Qed.

Lemma preserves_of_result {S E E' A} (P : S -> Prop) (r : result E' A) (f : E' -> E) :
  preserves P (of_result (S:=S) r f).
Proof. destruct r; [apply preserves_ret|apply preserves_fail]. Qed.

Lemma preserves_for_each {S E A} (P : S -> Prop) (xs : list A) (body : A -> M S E unit) :
  (forall x, preserves P (body x)) -> preserves P (for_each xs body).
Proof.
  intros Hb. induction xs as [|x xs IH]; [apply preserves_ret|].
  apply preserves_bind; [apply Hb|intros _; exact IH].
Qed.

Lemma push_hashes_run (bs : list bytes) (s : ScanState) :
  for_each bs push_hash s =
  (Ok tt, {| sc_data := sc_data s; sc_hashes := sc_hashes s ++ indexed_from bs (sc_index s);
             sc_index := (sc_index s + N.of_nat (length bs))%N |}).
Proof.
  revert s; induction bs as [|b bs IH]; intros s.
  - cbn [for_each ret indexed_from length N.of_nat]. rewrite app_nil_r, N.add_0_r.
    destruct s; reflexivity.
  - rewrite for_each_cons. unfold push_hash at 1. rewrite IH.
    cbn [sc_data sc_hashes sc_index indexed_from length]. rewrite <- app_assoc. cbn [app].
    replace (N.succ (sc_index s) + N.of_nat (length bs))%N
      with (sc_index s + N.of_nat (S (length bs)))%N by (rewrite Nat2N.inj_succ; lia).
    reflexivity.
Qed.

Lemma StronglySorted_snoc (l : list N) (x : N) :
  StronglySorted N.lt l -> Forall (fun y => (y < x)%N) l -> StronglySorted N.lt (l ++ [x]).
Proof.
  induction l as [|a l IH]; intros Hs Hf.
  - apply SSorted_cons; [apply SSorted_nil|constructor].
  - apply StronglySorted_inv in Hs as [Hs Ha]. inversion Hf as [|? ? Hax Hf']; subst.
    cbn [app]. apply SSorted_cons; [apply IH; assumption|].
    apply Forall_app. split; [exact Ha|]. constructor; [exact Hax|constructor].
Qed.

Lemma indices_ok_advance (n : N) : preserves indices_ok (advance_index n).
Proof.
  intros s [Hs Hf]. split; [exact Hs|]. unfold advance_index. cbn [snd sc_hashes sc_index].
  eapply Forall_impl; [|exact Hf]. intros h H. cbn beta in H |- *. lia.
Qed.

Lemma indices_ok_push_hash (b : bytes) : preserves indices_ok (push_hash b).
Proof.
  intros s [Hs Hf]. unfold push_hash. split; cbn [snd sc_hashes sc_index].
  - rewrite map_app. cbn [map ibh_index]. apply StronglySorted_snoc; [exact Hs|].
    apply Forall_map. exact Hf.
  - apply Forall_app. split.
    + eapply Forall_impl; [|exact Hf]. intros h H. cbn beta in H |- *. lia.
    + constructor; [cbn [ibh_index]; lia|constructor].
Qed.

Lemma indices_ok_push_data (f : bytes) : preserves indices_ok (push_data f).
Proof. intros s Hs. exact Hs. Qed.

Lemma indices_ok_empty : indices_ok empty_scan.
Proof. split; constructor. Qed.

Lemma tx_parts_hashes (tx : TxEnvelope) (k : option Address) (cd : bytes)
    (bh : option (list bytes)) :
  tx_parts tx = Some (k, cd, bh) ->
  hashes_len bh = N.of_nat (length (tx_blob_hashes tx)) /\
  (is_eip4844 tx = true -> bh = Some (tx_blob_hashes tx)).
Proof.
  destruct tx; cbn [tx_parts]; intros H; try discriminate H;
    injection H as <- <- <-; split; cbn; solve [reflexivity | discriminate].
Qed.

Lemma positioned_weaken (B l : list bytes) (hs : list IndexedBlobHash) :
  Forall (fun h => nth_error B (N.to_nat (ibh_index h)) = Some (ibh_hash h)) hs ->
  Forall (fun h => nth_error (B ++ l) (N.to_nat (ibh_index h)) = Some (ibh_hash h)) hs.
Proof.
  apply Forall_impl. intros h H. rewrite nth_error_app1; [exact H|].
  apply nth_error_Some. rewrite H. discriminate.
Qed.

Lemma indexed_from_positions (B l : list bytes) :
  Forall (fun h => nth_error (B ++ l) (N.to_nat (ibh_index h)) = Some (ibh_hash h))
         (indexed_from l (N.of_nat (length B))).
Proof.
  revert B; induction l as [|x l IH]; intros B; [constructor|].
  cbn [indexed_from]. constructor.
  - cbn [ibh_index ibh_hash]. rewrite Nat2N.id, nth_error_app2, Nat.sub_diag by lia.
    reflexivity.
  - replace (N.succ (N.of_nat (length B))) with (N.of_nat (length (B ++ [x])))
      by (rewrite length_app; cbn [length]; lia).
    replace (B ++ x :: l) with ((B ++ [x]) ++ l) by (rewrite <- app_assoc; reflexivity).
    apply IH.
Qed.

Lemma block_blob_hashes_snoc (pre : list TxEnvelope) (tx : TxEnvelope) :
  block_blob_hashes (pre ++ [tx]) = block_blob_hashes pre ++ tx_blob_hashes tx.
Proof.
  unfold block_blob_hashes. rewrite map_app, concat_app. cbn [map concat].
  rewrite app_nil_r. reflexivity.
Qed.

Section Scan.
Variable CalldataFrame_decode : bytes -> option (option CalldataValue).
Variable rlp_decode_list : bytes -> option (list bytes).
Variable eigen_da_blob_get : bytes -> result unit bytes.
Variable self_batcher batcher_address : Address.

Local Abbreviation scan_tx :=
  (Derive.scan_tx CalldataFrame_decode rlp_decode_list eigen_da_blob_get
                  self_batcher batcher_address).
Local Abbreviation scan_txs :=
  (Derive.scan_txs CalldataFrame_decode rlp_decode_list eigen_da_blob_get
                   self_batcher batcher_address).
Local Abbreviation data_from_eigen_da :=
  (Derive.data_from_eigen_da CalldataFrame_decode rlp_decode_list eigen_da_blob_get
                             self_batcher batcher_address).

Lemma scan_tx_preserves (P : ScanState -> Prop) (tx : TxEnvelope) :
  (forall n, preserves P (advance_index n)) -> (forall b, preserves P (push_hash b)) ->
  (forall f, preserves P (push_data f)) -> preserves P (scan_tx tx).
Proof.
  intros Ha Hh Hd. unfold Derive.scan_tx.
  destruct (tx_parts tx) as [[[kind calldata] blob_hashes]|]; [|apply preserves_ret].
  destruct kind as [to|]; [|apply preserves_ret].
  destruct (negb _); [apply Ha|].
  destruct (negb _); [apply Ha|].
  destruct calldata as [|c0 blob_data].
  - destruct (is_eip4844 tx); [destruct blob_hashes|];
      solve [apply preserves_ret | apply preserves_for_each; exact Hh].
  - destruct (Byte.eqb c0 _); [|apply preserves_ret].
    apply preserves_bind; [apply preserves_of_option|].
    intros [[frame|frame_ref]|]; [apply Hd| |apply preserves_ret].
    destruct (fr_quorum_ids frame_ref); [apply preserves_ret|].
    apply preserves_bind; [apply preserves_of_result|intros bd].
    apply preserves_bind; [apply preserves_of_option|intros bs].
    apply preserves_bind; [apply preserves_of_option|intros ds].
    apply preserves_for_each; exact Hd.
Qed.

Lemma scan_tx_matched_calldata (tx : TxEnvelope) (c0 : byte) (p : bytes)
    (bh : option (list bytes)) (s : ScanState) :
  tx_parts tx = Some (Some self_batcher, c0 :: p, bh) ->
  recover_signer_or_default tx = batcher_address ->
  sc_hashes (snd (scan_tx tx s)) = sc_hashes s /\ sc_index (snd (scan_tx tx s)) = sc_index s.
Proof.
  intros Hp Hs.
  set (P := fun s' : ScanState => sc_hashes s' = sc_hashes s /\ sc_index s' = sc_index s).
  assert (HP : preserves P (scan_tx tx)).
  { unfold Derive.scan_tx. rewrite Hp, Z.eqb_refl, Hs, Z.eqb_refl. cbn [negb].
    destruct (Byte.eqb c0 _); [|apply preserves_ret].
    apply preserves_bind; [apply preserves_of_option|].
    assert (Hd : forall f, preserves P (push_data f)) by (intros f s1 H1; exact H1).
    intros [[frame|frame_ref]|]; [apply Hd| |apply preserves_ret].
    destruct (fr_quorum_ids frame_ref); [apply preserves_ret|].
    apply preserves_bind; [apply preserves_of_result|intros bd].
    apply preserves_bind; [apply preserves_of_option|intros bs].
    apply preserves_bind; [apply preserves_of_option|intros ds].
    apply preserves_for_each; exact Hd. }
  exact (HP s (conj eq_refl eq_refl)).
Qed.

Lemma scan_tx_index_step (tx : TxEnvelope) (s : ScanState) :
  counts_blob_hashes self_batcher batcher_address tx ->
  sc_index (snd (scan_tx tx s)) = (sc_index s + N.of_nat (length (tx_blob_hashes tx)))%N /\
  (sc_hashes (snd (scan_tx tx s)) = sc_hashes s \/
   sc_hashes (snd (scan_tx tx s)) = sc_hashes s ++ indexed_from (tx_blob_hashes tx) (sc_index s)).
Proof.
  intros Hc.
  destruct (tx_parts tx) as [[[kind calldata] bh]|] eqn:Hp.
  2:{ assert (E : scan_tx tx s = (Ok tt, s))
        by (unfold Derive.scan_tx; rewrite Hp; reflexivity).
      destruct tx; try discriminate Hp. rewrite E. cbn [snd tx_blob_hashes length N.of_nat].
      split; [lia|left; reflexivity]. }
  destruct (tx_parts_hashes tx kind calldata bh Hp) as [Hlen H4844].
  destruct kind as [to|].
  2:{ assert (E : scan_tx tx s = (Ok tt, s))
        by (unfold Derive.scan_tx; rewrite Hp; reflexivity).
      destruct tx; try discriminate Hp; rewrite E; cbn [snd tx_blob_hashes length N.of_nat];
        (split; [lia|left; reflexivity]). }
  destruct ((to =? self_batcher)%Z) eqn:Hto.
  2:{ assert (E : scan_tx tx s = advance_index (hashes_len bh) s)
        by (unfold Derive.scan_tx; rewrite Hp, Hto; reflexivity).
      rewrite E, Hlen. split; [reflexivity|left; reflexivity]. }
  apply Z.eqb_eq in Hto. subst to.
  destruct ((recover_signer_or_default tx =? batcher_address)%Z) eqn:Hsig.
  2:{ assert (E : scan_tx tx s = advance_index (hashes_len bh) s)
        by (unfold Derive.scan_tx; rewrite Hp, Z.eqb_refl, Hsig; reflexivity).
      rewrite E, Hlen. split; [reflexivity|left; reflexivity]. }
  apply Z.eqb_eq in Hsig.
  destruct calldata as [|c0 p].
  - destruct (is_eip4844 tx) eqn:H4.
    + specialize (H4844 eq_refl). subst bh.
      assert (E : scan_tx tx s = for_each (tx_blob_hashes tx) push_hash s)
        by (unfold Derive.scan_tx; rewrite Hp, Z.eqb_refl, Hsig, Z.eqb_refl, H4; reflexivity).
      rewrite E, push_hashes_run. cbn [snd sc_index sc_hashes].
      split; [reflexivity|right; reflexivity].
    + assert (E : scan_tx tx s = (Ok tt, s))
        by (unfold Derive.scan_tx; rewrite Hp, Z.eqb_refl, Hsig, Z.eqb_refl, H4; reflexivity).
      replace (tx_blob_hashes tx) with (@nil bytes) by (destruct tx; try discriminate H4; reflexivity).
      rewrite E. cbn [snd length N.of_nat]. split; [lia|left; reflexivity].
  - destruct (scan_tx_matched_calldata tx c0 p bh s Hp Hsig) as [H1 H2].
    replace (tx_blob_hashes tx) with (@nil bytes).
    + rewrite H1, H2. cbn [length N.of_nat]. split; [lia|left; reflexivity].
    + destruct tx; cbn [tx_blob_hashes]; try reflexivity.
      cbn [tx_parts] in Hp. injection Hp as -> Hi _.
      destruct (Hc eq_refl Hsig) as [He|He]; [rewrite He in Hi; discriminate Hi|exact (eq_sym He)].
Qed.

Lemma scan_tx_positioned (pre : list TxEnvelope) (tx : TxEnvelope) (s : ScanState) :
  counts_blob_hashes self_batcher batcher_address tx -> positioned pre s ->
  positioned (pre ++ [tx]) (snd (scan_tx tx s)).
Proof.
  intros Hc [Hi Hf]. destruct (scan_tx_index_step tx s Hc) as [E1 E2].
  unfold positioned. rewrite block_blob_hashes_snoc. split.
  - rewrite E1, Hi, length_app. lia.
  - destruct E2 as [E2|E2]; rewrite E2; [apply positioned_weaken; exact Hf|].
    apply Forall_app. split; [apply positioned_weaken; exact Hf|].
    rewrite Hi. apply indexed_from_positions.
Qed.

Lemma scan_txs_positioned (txs pre : list TxEnvelope) (s s' : ScanState) (u : unit) :
  Forall (counts_blob_hashes self_batcher batcher_address) txs -> positioned pre s ->
  scan_txs txs s = (Ok u, s') -> positioned (pre ++ txs) s'.
Proof.
  unfold Derive.scan_txs. revert pre s; induction txs as [|tx txs IH]; intros pre s Hc Hp H.
  - injection H as _ <-. rewrite app_nil_r. exact Hp.
  - inversion Hc as [|? ? Hc1 Hc2]; subst. rewrite for_each_cons in H.
    pose proof (scan_tx_positioned pre tx s Hc1 Hp) as Hs.
    destruct (scan_tx tx s) as [[v|e] s1]; [|discriminate H].
    replace (pre ++ tx :: txs) with ((pre ++ [tx]) ++ txs) by (rewrite <- app_assoc; reflexivity).
    exact (IH (pre ++ [tx]) s1 Hc2 Hs H).
Qed.

Lemma scan_txs_ok_prefix (pre rest : list TxEnvelope) (s : ScanState) :
  Forall (fun t => fst (scan_tx t empty_scan) = Ok tt) pre ->
  exists s', scan_txs (pre ++ rest) s = scan_txs rest s'.
Proof.
  unfold Derive.scan_txs. revert s; induction pre as [|t pre IH]; intros s Hok.
  - exists s. reflexivity.
  - inversion Hok as [|? ? Ht Hpre]; subst. cbn [app]. rewrite for_each_cons.
    destruct (scan_tx_appends CalldataFrame_decode rlp_decode_list eigen_da_blob_get
                self_batcher batcher_address t s) as [H1 _].
    rewrite Ht in H1. destruct (scan_tx t s) as [[v|e] s1]; cbn [fst] in H1; [|discriminate H1].
    apply IH. exact Hpre.
Qed.

(** The blob hashes [data_from_eigen_da] returns carry strictly
    increasing indices: no index is recorded twice and they come in
    order. *)
Theorem X_recorded_blob_indices_increase (txs : list TxEnvelope) (q : list bytes)
    (hs : list IndexedBlobHash) :
  data_from_eigen_da txs = Ok (q, hs) -> StronglySorted N.lt (map ibh_index hs).
Proof.
  unfold Derive.data_from_eigen_da.
  assert (Hinv : indices_ok (snd (scan_txs txs empty_scan))).
  { unfold Derive.scan_txs. apply preserves_for_each; [|exact indices_ok_empty].
    intros tx. apply scan_tx_preserves;
      [apply indices_ok_advance|apply indices_ok_push_hash|apply indices_ok_push_data]. }
  destruct (scan_txs txs empty_scan) as [[u|e] s]; [|discriminate].
  intros H. injection H as _ <-. exact (proj1 Hinv).
Qed.

(** When no EIP-4844 transaction from the batcher to the batcher address
    has both calldata and versioned hashes, the index of every blob hash
    [data_from_eigen_da] returns is the position of that hash among all
    versioned hashes of the block's transactions, in block order. *)
Theorem X_blob_index_is_block_position (txs : list TxEnvelope) (q : list bytes)
    (hs : list IndexedBlobHash) :
  Forall (counts_blob_hashes self_batcher batcher_address) txs ->
  data_from_eigen_da txs = Ok (q, hs) ->
  Forall (fun h => nth_error (block_blob_hashes txs) (N.to_nat (ibh_index h)) = Some (ibh_hash h))
         hs.
Proof.
  intros Hc. unfold Derive.data_from_eigen_da.
  destruct (scan_txs txs empty_scan) as [[u|e] s] eqn:E; [|discriminate].
  intros H. injection H as _ <-.
  assert (H0 : positioned [] empty_scan) by (split; [reflexivity|constructor]).
  exact (proj2 (scan_txs_positioned txs [] empty_scan s u Hc H0 E)).
Qed.

(** A transaction from the expected signer to the batcher address with
    non-empty calldata neither records blob hashes nor advances the
    blob-hash index, whatever its outcome: the versioned hashes of such an
    EIP-4844 transaction are not counted. *)
Theorem X_calldata_tx_skips_blob_index (tx : TxEnvelope) (c0 : byte) (p : bytes)
    (bh : option (list bytes)) (s : ScanState) :
  tx_parts tx = Some (Some self_batcher, c0 :: p, bh) ->
  recover_signer_or_default tx = batcher_address ->
  sc_hashes (snd (scan_tx tx s)) = sc_hashes s /\ sc_index (snd (scan_tx tx s)) = sc_index s.
Proof. apply scan_tx_matched_calldata. Qed.

(** A transaction from the expected signer to the batcher address whose
    calldata does not start with [0xed], or decodes to a frame with no
    value, or to a frame reference without quorum ids, is skipped: the
    scan step succeeds and leaves the state unchanged. *)
Theorem X_ignored_batcher_calldata (tx : TxEnvelope) (c0 : byte) (p : bytes)
    (bh : option (list bytes)) (s : ScanState) :
  tx_parts tx = Some (Some self_batcher, c0 :: p, bh) ->
  recover_signer_or_default tx = batcher_address ->
  (c0 <> DERIVATION_VERSION_EIGEN_DA \/ CalldataFrame_decode p = Some None \/
   exists fr, CalldataFrame_decode p = Some (Some (FrameRefV fr)) /\ fr_quorum_ids fr = []) ->
  scan_tx tx s = (Ok tt, s).
Proof.
  intros Hp Hs Hw. unfold Derive.scan_tx. rewrite Hp, Z.eqb_refl, Hs, Z.eqb_refl. cbn [negb].
  destruct (Byte.eqb c0 DERIVATION_VERSION_EIGEN_DA) eqn:Ec; [|reflexivity].
  apply Byte.byte_dec_bl in Ec.
  destruct Hw as [Hc|[Hd|(fr & Hd & Hq)]]; [contradiction|..].
  - unfold bind, of_option. rewrite Hd. reflexivity.
  - unfold bind, of_option. rewrite Hd. cbn [ret]. rewrite Hq. reflexivity.
Qed.

(** Once every transaction before [tx] is scanned successfully and [tx]
    fails with [e], [data_from_eigen_da] fails with [e], whatever follows. *)
Theorem X_first_failing_tx_aborts (pre post : list TxEnvelope) (tx : TxEnvelope)
    (e : EigenDAProviderError) :
  Forall (fun t => fst (scan_tx t empty_scan) = Ok tt) pre ->
  fst (scan_tx tx empty_scan) = Err e ->
  data_from_eigen_da (pre ++ tx :: post) = Err e.
Proof.
  intros Hpre Htx. unfold Derive.data_from_eigen_da.
  destruct (scan_txs_ok_prefix pre (tx :: post) empty_scan Hpre) as [s' E]. rewrite E.
  unfold Derive.scan_txs. rewrite for_each_cons.
  destruct (scan_tx_appends CalldataFrame_decode rlp_decode_list eigen_da_blob_get
              self_batcher batcher_address tx s') as [H1 _].
  rewrite Htx in H1. destruct (scan_tx tx s') as [[v|e'] s1]; cbn [fst] in H1; [discriminate H1|].
  injection H1 as ->. reflexivity.
Qed.
End Scan.

Section Source.
Variable BlockInfo Blob BlobData : Type.
Variable CalldataFrame_decode : bytes -> option (option CalldataValue).
Variable rlp_decode_list : bytes -> option (list bytes).
Variable eigen_da_blob_get : bytes -> result unit bytes.
Variable block_transactions : BlockInfo -> result unit (list TxEnvelope).
Variable get_blobs : BlockInfo -> list IndexedBlobHash -> result unit (list Blob).
Variable BlobData_fill : list Blob -> nat -> result unit (BlobData * bool).
Variable BlobData_decode : BlobData -> option bytes.

Local Abbreviation load_blobs :=
  (Derive.load_blobs BlockInfo Blob BlobData CalldataFrame_decode rlp_decode_list
     eigen_da_blob_get block_transactions get_blobs BlobData_fill BlobData_decode).
Local Abbreviation next :=
  (Derive.next BlockInfo Blob BlobData CalldataFrame_decode rlp_decode_list
     eigen_da_blob_get block_transactions get_blobs BlobData_fill BlobData_decode).
Local Abbreviation next_n :=
  (Derive.next_n BlockInfo Blob BlobData CalldataFrame_decode rlp_decode_list
     eigen_da_blob_get block_transactions get_blobs BlobData_fill BlobData_decode).
Local Abbreviation whole_blob_data :=
  (Derive.whole_blob_data Blob BlobData BlobData_fill BlobData_decode).

Lemma whole_blob_data_run (blobs : list Blob) (hs : list IndexedBlobHash) (f : nat -> BlobData)
    (k : nat) (acc : bytes) :
  (forall i, k <= i < k + length hs -> BlobData_fill blobs i = Ok (f i, true))%nat ->
  whole_blob_data blobs hs k acc =
    Ok (acc ++ concat (map (fun i => decoded_or_empty BlobData_decode (f i)) (seq k (length hs)))).
Proof.
  revert k acc; induction hs as [|h hs IH]; intros k acc Hf.
  - cbn. rewrite app_nil_r. reflexivity.
  - cbn [Derive.whole_blob_data length]. rewrite (Hf k) by (cbn [length]; lia).
    rewrite IH by (intros i Hi; apply Hf; cbn [length]; lia).
    cbn [seq map concat]. rewrite app_assoc. unfold decoded_or_empty.
    destruct (BlobData_decode (f k)); [reflexivity|rewrite app_nil_r; reflexivity].
Qed.

(** A load that does not succeed leaves the source as it was (closed, with
    its queue), and [next] then reports a provider error. *)
Theorem X_failed_load_keeps_source (br : BlockInfo) (b : Address) (self : EigenDASource) :
  fst (load_blobs br b self) <> Ok tt ->
  snd (load_blobs br b self) = self /\ next br b self = (Err Provider, self).
Proof.
  unfold Derive.next, Derive.load_blobs. intros H.
  destruct (src_open self); [cbn in H; contradiction|].
  destruct (block_transactions br); [|split; reflexivity].
  destruct (Derive.data_from_eigen_da _ _ _ _ _ _) as [[q hs]|e]; [|split; reflexivity].
  destruct (Derive.plain_blob_frames _ _ _ _ _ _ _ _ _); [cbn in H; contradiction|].
  split; reflexivity.
Qed.

(** An open source with an empty queue answers every [next] with [Eof]
    and stays as it is: it never loads another block until it is cleared. *)
Theorem X_drained_source_stays_eof (n : nat) (br : BlockInfo) (b a : Address) :
  next_n n br b {| src_batcher_address := a; src_data := []; src_open := true |} =
  (repeat (Err Eof) n, {| src_batcher_address := a; src_data := []; src_open := true |}).
Proof.
  induction n as [|n IH]; [reflexivity|].
  rewrite next_n_S.
  change (next br b {| src_batcher_address := a; src_data := []; src_open := true |})
    with (Err (A:=bytes) Eof, {| src_batcher_address := a; src_data := []; src_open := true |}).
  cbv beta iota. rewrite IH. reflexivity.
Qed.

(** When each of the plain blobs fills with a step to the next blob, the
    bytes gathered for the RLP decode are the decodes of the filled blobs
    in order, a blob that fails to decode contributing nothing. *)
Theorem X_undecodable_blobs_skipped (blobs : list Blob) (hs : list IndexedBlobHash)
    (f : nat -> BlobData) :
  (forall i, i < length hs -> BlobData_fill blobs i = Ok (f i, true))%nat ->
  whole_blob_data blobs hs 0 [] =
    Ok (concat (map (fun i => decoded_or_empty BlobData_decode (f i)) (seq 0 (length hs)))).
Proof.
  intros Hf. rewrite (whole_blob_data_run blobs hs f 0 []); [reflexivity|].
  intros i Hi. apply Hf. lia.
Qed.
End Source.

Lemma X_recorded_blob_indices_increase_witness :
  StronglySorted N.lt (map ibh_index
    [{| ibh_hash := [x51; x52]; ibh_index := 0%N |}; {| ibh_hash := [x71]; ibh_index := 2%N |}]).
Proof.
  apply (X_recorded_blob_indices_increase Toy.calldata_decode Toy.rlp_bytes Toy.echo_da
           Toy.inbox Toy.batcher Toy.example_txs [[x41; x42]; [x61]; [x62]]).
  vm_compute. reflexivity.
Defined.

Lemma X_blob_index_is_block_position_witness :
  Forall (fun h => nth_error (block_blob_hashes Toy.example_txs) (N.to_nat (ibh_index h)) =
                   Some (ibh_hash h))
    [{| ibh_hash := [x51; x52]; ibh_index := 0%N |}; {| ibh_hash := [x71]; ibh_index := 2%N |}].
Proof.
  apply (X_blob_index_is_block_position Toy.calldata_decode Toy.rlp_bytes Toy.echo_da
           Toy.inbox Toy.batcher Toy.example_txs [[x41; x42]; [x61]; [x62]]).
  - apply Forall_forall. intros t Ht. cbn [Toy.example_txs In] in Ht.
    repeat destruct Ht as [<-|Ht];
      [exact I | intros _ _; left; reflexivity | exact I
      | intros _ H; vm_compute in H; discriminate H | intros _ _; left; reflexivity | destruct Ht].
  - vm_compute. reflexivity.
Defined.

Lemma X_calldata_tx_skips_blob_index_witness :
  let tx := Eip4844 Toy.inbox [[x99]] {| tx_input := [xed; x00; x41]; tx_signer := Some Toy.batcher |} in
  sc_hashes (snd (scan_tx Toy.calldata_decode Toy.rlp_bytes Toy.echo_da Toy.inbox Toy.batcher
                    tx empty_scan)) = [] /\
  sc_index (snd (scan_tx Toy.calldata_decode Toy.rlp_bytes Toy.echo_da Toy.inbox Toy.batcher
                   tx empty_scan)) = 0%N.
Proof.
  intros tx.
  apply (X_calldata_tx_skips_blob_index Toy.calldata_decode Toy.rlp_bytes Toy.echo_da
           Toy.inbox Toy.batcher tx xed [x00; x41] (Some [[x99]]) empty_scan);
    reflexivity.
Defined.

Lemma X_ignored_batcher_calldata_witness :
  let tx := Eip1559 (Some Toy.inbox) {| tx_input := [x00; x41]; tx_signer := Some Toy.batcher |} in
  scan_tx Toy.calldata_decode Toy.rlp_bytes Toy.echo_da Toy.inbox Toy.batcher tx empty_scan =
    (Ok tt, empty_scan).
Proof.
  intros tx.
  apply (X_ignored_batcher_calldata Toy.calldata_decode Toy.rlp_bytes Toy.echo_da
           Toy.inbox Toy.batcher tx x00 [x41] None empty_scan).
  - reflexivity.
  - reflexivity.
  - left. intros H. discriminate H.
Defined.

Lemma X_first_failing_tx_aborts_witness :
  data_from_eigen_da Toy.calldata_decode Toy.rlp_bytes Toy.echo_da Toy.inbox Toy.batcher
    ([Eip1559 (Some Toy.inbox) {| tx_input := [xed; x00; x41]; tx_signer := Some Toy.batcher |}] ++
     Eip1559 (Some Toy.inbox) {| tx_input := [xed; x01; x05; x61]; tx_signer := Some Toy.batcher |}
       :: Toy.example_txs) = Err SlicePanic.
Proof.
  apply (X_first_failing_tx_aborts Toy.calldata_decode Toy.rlp_bytes Toy.echo_da
           Toy.inbox Toy.batcher).
  - constructor; [vm_compute; reflexivity|constructor].
  - vm_compute. reflexivity.
Defined.

Lemma X_failed_load_keeps_source_witness :
  let load_blobs := Derive.load_blobs unit bytes bytes Toy.calldata_decode Toy.rlp_bytes
                      Toy.echo_da Toy.no_block Toy.blobs_of Toy.fill Toy.blob_payload in
  let next := Derive.next unit bytes bytes Toy.calldata_decode Toy.rlp_bytes
                Toy.echo_da Toy.no_block Toy.blobs_of Toy.fill Toy.blob_payload in
  snd (load_blobs tt Toy.batcher Toy.closed_source) = Toy.closed_source /\
  next tt Toy.batcher Toy.closed_source = (Err Provider, Toy.closed_source).
Proof.
  intros load_blobs next.
  apply (X_failed_load_keeps_source unit bytes bytes Toy.calldata_decode Toy.rlp_bytes
           Toy.echo_da Toy.no_block Toy.blobs_of Toy.fill Toy.blob_payload).
  vm_compute. intros H. discriminate H.
Defined.

Lemma X_undecodable_blobs_skipped_witness :
  let hs := [{| ibh_hash := [x51]; ibh_index := 0%N |}; {| ibh_hash := [x71]; ibh_index := 1%N |}] in
  whole_blob_data bytes bytes Toy.fill Toy.blob_payload [[x51]; [x71]] hs 0 [] =
    Ok (concat (map (fun i => decoded_or_empty Toy.blob_payload (nth i [[x51]; [x71]] []))
                    (seq 0 (length hs)))).
Proof.
  intros hs.
  apply (X_undecodable_blobs_skipped bytes bytes Toy.fill Toy.blob_payload [[x51]; [x71]] hs
           (fun i => nth i [[x51]; [x71]] [])).
  intros i Hi. destruct i as [|[|i]]; [reflexivity|reflexivity|cbn in Hi; lia].
Defined.

End ExtrasDerive.

(** ** The proxy request URL *)

Module ExtrasProxy.
Import Proxy Views.

Lemma append_cancel_l (p a b : String.string) : String.append p a = String.append p b -> a = b.
Proof.
  induction p as [|c p IH]; cbn [String.append]; [auto|].
  intros H. injection H as H. exact (IH H).
Qed.

Lemma byte_to_N_lt (b : byte) : (Byte.to_N b < 256)%N.
Proof. destruct b; reflexivity. Qed.

Lemma hex_digit_inj (n m : N) : (n < 16)%N -> (m < 16)%N -> hex_digit n = hex_digit m -> n = m.
Proof.
  intros Hn Hm H. apply (f_equal Ascii.N_of_ascii) in H. unfold hex_digit in H.
  destruct (N.ltb_spec n 10), (N.ltb_spec m 10);
    rewrite !Ascii.N_ascii_embedding in H by lia; lia.
Qed.

Lemma hex_digit_lower (n : N) : (n < 16)%N -> is_lower_hex_digit (hex_digit n) = true.
Proof.
  intros Hn. unfold is_lower_hex_digit, hex_digit.
  destruct (N.ltb_spec n 10); rewrite Ascii.N_ascii_embedding by lia;
    apply orb_true_iff; [left|right]; apply andb_true_iff; split; apply N.leb_le; lia.
Qed.

Lemma hex_encode_inj (l1 l2 : bytes) : hex_encode l1 = hex_encode l2 -> l1 = l2.
Proof.
  revert l2; induction l1 as [|b l1 IH]; intros [|b' l2] H; cbn [hex_encode] in H;
    try discriminate H; [reflexivity|].
  injection H as Hq Hr Ht.
  pose proof (byte_to_N_lt b). pose proof (byte_to_N_lt b').
  apply hex_digit_inj in Hq; [|apply N.Div0.div_lt_upper_bound; lia ..].
  apply hex_digit_inj in Hr; [|apply N.mod_lt; lia ..].
  assert (E : Byte.to_N b = Byte.to_N b').
  { rewrite (N.div_mod (Byte.to_N b) 16), (N.div_mod (Byte.to_N b') 16) by lia.
    rewrite Hq, Hr. reflexivity. }
  apply (f_equal Byte.of_N) in E. rewrite !Byte.of_to_N in E. injection E as ->.
  f_equal. apply IH. exact Ht.
Qed.

(** Distinct commitments are fetched from distinct URLs: the request URL
    determines the commitment. *)
Theorem X_request_url_injective (proxy_url : String.string) (c1 c2 : bytes) :
  request_url proxy_url c1 = request_url proxy_url c2 -> c1 = c2.
Proof.
  unfold request_url. intros H.
  apply append_cancel_l, append_cancel_l, hex_encode_inj in H. exact H.
Qed.

Lemma X_request_url_injective_witness : [x01; xab] = [x01; xab].
Proof.
  apply (X_request_url_injective String.EmptyString [x01; xab] [x01; xab]).
  reflexivity.
Defined.

(** The commitment part of the URL is two lowercase hexadecimal digits
    per commitment byte. *)
Theorem X_commitment_hex_lowercase (commitment : bytes) :
  String.length (hex_encode commitment) = 2 * length commitment /\
  forallb is_lower_hex_digit (String.list_ascii_of_string (hex_encode commitment)) = true.
Proof.
  induction commitment as [|b c IH]; [split; reflexivity|]. destruct IH as [IL IH].
  pose proof (byte_to_N_lt b).
  cbn [hex_encode String.length String.list_ascii_of_string forallb].
  rewrite IL, IH, !hex_digit_lower by (solve [apply N.Div0.div_lt_upper_bound; lia
                                             | apply N.mod_lt; lia]).
  split; [cbn [length]; lia|reflexivity].
Qed.

End ExtrasProxy.

(** ** Hint tags *)

Module ExtrasHint.
Import String Hint.

(** Formatting a hint and parsing the result gives the hint back, provided
    the base tags round-trip and the base parser does not claim the
    [eigen-da-blob] tag. *)
Theorem X_fmt_then_from_str (HintType : Type) (base_from_str : string -> option HintType)
    (base_fmt : HintType -> string) :
  (forall h, base_from_str (base_fmt h) = Some h) ->
  base_from_str "eigen-da-blob"%string = None ->
  forall h, from_str HintType base_from_str (fmt HintType base_fmt h) = Ok h.
Proof.
  intros Hbase Hnone [h|]; unfold from_str, fmt.
  - rewrite Hbase. reflexivity.
  - rewrite Hnone. reflexivity.
Qed.

Lemma X_fmt_then_from_str_witness :
  from_str unit Toy.Tags.base_from_str (fmt unit Toy.Tags.base_fmt EigenDABlob) = Ok EigenDABlob /\
  from_str unit Toy.Tags.base_from_str (fmt unit Toy.Tags.base_fmt (Standard tt)) =
    Ok (Standard tt).
Proof.
  split; apply (X_fmt_then_from_str unit Toy.Tags.base_from_str Toy.Tags.base_fmt);
    solve [intros []; reflexivity | reflexivity].
Defined.

End ExtrasHint.

(** ** Host configuration: the timeout parser and the backend choice *)

Module ExtrasCfg.
Import String Ascii Cfg.
Local Open Scope string_scope.

Local Abbreviation digit_step :=
  (fun (acc : Z) (c : ascii) => (acc * 10 + Z.of_N (N_of_ascii c - 48))%Z).

Lemma digit_step_ge (ds : list ascii) (acc : Z) :
  (0 <= acc)%Z -> (acc <= fold_left digit_step ds acc)%Z.
Proof.
  revert acc; induction ds as [|c ds IH]; intros acc H; cbn [fold_left]; [lia|].
  pose proof (N2Z.is_nonneg (N_of_ascii c - 48)) as Hc.
  pose proof (IH (acc * 10 + Z.of_N (N_of_ascii c - 48))%Z ltac:(lia)). lia.
Qed.

Lemma to_digit_some (c : ascii) (x : Z) :
  to_digit c = Some x -> is_decimal_digit c = true /\ x = Z.of_N (N_of_ascii c - 48).
Proof.
  unfold to_digit, is_decimal_digit. cbv zeta.
  destruct ((48 <=? N_of_ascii c)%N && (N_of_ascii c <=? 57)%N); [|discriminate].
  intros H. injection H as <-. split; reflexivity.
Qed.

Lemma to_digit_digit (c : ascii) :
  is_decimal_digit c = true -> to_digit c = Some (Z.of_N (N_of_ascii c - 48)).
Proof. unfold to_digit, is_decimal_digit. cbv zeta. intros H. rewrite H. reflexivity. Qed.

Lemma digit_le_9 (c : ascii) : is_decimal_digit c = true -> (Z.of_N (N_of_ascii c - 48) <= 9)%Z.
Proof.
  unfold is_decimal_digit. intros H. apply andb_prop in H as [_ H]. apply N.leb_le in H. lia.
Qed.

Lemma from_str_digits_digits (ds : list ascii) (acc : Z) :
  (0 <= acc < 2 ^ 64)%Z -> forallb is_decimal_digit ds = true ->
  from_str_digits acc ds =
    if (fold_left digit_step ds acc <? 2 ^ 64)%Z then Ok (fold_left digit_step ds acc)
    else Err PosOverflow.
Proof.
  revert acc; induction ds as [|c ds IH]; intros acc Hacc Hd.
  - cbn [from_str_digits fold_left].
    destruct (Z.ltb_spec acc (2 ^ 64)); [reflexivity|lia].
  - cbn [forallb] in Hd. apply andb_prop in Hd as [Hc Hd].
    cbn [from_str_digits fold_left]. rewrite (to_digit_digit c Hc).
    pose proof (digit_le_9 c Hc). pose proof (N2Z.is_nonneg (N_of_ascii c - 48)).
    pose proof (digit_step_ge ds (acc * 10 + Z.of_N (N_of_ascii c - 48))%Z ltac:(lia)).
    destruct (Z.ltb_spec (acc * 10) (2 ^ 64));
      destruct (Z.ltb_spec (acc * 10 + Z.of_N (N_of_ascii c - 48)) (2 ^ 64)).
    + apply IH; [lia|exact Hd].
    + match goal with |- _ = if (?a <? ?b)%Z then _ else _ => destruct (Z.ltb_spec a b) end;
        [lia|reflexivity].
    + lia.
    + match goal with |- _ = if (?a <? ?b)%Z then _ else _ => destruct (Z.ltb_spec a b) end;
        [lia|reflexivity].
Qed.

Lemma from_str_digits_ok (ds : list ascii) (acc n : Z) :
  (0 <= acc < 2 ^ 64)%Z -> from_str_digits acc ds = Ok n ->
  forallb is_decimal_digit ds = true /\ n = fold_left digit_step ds acc /\ (n < 2 ^ 64)%Z.
Proof.
  revert acc; induction ds as [|c ds IH]; intros acc Hacc H.
  - cbn in H. injection H as <-. split; [reflexivity|split; [reflexivity|lia]].
  - cbn [from_str_digits] in H. destruct (to_digit c) as [x|] eqn:Hx; [|discriminate H].
    apply to_digit_some in Hx as [Hc ->].
    pose proof (N2Z.is_nonneg (N_of_ascii c - 48)).
    destruct (Z.ltb_spec (acc * 10) (2 ^ 64)); [|discriminate H].
    destruct (Z.ltb_spec (acc * 10 + Z.of_N (N_of_ascii c - 48)) (2 ^ 64)); [|discriminate H].
    apply IH in H; [|lia]. destruct H as (Hd & -> & Hn).
    cbn [forallb fold_left]. rewrite Hc, Hd. split; [reflexivity|split; [reflexivity|exact Hn]].
Qed.

Lemma u64_from_str_ok (src : string) (n : Z) :
  u64_from_str src = Ok n ->
  exists l, l <> [] /\
    (list_ascii_of_string src = l \/ list_ascii_of_string src = "+"%char :: l) /\
    from_str_digits 0 l = Ok n.
Proof.
  unfold u64_from_str. destruct (list_ascii_of_string src) as [|c rest]; [discriminate|].
  destruct (Ascii.eqb c "+"%char) eqn:Ep.
  - apply Ascii.eqb_eq in Ep. subst c. destruct rest as [|c' rest']; [discriminate|].
    intros H. exists (c' :: rest'). split; [discriminate|]. split; [right; reflexivity|exact H].
  - intros H. exists (c :: rest). split; [discriminate|]. split; [left; reflexivity|].
    destruct ((false || Ascii.eqb c "-"%char) && match rest with [] => true | _ => false end);
      [discriminate H|exact H].
Qed.

Lemma u64_from_str_digits (c : ascii) (rest : list ascii) :
  is_decimal_digit c = true ->
  u64_from_str (string_of_list_ascii (c :: rest)) = from_str_digits 0 (c :: rest).
Proof.
  intros Hc. unfold u64_from_str. rewrite list_ascii_of_string_of_list_ascii.
  destruct (Ascii.eqb c "+"%char) eqn:Ep;
    [apply Ascii.eqb_eq in Ep; subst c; discriminate Hc|].
  destruct (Ascii.eqb c "-"%char) eqn:Em;
    [apply Ascii.eqb_eq in Em; subst c; discriminate Hc|].
  reflexivity.
Qed.

Lemma u64_from_str_plus (c : ascii) (rest : list ascii) :
  u64_from_str ("+" ++ string_of_list_ascii (c :: rest)) = from_str_digits 0 (c :: rest).
Proof.
  unfold u64_from_str. cbn [String.append list_ascii_of_string].
  rewrite list_ascii_of_string_of_list_ascii. reflexivity.
Qed.

Lemma digit_string_split (ds : string) :
  ds <> "" -> exists c rest, ds = string_of_list_ascii (c :: rest).
Proof.
  intros H. destruct (list_ascii_of_string ds) as [|c rest] eqn:E.
  - rewrite <- (string_of_list_ascii_of_string ds), E in H. contradiction.
  - exists c, rest. rewrite <- E. symmetry. apply string_of_list_ascii_of_string.
Qed.

(** [parse_duration] accepts exactly a non-empty run of decimal digits,
    optionally after one [+], denoting less than [2^64] seconds, and
    returns that many whole seconds; leading zeros are accepted. *)
Theorem X_parse_duration_accepts (input : string) (d : Duration) :
  parse_duration input = Ok d <->
  exists ds, ds <> "" /\ forallb is_decimal_digit (list_ascii_of_string ds) = true /\
    (input = ds \/ input = "+" ++ ds) /\ (decimal_value ds < 2 ^ 64)%Z /\
    d = Duration_from_secs (decimal_value ds).
Proof.
  split.
  - unfold parse_duration. destruct (u64_from_str input) as [n|e] eqn:E; [|discriminate].
    intros H. injection H as <-.
    destruct (u64_from_str_ok input n E) as (l & Hl & Hs & Hd).
    destruct (from_str_digits_ok l 0 n ltac:(lia) Hd) as (Hdig & Hn & Hlt).
    exists (string_of_list_ascii l).
    unfold decimal_value. rewrite list_ascii_of_string_of_list_ascii, <- Hn.
    split; [destruct l; [contradiction|discriminate]|].
    split; [exact Hdig|]. split; [|split; [exact Hlt|reflexivity]].
    rewrite <- (string_of_list_ascii_of_string input).
    destruct Hs as [-> | ->]; [left|right]; reflexivity.
  - intros (ds & Hne & Hdig & Hin & Hlt & ->).
    destruct (digit_string_split ds Hne) as (c & rest & ->).
    unfold decimal_value in *. rewrite list_ascii_of_string_of_list_ascii in Hdig, Hlt |- *.
    assert (Hc : is_decimal_digit c = true) by (cbn [forallb] in Hdig; now apply andb_prop in Hdig).
    unfold parse_duration.
    destruct Hin as [-> | ->]; [rewrite u64_from_str_digits by exact Hc|rewrite u64_from_str_plus];
      rewrite from_str_digits_digits by (lia || exact Hdig);
      destruct (Z.ltb_spec (fold_left digit_step (c :: rest) 0%Z) (2 ^ 64)); solve [reflexivity|lia].
Qed.

(** A run of decimal digits, optionally after one [+], denoting [2^64]
    seconds or more is rejected with the overflow message. *)
Theorem X_parse_duration_overflow (input ds : string) :
  ds <> "" -> forallb is_decimal_digit (list_ascii_of_string ds) = true ->
  (input = ds \/ input = "+" ++ ds) -> (2 ^ 64 <= decimal_value ds)%Z ->
  parse_duration input = Err "Failed to parse duration: number too large to fit in target type".
Proof.
  intros Hne Hdig Hin Hge.
  destruct (digit_string_split ds Hne) as (c & rest & ->).
  unfold decimal_value in Hge. rewrite list_ascii_of_string_of_list_ascii in Hdig, Hge.
  assert (Hc : is_decimal_digit c = true) by (cbn [forallb] in Hdig; now apply andb_prop in Hdig).
  unfold parse_duration.
  destruct Hin as [-> | ->]; [rewrite u64_from_str_digits by exact Hc|rewrite u64_from_str_plus];
    rewrite from_str_digits_digits by (lia || exact Hdig);
    destruct (Z.ltb_spec (fold_left digit_step (c :: rest) 0%Z) (2 ^ 64)); solve [reflexivity|lia].
Qed.

Lemma X_parse_duration_overflow_witness :
  parse_duration "18446744073709551616" =
    Err "Failed to parse duration: number too large to fit in target type".
Proof.
  apply (X_parse_duration_overflow "18446744073709551616" "18446744073709551616").
  - discriminate.
  - reflexivity.
  - left. reflexivity.
  - vm_compute. discriminate.
Defined.

(** The empty string, a lone [+], and anything starting with [-] (a
    negative duration) are rejected, with the messages of [u64]'s parse
    error. *)
Theorem X_parse_duration_rejects (rest : string) :
  parse_duration "" = Err "Failed to parse duration: cannot parse integer from empty string" /\
  parse_duration "+" = Err "Failed to parse duration: invalid digit found in string" /\
  parse_duration ("-" ++ rest) = Err "Failed to parse duration: invalid digit found in string".
Proof.
  split; [reflexivity|]. split; [reflexivity|].
  unfold parse_duration, u64_from_str. cbn [String.append list_ascii_of_string].
  destruct (list_ascii_of_string rest); reflexivity.
Qed.

Section Start.
Variable L1 Blobs L2 : Type.
Variable http_provider : string -> option L1.
Variable OnlineBlobProvider_init : string -> option Blobs.
Variable http_provider_l2 : string -> option L2.
Variable retrieve_client_build : Duration -> bool.

Local Abbreviation start_server :=
  (Cfg.start_server L1 Blobs L2 http_provider OnlineBlobProvider_init http_provider_l2
     retrieve_client_build).

Lemma create_key_value_store_ok (self : EigenDAChainHost) :
  create_key_value_store self =
  Ok match data_dir (single_host self) with
     | Some d => DiskKeyValueStore d
     | None => MemoryKeyValueStore
     end.
Proof. unfold create_key_value_store. destruct (data_dir (single_host self)); reflexivity. Qed.

(** The server runs the offline backend exactly when no L1, L2 or beacon
    address is given and a data directory is; its store is then always
    the disk store of that directory. *)
Theorem X_offline_backend_iff (self : EigenDAChainHost) (kv : KeyValueStore) :
  start_server self = Some (Ok (OfflineHostBackend kv)) <->
  l1_node_address (single_host self) = None /\ l2_node_address (single_host self) = None /\
  l1_beacon_address (single_host self) = None /\
  exists d, data_dir (single_host self) = Some d /\ kv = DiskKeyValueStore d.
Proof.
  unfold Cfg.start_server. rewrite create_key_value_store_ok.
  destruct (is_offline self) eqn:Hoff.
  - unfold is_offline in Hoff.
    destruct self as [[[l1|] [l2|] [b|] [dd|]] pr]; cbn in Hoff |- *; try discriminate Hoff.
    split.
    + intros H. inversion H; subst. repeat split. eexists; split; reflexivity.
    + intros (_ & _ & _ & d0 & H4 & H5). inversion H4; subst. reflexivity.
  - split.
    + intros H. exfalso. destruct (Cfg.create_providers _ _ _ _ _ _ _ self) as [[|]|];
        discriminate H.
    + intros (H1 & H2 & H3 & d0 & H4 & _). unfold is_offline in Hoff.
      rewrite H1, H2, H3, H4 in Hoff. discriminate Hoff.
Qed.

(** The server runs the online backend only when the L1, beacon and L2
    addresses and the proxy URL are all set; the backend keeps the
    configuration, the store of the data directory (or a memory store),
    and the providers built from those addresses, the proxy client taking
    [retrieve_timeout] as its timeout. *)
Theorem X_online_backend_built (self cfg : EigenDAChainHost) (kv : KeyValueStore)
    (p : EigenDAChainProviders L1 Blobs L2) :
  start_server self = Some (Ok (OnlineHostBackend cfg kv p)) ->
  cfg = self /\
  kv = match data_dir (single_host self) with
       | Some d => DiskKeyValueStore d
       | None => MemoryKeyValueStore
       end /\
  exists l1 beacon l2 url,
    l1_node_address (single_host self) = Some l1 /\
    l1_beacon_address (single_host self) = Some beacon /\
    l2_node_address (single_host self) = Some l2 /\
    proxy_url (eigen_da_args self) = Some url /\
    http_provider l1 = Some (prov_l1 p) /\
    OnlineBlobProvider_init beacon = Some (prov_blobs p) /\
    http_provider_l2 l2 = Some (prov_l2 p) /\
    prov_eigen_da p = {| proxy_url_of := url;
                         retrieve_blob_timeout := retrieve_timeout (eigen_da_args self) |}.
Proof.
  unfold Cfg.start_server. rewrite create_key_value_store_ok.
  destruct (is_offline self); [intros H; discriminate H|].
  unfold Cfg.create_providers, Cfg.EigenDAProxy_new.
  destruct (l1_node_address (single_host self)) as [l1|]; [|intros H; discriminate H].
  destruct (http_provider l1) as [p1|] eqn:E1; [|intros H; discriminate H].
  destruct (l1_beacon_address (single_host self)) as [b|]; [|intros H; discriminate H].
  destruct (OnlineBlobProvider_init b) as [p2|] eqn:E2; [|intros H; discriminate H].
  destruct (l2_node_address (single_host self)) as [l2|]; [|intros H; discriminate H].
  destruct (http_provider_l2 l2) as [p3|] eqn:E3; [|intros H; discriminate H].
  destruct (proxy_url (eigen_da_args self)) as [u|]; [|intros H; discriminate H].
  destruct (retrieve_client_build _); [|intros H; discriminate H].
  intros H. injection H as <- <- <-.
  split; [reflexivity|]. split; [reflexivity|].
  exists l1, b, l2, u. repeat split; assumption.
Qed.

(** Outside offline mode the settings are checked in order, each after
    the provider of the one before has been built: a missing L1 address,
    beacon address, L2 address or proxy URL is reported with its own
    message, unless a constructor called before that check panics (the
    L1 provider's URL parse, the beacon node round trip of
    [OnlineBlobProvider::init], the L2 provider's URL parse, the proxy's
    HTTP client build), in which case the host panics whatever the later
    settings are. *)
Theorem X_online_config_errors (self : EigenDAChainHost) :
  is_offline self = false ->
  let h := single_host self in
  (l1_node_address h = None -> start_server self = Some (Err (Other "Provider must be set"))) /\
  (forall a, l1_node_address h = Some a -> http_provider a = None -> start_server self = None) /\
  (forall a p1, l1_node_address h = Some a -> http_provider a = Some p1 ->
     l1_beacon_address h = None ->
     start_server self = Some (Err (Other "Beacon API URL must be set"))) /\
  (forall a p1 b, l1_node_address h = Some a -> http_provider a = Some p1 ->
     l1_beacon_address h = Some b -> OnlineBlobProvider_init b = None ->
     start_server self = None) /\
  (forall a p1 b p2, l1_node_address h = Some a -> http_provider a = Some p1 ->
     l1_beacon_address h = Some b -> OnlineBlobProvider_init b = Some p2 ->
     l2_node_address h = None ->
     start_server self = Some (Err (Other "L2 node address must be set"))) /\
  (forall a p1 b p2 c, l1_node_address h = Some a -> http_provider a = Some p1 ->
     l1_beacon_address h = Some b -> OnlineBlobProvider_init b = Some p2 ->
     l2_node_address h = Some c -> http_provider_l2 c = None ->
     start_server self = None) /\
  (forall a p1 b p2 c p3, l1_node_address h = Some a -> http_provider a = Some p1 ->
     l1_beacon_address h = Some b -> OnlineBlobProvider_init b = Some p2 ->
     l2_node_address h = Some c -> http_provider_l2 c = Some p3 ->
     proxy_url (eigen_da_args self) = None ->
     start_server self = Some (Err (Other "EigenDA Proxy URL must be set"))) /\
  (forall a p1 b p2 c p3 u, l1_node_address h = Some a -> http_provider a = Some p1 ->
     l1_beacon_address h = Some b -> OnlineBlobProvider_init b = Some p2 ->
     l2_node_address h = Some c -> http_provider_l2 c = Some p3 ->
     proxy_url (eigen_da_args self) = Some u ->
     retrieve_client_build (retrieve_timeout (eigen_da_args self)) = false ->
     start_server self = None).
Proof.
  intros Hoff h. unfold Cfg.start_server. rewrite create_key_value_store_ok, Hoff.
  unfold Cfg.create_providers, Cfg.EigenDAProxy_new. subst h.
  repeat split; intros;
    repeat match goal with H : ?x = _ |- context [?x] => rewrite H; clear H end;
    reflexivity.
Qed.
End Start.

Lemma X_online_backend_built_witness :
  let self := {| single_host := {| l1_node_address := Some "l1"; l2_node_address := Some "l2";
                                   l1_beacon_address := Some "beacon"; data_dir := None |};
                 eigen_da_args := {| proxy_url := Some "proxy";
                                    retrieve_timeout := Duration_from_secs 120 |} |} in
  let start := Cfg.start_server string string string (fun s => Some s) (fun s => Some s)
                 (fun s => Some s) (fun _ => true) in
  exists cfg kv p, start self = Some (Ok (OnlineHostBackend cfg kv p)) /\ cfg = self /\
    kv = MemoryKeyValueStore /\
    prov_eigen_da p = {| proxy_url_of := "proxy"; retrieve_blob_timeout := Duration_from_secs 120 |}.
Proof.
  intros self start. do 3 eexists. split; [reflexivity|].
  destruct (X_online_backend_built string string string (fun s => Some s) (fun s => Some s)
              (fun s => Some s) (fun _ => true) self _ _ _ eq_refl)
    as (Hc & Hk & l1 & b & l2 & u & H1 & H2 & H3 & H4 & _ & _ & _ & Hp).
  split; [exact Hc|]. split; [exact Hk|]. rewrite Hp. cbn in H4. injection H4 as <-. reflexivity.
Defined.

(** With nothing configured the host fails with "Provider must be set";
    with the L1 and beacon addresses set but no L2 address, it reports the
    missing L2 address when the beacon node answers, and panics when it
    does not. *)
Lemma X_online_config_errors_witness :
  let cfg l1 b := {| single_host := {| l1_node_address := l1; l2_node_address := None;
                                       l1_beacon_address := b; data_dir := None |};
                     eigen_da_args := {| proxy_url := None;
                                        retrieve_timeout := Duration_from_secs 120 |} |} in
  Cfg.start_server unit unit unit (fun _ => Some tt) (fun _ => Some tt) (fun _ => Some tt)
    (fun _ => true) (cfg None None) = Some (Err (Other "Provider must be set")) /\
  Cfg.start_server unit unit unit (fun _ => Some tt) (fun _ => Some tt) (fun _ => Some tt)
    (fun _ => true) (cfg (Some "l1") (Some "beacon")) =
    Some (Err (Other "L2 node address must be set")) /\
  Cfg.start_server unit unit unit (fun _ => Some tt) (fun _ => None) (fun _ => Some tt)
    (fun _ => true) (cfg (Some "l1") (Some "beacon")) = None.
Proof.
  intros cfg. split; [|split].
  - apply (X_online_config_errors unit unit unit (fun _ => Some tt) (fun _ => Some tt)
             (fun _ => Some tt) (fun _ => true) (cfg None None) eq_refl).
    reflexivity.
  - apply (X_online_config_errors unit unit unit (fun _ => Some tt) (fun _ => Some tt)
             (fun _ => Some tt) (fun _ => true) (cfg (Some "l1") (Some "beacon")) eq_refl)
      with (a := "l1") (p1 := tt) (b := "beacon") (p2 := tt); reflexivity.
  - apply (X_online_config_errors unit unit unit (fun _ => Some tt) (fun _ => None)
             (fun _ => Some tt) (fun _ => true) (cfg (Some "l1") (Some "beacon")) eq_refl)
      with (a := "l1") (p1 := tt) (b := "beacon"); reflexivity.
Defined.

End ExtrasCfg.
